(** * rpath-xmllib: the XML data binder of [rpath_common/xmllib/api1.py]

    A shallow embedding of the node classes, the SAX content handler and
    the [DataBinder] facade, followed by the properties of the
    specification that were checked against it.

    Conventions of the embedding.
    - Python strings ([str] and [unicode] alike) are [string]; text is
      taken to be ASCII.
    - A Python [dict] with string keys, and the [__dict__] of an
      instance, is an association list; a store into it replaces the
      entry in place or appends a new one.  The order of the list stands
      for the (unspecified) iteration order of the dict.
    - A raised exception is the [Raise] outcome of a [result]; code that
      mutates an object before it raises returns the mutated object next
      to the outcome.
    - Serialized XML is kept as the sequence of lexical items (start
      tag, character data, end tag, declaration) that [lxml] writes and
      the SAX parser reads; see [token]. *)

From Stdlib Require Import String Ascii ZArith List Bool Arith Lia.
From Stdlib Require Import Permutation Sorted DecimalString DecimalPos.
From Stdlib Require Import OrderedTypeEx.
Import ListNotations.

Local Open Scope string_scope.
Local Open Scope list_scope.

(** ** Exceptions *)

Inductive exn : Set :=
| IndexError          (* list.pop() / list[-1] on an empty list *)
| ValueError          (* int() on a bad literal, lxml on a bad name or text *)
| AttributeError      (* a method or attribute the object does not have *)
| TypeError           (* an operand or argument of the wrong type *)
| KeyError            (* d[k] for a key the dict does not hold *)
| SAXParseException.  (* raised by the SAX parser on ill-formed XML *)

Inductive result (A : Type) : Type :=
| Ok (a : A)
| Raise (e : exn).

Arguments Ok {A} a.
Arguments Raise {A} e.

Definition bind {A B : Type} (r : result A) (k : A -> result B) : result B :=
  match r with
  | Ok a => k a
  | Raise e => Raise e
  end.

Notation "x <- r ;; k" := (bind r (fun x => k))
  (at level 61, r at next level, right associativity).

Definition is_ok {A : Type} (r : result A) : bool :=
  match r with Ok _ => true | Raise _ => false end.

(** ** Python built-ins on strings *)

Module Py.

(** The characters [str.strip()] and [int()] treat as white space:
    space, and the controls TAB, LF, VT, FF, CR. *)
Definition isspace (c : ascii) : bool :=
  let n := nat_of_ascii c in
  (n =? 32)%nat || ((9 <=? n)%nat && (n <=? 13)%nat).

Fixpoint lstrip (s : string) : string :=
  match s with
  | EmptyString => EmptyString
  | String c r => if isspace c then lstrip r else s
  end.

Fixpoint rstrip (s : string) : string :=
  match s with
  | EmptyString => EmptyString
  | String c r =>
      match rstrip r with
      | EmptyString => if isspace c then EmptyString else String c EmptyString
      | r' => String c r'
      end
  end.

Definition strip (s : string) : string := rstrip (lstrip s).

Definition upper_char (c : ascii) : ascii :=
  let n := nat_of_ascii c in
  if (97 <=? n)%nat && (n <=? 122)%nat then ascii_of_nat (n - 32) else c.

Fixpoint upper (s : string) : string :=
  match s with
  | EmptyString => EmptyString
  | String c r => String (upper_char c) (upper r)
  end.

(** [s.startswith("_")] *)
Definition startswith_ (s : string) : bool :=
  match s with
  | String "_" _ => true
  | _ => false
  end.

(** [sub in s] for two strings. *)
Fixpoint contains (sub s : string) : bool :=
  String.prefix sub s ||
  match s with
  | EmptyString => false
  | String _ r => contains sub r
  end.

(** [s.index(sub)], for a [sub] that occurs in [s]. *)
Fixpoint find (sub s : string) : nat :=
  if String.prefix sub s then 0%nat
  else match s with
       | EmptyString => 0%nat
       | String _ r => S (find sub r)
       end.

Definition digit (c : ascii) : option Z :=
  let n := nat_of_ascii c in
  if (48 <=? n)%nat && (n <=? 57)%nat then Some (Z.of_nat (n - 48)) else None.

Fixpoint digits (s : string) (acc : Z) : option Z :=
  match s with
  | EmptyString => Some acc
  | String c r =>
      match digit c with
      | Some d => digits r (10 * acc + d)
      | None => None
      end
  end.

Definition unsigned (s : string) : option Z :=
  match s with
  | EmptyString => None
  | _ => digits s 0
  end.

(** [int(s)] for a string, base 10: optional surrounding white space,
    an optional sign, one or more decimal digits.  [None] stands for
    "ValueError: invalid literal for int()". *)
Definition int (s : string) : option Z :=
  match strip s with
  | String "-" r => option_map Z.opp (unsigned r)
  | String "+" r => unsigned r
  | r => unsigned r
  end.

(** [str(n)] for an integer. *)
Definition str_int (z : Z) : string := NilZero.string_of_int (Z.to_int z).

End Py.

(** ** Values *)

(** What a class-level attribute holds: the attribute values of an XML
    start tag (strings), or a number, a boolean or [None] that a caller
    put on a class. *)
Inductive atom : Set :=
| ANone
| ABool (b : bool)
| AInt (z : Z)
| AFloat (repr : string)
| AStr (s : string).

(** The six node classes of the module, by what [_finalize] does. *)
Inductive node_kind : Set :=
| KBase | KInteger | KString | KNull | KBoolean | KDict.

(** A class that can be registered for a tag: [BaseNode], one of its
    five subclasses, or a user subclass of one of them that declares its
    own [_singleChildren] (and possibly [_childOrder]). *)
Record node_type : Set := NodeType {
  nt_kind : node_kind;
  nt_single : list string;   (* _singleChildren *)
  nt_order : list string     (* _childOrder at class level *)
}.

(** The class of an instance: its [__name__], the node class it derives
    from ([None]: a plain [object] subclass), and the entries of its own
    [__dict__]. *)
Record pyclass : Set := PyClass {
  c_name : string;
  c_base : option node_type;
  c_attrs : list (string * atom)
}.

(** Python values.  A float is carried by its [str()] text, the only
    thing the binder reads of it; [VInt] covers [int] and [long]; a set
    is the list of its members in iteration order. *)
#[warnings="-register-all"]
Inductive value : Type :=
| VNone
| VBool (b : bool)
| VInt (z : Z)
| VFloat (repr : string)
| VStr (s : string)
| VList (xs : list value)
| VTuple (xs : list value)
| VSet (xs : list value)
| VDict (d : list (string * value))
| VObj (c : pyclass) (d : list (string * value)).

Definition fields : Type := list (string * value).

Definition atom_value (a : atom) : value :=
  match a with
  | ANone => VNone
  | ABool b => VBool b
  | AInt z => VInt z
  | AFloat r => VFloat r
  | AStr s => VStr s
  end.

(** *** Dictionaries *)

Fixpoint dict_get {A : Type} (k : string) (d : list (string * A)) : option A :=
  match d with
  | [] => None
  | (k', v) :: r => if String.eqb k k' then Some v else dict_get k r
  end.

Definition dict_has {A : Type} (k : string) (d : list (string * A)) : bool :=
  match dict_get k d with Some _ => true | None => false end.

(** [d[k] = v] *)
Fixpoint dict_set {A : Type} (k : string) (v : A) (d : list (string * A))
  : list (string * A) :=
  match d with
  | [] => [(k, v)]
  | (k', v') :: r =>
      if String.eqb k k' then (k, v) :: r else (k', v') :: dict_set k v r
  end.

Definition keys {A : Type} (d : list (string * A)) : list string := map fst d.

(** The entries whose name does not start with an underscore. *)
Definition public {A : Type} (d : list (string * A)) : list (string * A) :=
  filter (fun kv => negb (Py.startswith_ (fst kv))) d.

(** *** Instances *)

(** An instance: its class and its [__dict__]. *)
Record node : Type := Node {
  n_class : pyclass;
  n_dict : fields             (* the instance __dict__ *)
}.

(** The instance as a value. *)
Definition obj (n : node) : value := VObj (n_class n) (n_dict n).

(** The class-level attributes every [BaseNode] subclass inherits. *)
Definition inherited (c : pyclass) (name : string) : option value :=
  match c_base c with
  | Some nt =>
      if String.eqb name "_singleChildren" then Some (VList (map VStr (nt_single nt)))
      else if String.eqb name "_childOrder" then Some (VList (map VStr (nt_order nt)))
      else None
  | None => None
  end.

(** [getattr(o, name)] for a data attribute: the instance [__dict__],
    then the class [__dict__], then the base classes. *)
Definition getattr_of (c : pyclass) (d : fields) (name : string) : option value :=
  match dict_get name d with
  | Some v => Some v
  | None =>
      match dict_get name (c_attrs c) with
      | Some a => Some (atom_value a)
      | None => inherited c name
      end
  end.

(** [getattr] on an instance. *)
Definition getattr (o : node) (name : string) : option value :=
  getattr_of (n_class o) (n_dict o) name.

(** A method of the node classes can be called on [o] when [o] is an
    instance of one of them and nothing stored under the method's name
    (a child tag in the instance, an XML attribute in the class) hides
    it. *)
Definition has_method (o : node) (m : string) : result unit :=
  match c_base (n_class o) with
  | None => Raise AttributeError
  | Some _ =>
      if dict_has m (n_dict o) || dict_has m (c_attrs (n_class o))
      then Raise TypeError      (* a list or a string is not callable *)
      else Ok tt
  end.

(** Calling a method [m] that the type of [v] does not define: an
    instance may still hold something under that name. *)
Definition no_method (v : value) (m : string) : exn :=
  match v with
  | VObj c d =>
      match getattr_of c d m with
      | Some _ => TypeError
      | None => AttributeError
      end
  | _ => AttributeError
  end.

(** Truth value of a Python object. *)
Definition truthy (v : value) : bool :=
  match v with
  | VNone => false
  | VBool b => b
  | VInt z => negb (Z.eqb z 0)
  | VFloat r => negb (String.eqb r "0.0" || String.eqb r "-0.0")
  | VStr s => negb (String.eqb s "")
  | VList xs | VTuple xs | VSet xs =>
      match xs with [] => false | _ => true end
  | VDict d => match d with [] => false | _ => true end
  | VObj _ _ => true
  end.

(** [v == name] for a string [name]. *)
Definition eq_str (name : string) (v : value) : bool :=
  match v with
  | VStr s => String.eqb s name
  | _ => false
  end.

(** [name in v] *)
Definition py_in (name : string) (v : value) : result bool :=
  match v with
  | VList xs | VTuple xs | VSet xs => Ok (existsb (eq_str name) xs)
  | VStr s => Ok (Py.contains name s)
  | VDict d => Ok (dict_has name d)
  | _ => Raise TypeError      (* argument is not iterable *)
  end.

(** ** The node classes *)

Module BaseNode.

(** [__init__]: [self._text = ''] *)
Definition __init__ (c : pyclass) : node :=
  {| n_class := c; n_dict := [("_text", VStr "")] |}.

(** [return self] *)
Definition _finalize (self : node) : result value := Ok (obj self).

(** [self._text += ch] *)
Definition _characters (self : node) (ch : string) : node * result unit :=
  match getattr self "_text" with
  | Some (VStr s) =>
      ({| n_class := n_class self;
          n_dict := dict_set "_text" (VStr (s ++ ch)) (n_dict self) |}, Ok tt)
  | Some (VList xs) =>
      (* list += string extends the list by the characters *)
      ({| n_class := n_class self;
          n_dict := dict_set "_text"
            (VList (xs ++ map (fun c => VStr (String c EmptyString))
                              (list_ascii_of_string ch)))
            (n_dict self) |}, Ok tt)
  | Some _ => (self, Raise TypeError)
  | None => (self, Raise AttributeError)
  end.

End BaseNode.

Module IntegerNode.

(** [int(v)] *)
Definition int_of (v : value) : result Z :=
  match v with
  | VStr s =>
      match Py.int s with
      | Some z => Ok z
      | None => Raise ValueError
      end
  | VInt z => Ok z
  | VBool b => Ok (if b then 1%Z else 0%Z)
  | _ => Raise TypeError
  end.

(** [return self._text and int(self._text) or 0] *)
Definition _finalize (self : node) : result value :=
  match getattr self "_text" with
  | None => Raise AttributeError
  | Some t =>
      if truthy t then
        z <- int_of t ;;
        Ok (VInt (if Z.eqb z 0 then 0%Z else z))
      else Ok (VInt 0)
  end.

End IntegerNode.

Module StringNode.

(** [str(v)] where [v] is not a string.  The text of a container or
    of an instance is its [repr] (for an instance it shows a memory
    address) and is left as a mark. *)
Definition str_of (v : value) : string :=
  match v with
  | VNone => "None"
  | VBool b => if b then "True" else "False"
  | VInt z => Py.str_int z
  | VFloat r => r
  | VStr s => s
  | _ => "<repr>"
  end.

(** [if isinstance(self._text, unicode): return self._text]
    [return str(self._text)] *)
Definition _finalize (self : node) : result value :=
  match getattr self "_text" with
  | None => Raise AttributeError
  | Some t => Ok (VStr (str_of t))
  end.

End StringNode.

Module NullNode.

(** [pass] *)
Definition _finalize (self : node) : result value := Ok VNone.

End NullNode.

Module BooleanNode.

(** [return self._text.upper().strip() in ('TRUE', '1')] *)
Definition _finalize (self : node) : result value :=
  match getattr self "_text" with
  | None => Raise AttributeError
  | Some (VStr s) =>
      let t := Py.strip (Py.upper s) in
      Ok (VBool (String.eqb t "TRUE" || String.eqb t "1"))
  | Some v => Raise (no_method v "upper")
  end.

End BooleanNode.

Module DictNode.

(** [return dict(x for x in self.__dict__.iteritems()
                 if not x[0].startswith('_'))] *)
Definition _finalize (self : node) : result value :=
  Ok (VDict (public (n_dict self))).

End DictNode.

(** [childNode._finalize()]: the method of the class the node was made
    from. *)
Definition finalize (childNode : node) : result value :=
  _ <- has_method childNode "_finalize" ;;
  match c_base (n_class childNode) with
  | None => Raise AttributeError
  | Some nt =>
      match nt_kind nt with
      | KBase => BaseNode._finalize childNode
      | KInteger => IntegerNode._finalize childNode
      | KString => StringNode._finalize childNode
      | KNull => NullNode._finalize childNode
      | KBoolean => BooleanNode._finalize childNode
      | KDict => DictNode._finalize childNode
      end
  end.

Module BaseNodeChildren.

(** [self] with [d] as its [__dict__]. *)
Definition with_dict (self : node) (d : fields) : node :=
  {| n_class := n_class self; n_dict := d |}.

(** [BaseNode._addChild(self, name, childNode)].  The four statements
    of the source are the four steps below; each works on the
    [__dict__] the step before left. *)
Definition _addChild (self : node) (name : string) (childNode : node)
  : node * result unit :=
  match getattr self "_childOrder" with
  | None => (self, Raise AttributeError)
  | Some _ =>
      (* if id(self._childOrder) == id(self.__class__._childOrder):
             self._childOrder = []
         the two are the same object exactly when the instance has no
         entry of its own *)
      let d1 := if dict_has "_childOrder" (n_dict self) then n_dict self
                else dict_set "_childOrder" (VList []) (n_dict self) in
      (* self._childOrder.append(name) *)
      match dict_get "_childOrder" d1 with
      | Some (VList l) =>
          let d2 := dict_set "_childOrder" (VList (l ++ [VStr name])) d1 in
          (* if name in self._singleChildren: *)
          match getattr (with_dict self d2) "_singleChildren" with
          | None => (with_dict self d2, Raise AttributeError)
          | Some sc =>
              match py_in name sc with
              | Raise e => (with_dict self d2, Raise e)
              | Ok true =>
                  (* self.__dict__[name] = childNode._finalize() *)
                  match finalize childNode with
                  | Ok v => (with_dict self (dict_set name v d2), Ok tt)
                  | Raise e => (with_dict self d2, Raise e)
                  end
              | Ok false =>
                  (* if name not in self.__dict__:
                         self.__dict__[name] = []
                     self.__dict__[name].append(childNode._finalize()) *)
                  match dict_get name d2 with
                  | None =>
                      let d3 := dict_set name (VList []) d2 in
                      match finalize childNode with
                      | Ok v => (with_dict self (dict_set name (VList [v]) d3), Ok tt)
                      | Raise e => (with_dict self d3, Raise e)
                      end
                  | Some (VList l') =>
                      match finalize childNode with
                      | Ok v =>
                          (with_dict self (dict_set name (VList (l' ++ [v])) d2), Ok tt)
                      | Raise e => (with_dict self d2, Raise e)
                      end
                  | Some v => (with_dict self d2, Raise (no_method v "append"))
                  end
              end
          end
      | Some v => (with_dict self d1, Raise (no_method v "append"))
      | None => (with_dict self d1, Raise AttributeError)
      end
  end.

End BaseNodeChildren.

(** ** The SAX content handler *)

Module BindingHandler.

(** [stack] is the Python list read from its end: the head is
    [self.stack[-1]]. *)
Record t : Type := Make {
  typeDict : list (string * node_type);
  stack : list node;
  rootNode : value
}.

(** [__init__(self, typeDict = None)] *)
Definition __init__ (typeDict : option (list (string * node_type))) : t :=
  {| typeDict := match typeDict with Some d => d | None => [] end;
     stack := [];
     rootNode := VNone |}.

(** [self.typeDict[key] = typeClass] *)
Definition registerType (self : t) (key : string) (typeClass : node_type) : t :=
  {| typeDict := dict_set key typeClass (typeDict self);
     stack := stack self;
     rootNode := rootNode self |}.

(** [BaseNode] itself: no single children, an empty [_childOrder]. *)
Definition BaseNode_class : node_type :=
  {| nt_kind := KBase; nt_single := []; nt_order := [] |}.

(** [type(str(name), (classType,), dict(attrs))]: a class named after
    the tag, derived from the registered class, whose own attributes
    are the XML attributes.  The attributes are kept as plain class
    attributes whatever their names; of the names to which Python
    gives a meaning of its own in a class body, those that stop the
    construction of the instance are dealt with in [startElement], and
    the others ([__slots__], [__class__], [__dict__],
    [__getattribute__]) are not told apart from plain names: an
    element with an attribute of one of these names is outside what is
    modelled. *)
Definition element_class (name : string) (classType : node_type)
           (attrs : list (string * string)) : pyclass :=
  {| c_name := name;
     c_base := Some classType;
     c_attrs := fold_left (fun d kv => dict_set (fst kv) (AStr (snd kv)) d)
                          attrs [] |}.

(** Calling the new class, [type(...)()], looks up [__new__] and
    [__init__] in it, and [BaseNode.__init__] then runs
    [self._text = ''], which looks up [__setattr__].  An XML attribute
    of one of these names has put a string there; calling the string
    raises [TypeError], and no instance is made. *)
Definition construction_name (k : string) : bool :=
  String.eqb k "__new__" || String.eqb k "__init__"
  || String.eqb k "__setattr__".

Definition hides_construction (attrs : list (string * string)) : bool :=
  existsb (fun kv => construction_name (fst kv)) attrs.

(** [classType = BaseNode]
    [if name in self.typeDict: classType = self.typeDict[name]]
    [self.stack.append(type(str(name), (classType,), dict(attrs))())]
    When the call of the class raises, nothing has been appended. *)
Definition startElement (self : t) (name : string)
           (attrs : list (string * string)) : t * result unit :=
  let classType :=
    match dict_get name (typeDict self) with
    | Some c => c
    | None => BaseNode_class
    end in
  if hides_construction attrs then (self, Raise TypeError)
  else
    ({| typeDict := typeDict self;
        stack := BaseNode.__init__ (element_class name classType attrs)
                   :: stack self;
        rootNode := rootNode self |}, Ok tt).

(** [elem = self.stack.pop()]
    [if not self.stack: self.rootNode = elem]
    [else: self.stack[-1]._addChild(name, elem)]
    The root node is stored as it is, not finalized. *)
Definition endElement (self : t) (name : string) : t * result unit :=
  match stack self with
  | [] => (self, Raise IndexError)          (* self.stack.pop() *)
  | elem :: [] =>
      ({| typeDict := typeDict self; stack := []; rootNode := obj elem |},
       Ok tt)
  | elem :: top :: rest =>
      let popped := {| typeDict := typeDict self; stack := top :: rest;
                       rootNode := rootNode self |} in
      match has_method top "_addChild" with
      | Raise e => (popped, Raise e)
      | Ok _ =>
          let (top', r) := BaseNodeChildren._addChild top name elem in
          ({| typeDict := typeDict self; stack := top' :: rest;
              rootNode := rootNode self |}, r)
      end
  end.

(** [elem = self.stack[-1]; elem._characters(ch)] *)
Definition characters (self : t) (ch : string) : t * result unit :=
  match stack self with
  | [] => (self, Raise IndexError)          (* self.stack[-1] *)
  | elem :: rest =>
      match has_method elem "_characters" with
      | Raise e => (self, Raise e)
      | Ok _ =>
          let (elem', r) := BaseNode._characters elem ch in
          ({| typeDict := typeDict self; stack := elem' :: rest;
              rootNode := rootNode self |}, r)
      end
  end.

End BindingHandler.

(** ** XML text and the SAX parser *)

(** A document, as the sequence of lexical items it is made of:
    [<?xml ...?>], [<name a="v" ...>], character data (unescaped) and
    [</name>].  The empty element [<a/>] is [TOpen "a" []; TClose "a"];
    the empty string is [[]]. *)
Inductive token : Type :=
| TDecl
| TOpen (name : string) (attrs : list (string * string))
| TText (data : string)
| TClose (name : string).

Definition xml : Type := list token.

Module Sax.

(** White space in the sense of XML. *)
Definition xml_space (c : ascii) : bool :=
  let n := nat_of_ascii c in
  (n =? 32)%nat || (n =? 9)%nat || (n =? 10)%nat || (n =? 13)%nat.

Fixpoint blank (s : string) : bool :=
  match s with
  | EmptyString => true
  | String c r => xml_space c && blank r
  end.

Fixpoint has_dup (l : list string) : bool :=
  match l with
  | [] => false
  | x :: r => existsb (String.eqb x) r || has_dup r
  end.

(** What the parser knows while it reads: the tags that are open
    (innermost first), whether the document element has been seen, and
    whether it is still at the first item. *)
Record state : Type := State {
  open_tags : list string;
  root_seen : bool;
  at_start : bool
}.

Definition initial : state :=
  {| open_tags := []; root_seen := false; at_start := true |}.

(** [parser.parse(...)] with [h] as content handler.  The parser
    checks well-formedness itself and calls the handler as it reads,
    so the handler keeps what the calls did to it when the parser, or
    a call, raises. *)
Fixpoint feed (doc : xml) (p : state) (h : BindingHandler.t)
  : BindingHandler.t * result unit :=
  match doc with
  | [] =>
      match open_tags p, root_seen p with
      | [], true => (h, Ok tt)
      | _, _ => (h, Raise SAXParseException)     (* no element found *)
      end
  | TDecl :: r =>
      if at_start p
      then feed r {| open_tags := open_tags p; root_seen := root_seen p;
                     at_start := false |} h
      else (h, Raise SAXParseException)
  | TOpen name attrs :: r =>
      match open_tags p, root_seen p with
      | [], true => (h, Raise SAXParseException)  (* junk after document element *)
      | _, _ =>
          if has_dup (map fst attrs) then (h, Raise SAXParseException)
          else
            match BindingHandler.startElement h name attrs with
            | (h', Ok _) =>
                feed r {| open_tags := name :: open_tags p; root_seen := true;
                          at_start := false |} h'
            | (h', Raise e) => (h', Raise e)
            end
      end
  | TText data :: r =>
      let p' := {| open_tags := open_tags p; root_seen := root_seen p;
                   at_start := false |} in
      match open_tags p with
      | [] => if blank data then feed r p' h
              else (h, Raise SAXParseException)
      | _ :: _ =>
          match data with
          | EmptyString => feed r p' h
          | _ =>
              match BindingHandler.characters h data with
              | (h', Ok _) => feed r p' h'
              | (h', Raise e) => (h', Raise e)
              end
          end
      end
  | TClose name :: r =>
      match open_tags p with
      | t :: ts =>
          if String.eqb t name then
            match BindingHandler.endElement h name with
            | (h', Ok _) =>
                feed r {| open_tags := ts; root_seen := root_seen p;
                          at_start := false |} h'
            | (h', Raise e) => (h', Raise e)
            end
          else (h, Raise SAXParseException)       (* mismatched tag *)
      | [] => (h, Raise SAXParseException)
      end
  end.

Definition parse (h : BindingHandler.t) (doc : xml)
  : BindingHandler.t * result unit :=
  feed doc initial h.

End Sax.

(** ** The binder: parsing *)

Module DataBinder.

Record t : Type := Make { contentHandler : BindingHandler.t }.

(** [self.contentHandler = BindingHandler(typeDict)] *)
Definition __init__ (typeDict : option (list (string * node_type))) : t :=
  {| contentHandler := BindingHandler.__init__ typeDict |}.

(** [return self.contentHandler.registerType(key, val)] *)
Definition registerType (self : t) (key : string) (val : node_type) : t :=
  {| contentHandler :=
       BindingHandler.registerType (contentHandler self) key val |}.

(** [self.contentHandler.rootNode = v] *)
Definition set_rootNode (h : BindingHandler.t) (v : value) : BindingHandler.t :=
  {| BindingHandler.typeDict := BindingHandler.typeDict h;
     BindingHandler.stack := BindingHandler.stack h;
     BindingHandler.rootNode := v |}.

(** [parseString(self, data)]:
    [self.contentHandler.rootNode = None]
    [parser = sax.make_parser(); parser.setContentHandler(...)]
    [parser.parse(StringIO.StringIO(data))]
    [rootNode = self.contentHandler.rootNode]
    [self.contentHandler.rootNode = None; return rootNode]
    Every call makes a new parser; the handler is the binder's one. *)
Definition parseString (self : t) (data : xml) : t * result value :=
  let h0 := set_rootNode (contentHandler self) VNone in
  match Sax.parse h0 data with
  | (h1, Raise e) => ({| contentHandler := h1 |}, Raise e)
  | (h1, Ok _) =>
      let rootNode := BindingHandler.rootNode h1 in
      ({| contentHandler := set_rootNode h1 VNone |}, Ok rootNode)
  end.

End DataBinder.

(** ** Element trees and their serialization ([lxml.etree]) *)

#[warnings="-register-all"]
Inductive element : Type :=
| Element (tag : string) (attrib : list (string * string))
          (text : option string) (children : list element).

(** What [_to_etree_r] returns: an element, or a Python list of what it
    returned for the members of a sequence. *)
#[warnings="-register-all"]
Inductive etree : Type :=
| Single (e : element)
| Many (l : list etree).

Module Etree.

Definition tag (e : element) : string :=
  match e with Element t _ _ _ => t end.

Definition children (e : element) : list element :=
  match e with Element _ _ _ c => c end.

Definition text (e : element) : option string :=
  match e with Element _ _ x _ => x end.

Definition name_start (c : ascii) : bool :=
  let n := nat_of_ascii c in
  ((65 <=? n)%nat && (n <=? 90)%nat) || ((97 <=? n)%nat && (n <=? 122)%nat)
  || (n =? 95)%nat.

Definition name_char (c : ascii) : bool :=
  let n := nat_of_ascii c in
  name_start c || ((48 <=? n)%nat && (n <=? 57)%nat)
  || (n =? 45)%nat || (n =? 46)%nat.

Fixpoint all_chars (p : ascii -> bool) (s : string) : bool :=
  match s with
  | EmptyString => true
  | String c r => p c && all_chars p r
  end.

(** The names [lxml] accepts for a tag or an attribute: a letter or an
    underscore, then letters, digits, [-], [.] and [_]. *)
Definition valid_name (s : string) : bool :=
  match s with
  | EmptyString => false
  | String c r => name_start c && all_chars name_char r
  end.

(** The characters [lxml] accepts in text: TAB, LF, CR and the
    printable ASCII range. *)
Definition text_char (c : ascii) : bool :=
  let n := nat_of_ascii c in
  (n =? 9)%nat || (n =? 10)%nat || (n =? 13)%nat
  || ((32 <=? n)%nat && (n <=? 127)%nat).

Definition valid_text (s : string) : bool := all_chars text_char s.

(** [etree.Element(name)] *)
Definition Element_ (name : string) : result element :=
  if valid_name name then Ok (Element name [] None [])
  else Raise ValueError.

(** [elem.text = s] *)
Definition set_text (elem : element) (s : string) : result element :=
  if valid_text s then
    match elem with Element t a _ c => Ok (Element t a (Some s) c) end
  else Raise ValueError.

(** [elem.append(child)] *)
Definition append (elem : element) (child : element) : element :=
  match elem with Element t a x c => Element t a x (c ++ [child]) end.

(** [elem.extend(l)]: every member of [l] has to be an element. *)
Fixpoint extend (elem : element) (l : list etree) : result element :=
  match l with
  | [] => Ok elem
  | Single e :: r => extend (append elem e) r
  | Many _ :: _ => Raise TypeError
  end.

(** [elem.attrib.update(attrs)] *)
Fixpoint attrib_update (elem : element) (attrs : list (string * string))
  : result element :=
  match attrs with
  | [] => Ok elem
  | (k, v) :: r =>
      if valid_name k && valid_text v then
        match elem with
        | Element t a x c => attrib_update (Element t (dict_set k v a) x c) r
        end
      else Raise ValueError
  end.

Definition text_tokens (x : option string) : xml :=
  match x with
  | None | Some EmptyString => []
  | Some s => [TText s]
  end.

(** The items of [<tag ...>text children</tag>] without formatting. *)
Fixpoint compact (e : element) : xml :=
  match e with
  | Element t a x c =>
      TOpen t a :: text_tokens x
        ++ (fix each (l : list element) : xml :=
              match l with
              | [] => []
              | e' :: r => compact e' ++ each r
              end) c
        ++ [TClose t]
  end.

Definition newline : string := String (ascii_of_nat 10) EmptyString.

Fixpoint indent (depth : nat) : string :=
  match depth with
  | O => EmptyString
  | S d => "  " ++ indent d
  end.

(** The items with [pretty_print = True]: an element that has
    children and no text of its own gets each child on a line of its
    own, two spaces deeper, and its end tag on a new line. *)
Fixpoint pretty (depth : nat) (e : element) : xml :=
  match e with
  | Element t a None ((_ :: _) as c) =>
      TOpen t a
        :: (fix each (l : list element) : xml :=
              match l with
              | [] => []
              | e' :: r =>
                  TText (newline ++ indent (S depth))
                    :: pretty (S depth) e' ++ each r
              end) c
        ++ [TText (newline ++ indent depth); TClose t]
  | _ => compact e
  end.

(** [etree.tostring(tree, pretty_print, xml_declaration)]: only an
    element can be serialized, a Python list cannot. *)
Definition tostring (tree : etree) (pretty_print xml_declaration : bool)
  : result xml :=
  match tree with
  | Single e =>
      Ok ((if xml_declaration then [TDecl] else [])
            ++ (if pretty_print then pretty 0 e else compact e))
  | Many _ => Raise TypeError
  end.

End Etree.

(** ** Sorting *)

Section Sorting.

Context {A : Type} (le : A -> A -> bool).

Fixpoint insert (x : A) (l : list A) : list A :=
  match l with
  | [] => [x]
  | y :: r => if le x y then x :: l else y :: insert x r
  end.

(** [sorted(l)]: a stable sort. *)
Definition sorted (l : list A) : list A := fold_right insert [] l.

End Sorting.

(** ** The binder: serialization *)

Module Serializer.

(** [obj.__class__.__name__] *)
Definition class_name (obj : value) : string :=
  match obj with
  | VNone => "NoneType"
  | VBool _ => "bool"
  | VInt _ => "int"
  | VFloat _ => "float"
  | VStr _ => "str"
  | VList _ => "list"
  | VTuple _ => "tuple"
  | VSet _ => "set"
  | VDict _ => "dict"
  | VObj c _ => c_name c
  end.

(** [x.index(name)] for a [name] that [x] holds. *)
Fixpoint list_index (name : string) (xs : list value) : nat :=
  match xs with
  | [] => 0%nat
  | v :: r => if eq_str name v then 0%nat else S (list_index name r)
  end.

Definition py_index (name : string) (order : value) : result nat :=
  match order with
  | VList xs | VTuple xs => Ok (list_index name xs)
  | VStr s => Ok (Py.find name s)
  | v => Raise (no_method v "index")
  end.

(** The sort key of [_getChildOrder]:
    [(x not in order, x in order and order.index(x), x)].
    [False] in the second place compares as [0]. *)
Definition sort_key (order : value) (x : string)
  : result (bool * nat * string) :=
  present <- py_in x order ;;
  if present then
    i <- py_index x order ;;
    Ok (false, i, x)
  else Ok (true, 0%nat, x).

(** Order of Python tuples: by the first place where they differ. *)
Definition key_le (k1 k2 : bool * nat * string) : bool :=
  match k1, k2 with
  | (b1, i1, s1), (b2, i2, s2) =>
      if Bool.eqb b1 b2 then
        if (i1 =? i2)%nat then String.leb s1 s2 else (i1 <? i2)%nat
      else negb b1
  end.

Fixpoint keyed (order : value) (items : list string)
  : result (list (bool * nat * string)) :=
  match items with
  | [] => Ok []
  | x :: r =>
      k <- sort_key order x ;;
      ks <- keyed order r ;;
      Ok (k :: ks)
  end.

(** [_getChildOrder(self, items, order)] *)
Definition _getChildOrder (items : list string) (order : value)
  : result (list string) :=
  ks <- keyed order items ;;
  Ok (map snd (sorted key_le ks)).

(** [_etree_add(elem, obj)] *)
Definition _etree_add (elem : element) (obj : etree) : result element :=
  match obj with
  | Many l => Etree.extend elem l
  | Single e => Ok (Etree.append elem e)
  end.

(** [_toString(obj)] *)
Definition _toString (a : atom) : string :=
  match a with
  | AStr s => s
  | ANone => "None"
  | ABool b => if b then "True" else "False"
  | AInt z => Py.str_int z
  | AFloat r => r
  end.

(** [for ...: self._etree_add(elem, <tree>)] over the trees made for
    the children, in visiting order. *)
Fixpoint add_all (elem : element) (trees : list (result etree))
  : result element :=
  match trees with
  | [] => Ok elem
  | t :: r =>
      t' <- t ;;
      e <- _etree_add elem t' ;;
      add_all e r
  end.

Definition entry_le {B : Type} (p q : string * B) : bool :=
  String.leb (fst p) (fst q).

Definition lookup_tree (children : list (string * result etree))
           (key : string) : result etree :=
  match dict_get key children with
  | Some t => t
  | None => Raise KeyError
  end.

(** [name = suggestedName or obj.__class__.__name__] *)
Definition element_name (obj : value) (suggestedName : option string)
  : string :=
  match suggestedName with
  | Some n => if String.eqb n "" then class_name obj else n
  | None => class_name obj
  end.

(** The list comprehension [[f(x) for x in l]]: the outcomes in turn,
    up to the first exception. *)
Fixpoint all_ok {A : Type} (l : list (result A)) : result (list A) :=
  match l with
  | [] => Ok []
  | r :: rest =>
      a <- r ;;
      others <- all_ok rest ;;
      Ok (a :: others)
  end.

(** [_to_etree_r(self, obj, suggestedName = None)].

    In the two branches that walk a dict the recursive calls are made
    on the entries as they are stored and their outcomes are then
    taken in the order the source visits them (sorted keys for a
    dict, [_getChildOrder] for an instance); the calls have no effect
    on each other, and the first outcome that is an exception in
    visiting order is the one raised. *)
Fixpoint _to_etree_r (obj : value) (suggestedName : option string)
  {struct obj} : result etree :=
  elem <- Etree.Element_ (element_name obj suggestedName) ;;
  match obj with
  | VBool b =>
      e <- Etree.set_text elem (if b then "true" else "false") ;;
      Ok (Single e)
  | VInt z =>
      e <- Etree.set_text elem (Py.str_int z) ;; Ok (Single e)
  | VFloat r =>
      e <- Etree.set_text elem r ;; Ok (Single e)
  | VStr s =>
      e <- Etree.set_text elem s ;; Ok (Single e)
  | VList xs | VTuple xs | VSet xs =>
      l <- (fix each (l : list value) : result (list etree) :=
              match l with
              | [] => Ok []
              | child :: r =>
                  t <- _to_etree_r child suggestedName ;;
                  ts <- each r ;;
                  Ok (t :: ts)
              end) xs ;;
      Ok (Many l)
  | VDict d =>
      let made :=
        (fix each (l : list (string * value))
           : list (string * result etree) :=
           match l with
           | [] => []
           | (childName, child) :: r =>
               (childName, _to_etree_r child (Some childName)) :: each r
           end) d in
      e <- add_all elem (map snd (sorted entry_le made)) ;;
      Ok (Single e)
  | VObj c d =>
      let attrs :=
        map (fun kv => (fst kv, _toString (snd kv))) (public (c_attrs c)) in
      let children :=
        (fix each (l : list (string * value))
           : list (string * result etree) :=
           match l with
           | [] => []
           | (key, val) :: r =>
               if Py.startswith_ key then each r
               else (key, _to_etree_r val (Some key)) :: each r
           end) d in
      elem <- Etree.attrib_update elem attrs ;;
      let ordering :=
        match getattr_of c d "_childOrder" with
        | Some v => if truthy v then v else VList []
        | None => VList []
        end in
      childOrder <- _getChildOrder (keys children) ordering ;;
      elem <- add_all elem (map (lookup_tree children) childOrder) ;;
      match getattr_of c d "_text" with
      | None => Ok (Single elem)
      | Some (VStr s) =>
          match Py.strip s with
          | EmptyString => Ok (Single elem)
          | _ => e <- Etree.set_text elem s ;; Ok (Single e)
          end
      | Some v => Raise (no_method v "strip")
      end
  | VNone => Raise AttributeError       (* None has no __dict__ *)
  end.

(** [toXml(self, obj, suggestedName = None)] *)
Definition toXml (obj : value) (suggestedName : option string) : result xml :=
  tree <- _to_etree_r obj suggestedName ;;
  Etree.tostring tree true true.

Fixpoint join (l : list etree) : result xml :=
  match l with
  | [] => Ok []
  | x :: r =>
      s <- Etree.tostring x false false ;;
      rest <- join r ;;
      Ok (s ++ rest)
  end.

(** [_toXml(self, obj, suggestedName = None)] *)
Definition _toXml (obj : value) (suggestedName : option string) : result xml :=
  tree <- _to_etree_r obj suggestedName ;;
  match tree with
  | Many l => join l
  | Single _ => Etree.tostring tree false false
  end.

End Serializer.

(** * Notions used to state the properties *)

(** [IntegerNode] and [DictNode] as they are registered. *)
Definition IntegerNode_class : node_type :=
  {| nt_kind := KInteger; nt_single := []; nt_order := [] |}.

(** A node of class [c] after the character data [text] has reached it. *)
Definition text_node (c : pyclass) (text : string) : node :=
  fst (BaseNode._characters (BaseNode.__init__ c) text).

Definition DictNode_class : node_type :=
  {| nt_kind := KDict; nt_single := []; nt_order := [] |}.

(** The members of a list, a tuple or a set. *)
Definition members (obj : value) : option (list value) :=
  match obj with
  | VList xs | VTuple xs | VSet xs => Some xs
  | _ => None
  end.

(** Depth of nesting after [doc], read from depth [depth]; [None] when
    an end tag arrives at depth 0. *)
Fixpoint depth_after (doc : xml) (depth : nat) : option nat :=
  match doc with
  | [] => Some depth
  | TOpen _ _ :: r => depth_after r (S depth)
  | TClose _ :: r =>
      match depth with
      | O => None
      | S d => depth_after r d
      end
  | _ :: r => depth_after r depth
  end.

(** The [__dict__] once [_addChild] has noted [name] in [_childOrder]. *)
Definition noted (d : fields) (name : string) : fields :=
  dict_set "_childOrder"
    (VList (match dict_get "_childOrder" d with
            | Some (VList l) => l
            | _ => []
            end ++ [VStr name])) d.

(** [self] is an instance of a node class [nt], looks up
    [_singleChildren] to the list that [nt] declares, and its own
    [_childOrder], if it has one, is a list. *)
Definition sees_declaration (self : node) (nt : node_type) : Prop :=
  c_base (n_class self) = Some nt /\
  getattr self "_singleChildren" = Some (VList (map VStr (nt_single nt))) /\
  (dict_get "_childOrder" (n_dict self) = None \/
   exists l, dict_get "_childOrder" (n_dict self) = Some (VList l)).

(** The instance's own [_childOrder] list, empty while it has none. *)
Definition order_of (d : fields) : list value :=
  match dict_get "_childOrder" d with
  | Some (VList l) => l
  | _ => []
  end.

(** [self'] is [self] after a child was stored under [name]: [name] is
    bound to [now], [_childOrder] has [name] at its end, and no other
    entry changed. *)
Definition child_stored (self self' : node) (name : string) (now : value) : Prop :=
  n_class self' = n_class self /\
  dict_get name (n_dict self') = Some now /\
  (forall k, k <> name -> k <> "_childOrder" ->
             dict_get k (n_dict self') = dict_get k (n_dict self)) /\
  dict_get "_childOrder" (n_dict self')
  = Some (VList (order_of (n_dict self) ++ [VStr name])).

(** A node class that declares [foo] as its single child. *)
Definition x_type : node_type :=
  {| nt_kind := KBase; nt_single := ["foo"]; nt_order := [] |}.

(** [<x><foo>1</foo><foo>2</foo></x>] *)
Definition foo_twice : xml :=
  [TOpen "x" []; TOpen "foo" []; TText "1"; TClose "foo";
   TOpen "foo" []; TText "2"; TClose "foo"; TClose "x"].

(** The relation a boolean order stands for. *)
Definition holds {A : Type} (le : A -> A -> bool) (x y : A) : Prop :=
  le x y = true.

(** The order of the specification, in its words: a tag is in the
    descriptor or not, it has a position in it, and the three rules
    (a) present before absent, (b) among present tags by position,
    (c) ties by the name. *)
Definition in_descriptor (order : list string) (x : string) : bool :=
  existsb (fun s => String.eqb s x) order.

(** The position of [x] in the descriptor. *)
Fixpoint position (x : string) (order : list string) : nat :=
  match order with
  | [] => 0%nat
  | y :: r => if String.eqb y x then 0%nat else S (position x r)
  end.

(** [x] is not after [y] by the three rules. *)
Definition three_key_before (order : list string) (x y : string) : Prop :=
  (in_descriptor order x = true /\ in_descriptor order y = false) \/
  (in_descriptor order x = true /\ in_descriptor order y = true /\
   (position x order < position y order)%nat) \/
  (in_descriptor order x = in_descriptor order y /\
   (in_descriptor order x = true -> position x order = position y order) /\
   String.leb x y = true).

(** The key the code computes for [x] when the descriptor is the list
    [order]. *)
Definition three_key (order : list string) (x : string) : bool * nat * string :=
  (negb (in_descriptor order x),
   if in_descriptor order x then position x order else 0%nat,
   x).

(** The comparison of two tags by the keys the code computes. *)
Definition by_key (order : list string) (x y : string) : bool :=
  Serializer.key_le (three_key order x) (three_key order y).

(** [hasattr(obj, '_childOrder') and obj._childOrder or []] *)
Definition ordering (c : pyclass) (d : fields) : value :=
  match getattr_of c d "_childOrder" with
  | Some v => if truthy v then v else VList []
  | None => VList []
  end.

(** [self._to_etree_r(children[key], key)] *)
Definition child_tree (d : fields) (key : string) : result etree :=
  match dict_get key (public d) with
  | Some val => Serializer._to_etree_r val (Some key)
  | None => Raise KeyError
  end.

(** [if hasattr(obj, '_text'): if obj._text.strip(): elem.text = obj._text] *)
Definition with_text (c : pyclass) (d : fields) (elem : element) : result etree :=
  match getattr_of c d "_text" with
  | None => Ok (Single elem)
  | Some (VStr s) =>
      match Py.strip s with
      | EmptyString => Ok (Single elem)
      | _ => e <- Etree.set_text elem s ;; Ok (Single e)
      end
  | Some v => Raise (no_method v "strip")
  end.

(** The instance branch of [_to_etree_r] in the form of the source. *)
Definition object_tree (c : pyclass) (d : fields) (name : option string)
  : result etree :=
  elem <- Etree.Element_ (Serializer.element_name (VObj c d) name) ;;
  elem <- Etree.attrib_update elem
            (map (fun kv => (fst kv, Serializer._toString (snd kv)))
                 (public (c_attrs c))) ;;
  childOrder <- Serializer._getChildOrder (keys (public d)) (ordering c d) ;;
  elem <- Serializer.add_all elem (map (child_tree d) childOrder) ;;
  with_text c d elem.

(** The elements a tree contributes when it is added to a parent. *)
Fixpoint singles (l : list etree) : list element :=
  match l with
  | [] => []
  | Single c :: r => c :: singles r
  | Many _ :: r => singles r
  end.

(** The elements added to the parent for the outcome [t] of a child. *)
Definition emitted (t : result etree) : list element :=
  match t with
  | Ok (Single c) => [c]
  | Ok (Many l) => singles l
  | Raise _ => []
  end.

(** An instance with descriptor [['b', 'a']] and fields [a = 1],
    [b = 2], in two storage orders. *)
Definition plain_class : pyclass :=
  {| c_name := "x"; c_base := None; c_attrs := [] |}.

(** Fields [a], [_childOrder], [b] in this order. *)
Definition ab_fields : fields :=
  [("a", VInt 1); ("_childOrder", VList [VStr "b"; VStr "a"]); ("b", VInt 2)].

(** The same fields stored as [b], [a], [_childOrder]. *)
Definition ba_fields : fields :=
  [("b", VInt 2); ("a", VInt 1); ("_childOrder", VList [VStr "b"; VStr "a"])].


(** The text a scalar is written as. *)
Definition scalar_text (x : value) : option string :=
  match x with
  | VBool b => Some (if b then "true" else "false")
  | VInt z => Some (Py.str_int z)
  | VFloat r => Some r
  | VStr s => Some s
  | _ => None
  end.

(** The nodes stored under [k]: the list bound to [k], none when [k]
    is unbound. *)
Definition field_nodes (fs : fields) (k : string) : list value :=
  match dict_get k fs with
  | Some (VList ns) => ns
  | _ => []
  end.


(** A key that can be written as a tag and read back as a child field. *)
Definition key_ok (k : string) : bool :=
  Etree.valid_name k && negb (Py.startswith_ k).

(** [isinstance(x, (list, set, tuple))] *)
Definition is_sequence (x : value) : bool :=
  match members x with Some _ => true | None => false end.

(** The objects the round trip is stated for: scalars with text that
    XML can hold, and mappings with distinct keys that are tag names
    not starting with an underscore, whose values are such objects or
    sequences of such objects. *)
Fixpoint writable (x : value) : bool :=
  match x with
  | VBool _ | VInt _ => true
  | VFloat r => Etree.valid_text r
  | VStr s => Etree.valid_text s
  | VDict d =>
      negb (Sax.has_dup (keys d)) &&
      (fix entries (l : list (string * value)) : bool :=
         match l with
         | [] => true
         | (k, v) :: r =>
             key_ok k &&
             match v with
             | VList ms | VTuple ms | VSet ms =>
                 (fix all (ms : list value) : bool :=
                    match ms with
                    | [] => true
                    | m :: ms' => negb (is_sequence m) && writable m && all ms'
                    end) ms
             | _ => writable v
             end && entries r
         end) d
  | _ => false
  end.


(** The text [cur] has accumulated. *)
Definition text_of (cur : node) : string :=
  match dict_get "_text" (n_dict cur) with
  | Some (VStr s) => s
  | _ => ""
  end.

(** [cur] after character data [ws] reached it. *)
Definition chars (cur : node) (ws : string) : node :=
  BaseNodeChildren.with_dict cur
    (dict_set "_text" (VStr (text_of cur ++ ws)) (n_dict cur)).

(** [cur] after the value [v] was appended under [k]. *)
Definition attach (cur : node) (k : string) (v : value) : node :=
  BaseNodeChildren.with_dict cur
    (dict_set k (VList (field_nodes (n_dict cur) k ++ [v]))
              (noted (n_dict cur) k)).


(** The parser inside the document element, with [ts] the open tags. *)
Definition inside (ts : list string) : Sax.state :=
  {| Sax.open_tags := ts; Sax.root_seen := true; Sax.at_start := false |}.

(** A handler with no registered class. *)
Definition untyped (st : list node) (r : value) : BindingHandler.t :=
  {| BindingHandler.typeDict := []; BindingHandler.stack := st;
     BindingHandler.rootNode := r |}.

(** The parser accepts a start tag: it is inside the document element,
    or has not seen it yet. *)
Definition may_open (p : Sax.state) : Prop :=
  Sax.open_tags p <> [] \/ Sax.root_seen p = false.

(** The node [startElement] pushes for [<name>] when no class is
    registered for [name]. *)
Definition fresh (name : string) : node :=
  BaseNode.__init__
    (BindingHandler.element_class name BindingHandler.BaseNode_class []).




(** A tree that can be added to a parent: an element, or a list of
    elements. *)
Definition flat_tree (tr : etree) (cs : list element) : Prop :=
  (exists c, tr = Single c /\ cs = [c]) \/ tr = Many (map Single cs).







(** [cur] is an instance of a class made for a tag with no registered
    class, no attribute of which starts with an underscore; its
    [__dict__] holds text under [_text], possibly a list under
    [_childOrder], and lists under names that do not start with an
    underscore. *)
Definition tidy (cur : node) : Prop :=
  c_base (n_class cur) = Some BindingHandler.BaseNode_class /\
  (forall k, Py.startswith_ k = true -> dict_get k (c_attrs (n_class cur)) = None) /\
  (exists s, dict_get "_text" (n_dict cur) = Some (VStr s)) /\
  (dict_get "_childOrder" (n_dict cur) = None \/
   exists l, dict_get "_childOrder" (n_dict cur) = Some (VList l)) /\
  (forall k v, dict_get k (n_dict cur) = Some v ->
               k = "_text" \/ k = "_childOrder" \/
               (Py.startswith_ k = false /\ exists l, v = VList l)).

(** No start tag of [doc] is [<key ...>]. *)
Fixpoint tag_free (key : string) (doc : xml) : bool :=
  match doc with
  | [] => true
  | TOpen name _ :: r => negb (String.eqb name key) && tag_free key r
  | _ :: r => tag_free key r
  end.

(** The class [startElement] looks up for a tag: the registered one,
    [BaseNode] when there is none. *)
Definition class_for (d : list (string * node_type)) (name : string)
  : node_type :=
  match dict_get name d with
  | Some c => c
  | None => BindingHandler.BaseNode_class
  end.

(** The first start tag of a document: its document element. *)
Fixpoint document_element (doc : xml)
  : option (string * list (string * string)) :=
  match doc with
  | [] => None
  | TOpen name attrs :: _ => Some (name, attrs)
  | _ :: r => document_element r
  end.

(** The class of the node at the bottom of the handler's stack. *)
Fixpoint bottom (st : list node) : option pyclass :=
  match st with
  | [] => None
  | n :: r => match r with [] => Some (n_class n) | _ :: _ => bottom r end
  end.

(** [None] is somewhere in what the serializer visits of [x]: [x]
    itself, a member of a sequence, a value of a dict, or a field of an
    instance whose name does not start with an underscore. *)
Inductive holds_none : value -> Prop :=
| none_here : holds_none VNone
| none_member (obj : value) (xs : list value) (x : value) :
    members obj = Some xs -> In x xs -> holds_none x -> holds_none obj
| none_value (d : list (string * value)) (k : string) (v : value) :
    In (k, v) d -> holds_none v -> holds_none (VDict d)
| none_field (c : pyclass) (d : fields) (k : string) (v : value) :
    dict_get k (public d) = Some v -> holds_none v -> holds_none (VObj c d).

(** [s] is made of characters [str.strip()] removes. *)
Fixpoint white (s : string) : bool :=
  match s with
  | EmptyString => true
  | String c r => Py.isspace c && white r
  end.

Definition BooleanNode_class : node_type :=
  {| nt_kind := KBoolean; nt_single := []; nt_order := [] |}.

Definition StringNode_class : node_type :=
  {| nt_kind := KString; nt_single := []; nt_order := [] |}.

(** The node class that reads the text of a scalar back as a value of
    its type. *)
Definition reader (x : value) : option node_type :=
  match x with
  | VBool _ => Some BooleanNode_class
  | VInt _ => Some IntegerNode_class
  | VStr _ => Some StringNode_class
  | _ => None
  end.

(** [x] put at the end of the group kept under [k]; a new group goes
    after the groups there are. *)
Definition group_add {A : Type} (k : string) (x : A)
           (g : list (string * list A)) : list (string * list A) :=
  dict_set k (match dict_get k g with
              | Some l => l ++ [x]
              | None => [x]
              end) g.

(** Elements grouped by tag: the groups in the order in which their
    tags first occur, the members of a group in the order in which they
    occur. *)
Definition groups (cs : list element) : list (string * list element) :=
  fold_left (fun g c => group_add (Etree.tag c) c g) cs [].

(** The text the serializer writes for text [x] of a node: none when
    [x] is white space. *)
Definition kept_text (x : option string) : option string :=
  match x with
  | Some s => match Py.strip s with
              | EmptyString => None
              | _ => Some s
              end
  | None => None
  end.

(** An element as it comes back from a parse followed by a
    serialization: at every level the children are grouped by tag, and
    text that is white space is gone. *)
Fixpoint regroup (e : element) : element :=
  match e with
  | Element t a x cs =>
      Element t a (kept_text x) (flat_map snd (groups (map regroup cs)))
  end.

(** The node the handler has on its stack when it has read the items
    of [e], with no class registered: made for the start tag, given the
    text, and given the nodes of the children one after the other. *)
Fixpoint node_of (e : element) : node :=
  match e with
  | Element t a x cs =>
      fold_left (fun cur c => attach cur (Etree.tag c) (obj (node_of c))) cs
        (chars (BaseNode.__init__
                  (BindingHandler.element_class t
                     BindingHandler.BaseNode_class a))
               (match x with Some s => s | None => "" end))
  end.

(** Elements the parser accepts and the handler stores with no clash:
    tags and attribute names are names that do not start with an
    underscore, no attribute occurs twice, and text and attribute
    values are text XML can hold. *)
Fixpoint well_formed (e : element) : bool :=
  match e with
  | Element t a x cs =>
      key_ok t
      && negb (Sax.has_dup (map fst a))
      && forallb (fun kv => key_ok (fst kv) && Etree.valid_text (snd kv)) a
      && match x with Some s => Etree.valid_text s | None => true end
      && forallb well_formed cs
  end.

(** The same element up to the order of the attributes, at every
    level. *)
#[warnings="-register-all"]
Inductive alike : element -> element -> Prop :=
| alike_element (t : string) (a a' : list (string * string))
                (x : option string) (cs cs' : list element) :
    Permutation a a' -> Forall2 alike cs cs' ->
    alike (Element t a x cs) (Element t a' x cs').

(** The fields the handler keeps for groups of child elements: under
    each tag the list of the nodes of the group. *)
Definition stored (g : list (string * list element)) : fields :=
  map (fun kv => (fst kv, VList (map (fun c => obj (node_of c)) (snd kv)))) g.

(** The children that have been attached to [cur] are those of [g],
    with the tags [tags] in the order they came. *)
Definition holds_groups (cur : node) (g : list (string * list element))
           (tags : list string) : Prop :=
  public (n_dict cur) = stored g /\
  order_of (n_dict cur) = map VStr tags /\
  (tags <> [] ->
   dict_get "_childOrder" (n_dict cur) = Some (VList (map VStr tags))).

(** The tags of the groups are those that occurred, in the order of
    their first occurrence. *)
Definition keys_in_order (ks : list string) (done : list string) : Prop :=
  (forall k, In k ks <-> in_descriptor done k = true) /\
  StronglySorted (fun a b => (position a done < position b done)%nat) ks.

(** What parsing the document of [e] alone returns. *)
Definition parsed_alone (e : element) (v : value) : Prop :=
  snd (DataBinder.parseString (DataBinder.__init__ None) (Etree.compact e))
  = Ok v.

Definition NullNode_class : node_type :=
  {| nt_kind := KNull; nt_single := []; nt_order := [] |}.

(** The node classes whose [_finalize] reads nothing but the text. *)
Definition reads_text_only (nt : node_type) : bool :=
  match nt_kind nt with
  | KInteger | KString | KNull | KBoolean => true
  | KBase | KDict => false
  end.

(** * Properties *)

(** ** Integer nodes *)

Lemma text_node_text (c : pyclass) (text : string) :
  getattr (text_node c text) "_text" = Some (VStr text).
Proof. reflexivity. Qed.

Lemma int_of_empty : Py.int "" = None.
Proof. reflexivity. Qed.

(** C3, as the code has it: for a node whose accumulated text is
    [text], integer finalization returns 0 when [text] is empty,
    returns the integer [int(text)] when [text] is an integer literal,
    and raises - always [ValueError] - exactly when [text] is not empty
    and not an integer literal.  Text made of white space only is not
    a literal, so it raises too. *)
Theorem C3_integer_finalize (self : node) (text : string) :
  getattr self "_text" = Some (VStr text) ->
  (text = "" -> IntegerNode._finalize self = Ok (VInt 0)) /\
  (forall z, Py.int text = Some z -> IntegerNode._finalize self = Ok (VInt z)) /\
  (IntegerNode._finalize self = Raise ValueError
   <-> text <> "" /\ Py.int text = None) /\
  (forall e, IntegerNode._finalize self = Raise e -> e = ValueError).
Proof.
  intros Htext. unfold IntegerNode._finalize. rewrite Htext.
  cbn [truthy IntegerNode.int_of].
  destruct (String.eqb_spec text "") as [-> | Hne]; cbn [negb].
  - split; [reflexivity |]. split; [intros z Hz; discriminate Hz |].
    split; [| intros e He; discriminate He].
    split; [intros H; discriminate H | intros [H _]; now elim H].
  - destruct (Py.int text) as [z |] eqn:Hz; cbn [bind].
    + assert (Hz0 : (if Z.eqb z 0 then 0%Z else z) = z).
      { destruct (Z.eqb_spec z 0); congruence. }
      rewrite Hz0.
      split; [intros H; contradiction |].
      split; [intros z' Hz'; congruence |].
      split; [| intros e He; discriminate He].
      split; [intros H; discriminate H | intros [_ H]; discriminate H].
    + split; [intros H; contradiction |].
      split; [intros z' Hz'; discriminate Hz' |].
      split; [| intros e He; congruence].
      split; [intros _; split; [exact Hne | reflexivity] | reflexivity].
Qed.

Lemma C3_integer_finalize_witness :
  IntegerNode._finalize
    (text_node (BindingHandler.element_class "n" IntegerNode_class []) "42")
  = Ok (VInt 42).
Proof.
  exact (proj1 (proj2 (C3_integer_finalize
           (text_node (BindingHandler.element_class "n" IntegerNode_class []) "42")
           "42" eq_refl)) 42%Z eq_refl).
Defined.

(** C3 as stated fails on text that is all white space: [" "] strips
    to the empty string, yet finalization raises instead of returning
    0. *)
Lemma C3_blank_text_raises :
  let self := text_node (BindingHandler.element_class "n" IntegerNode_class []) " " in
  Py.strip " " = "" /\
  IntegerNode._finalize self = Raise ValueError /\
  IntegerNode._finalize self <> Ok (VInt 0).
Proof. cbv zeta. repeat split. discriminate. Qed.

(** ** Dict nodes *)

Lemma dict_get_public {A : Type} (k : string) (d : list (string * A)) :
  dict_get k (public d)
  = if Py.startswith_ k then None else dict_get k d.
Proof.
  induction d as [| [k' v] d IH]; cbn [public filter dict_get fst].
  - now destruct (Py.startswith_ k).
  - fold (public d).
    destruct (Py.startswith_ k') eqn:Hk'; cbn [negb dict_get].
    + rewrite IH. destruct (String.eqb_spec k k') as [-> | Hne]; [| reflexivity].
      now rewrite Hk'.
    + rewrite IH. destruct (String.eqb_spec k k') as [-> | Hne]; [| reflexivity].
      now rewrite Hk'.
Qed.

(** C9 fails on the code.  [DictNode._finalize] leaves out every entry
    of the [__dict__] whose name starts with an underscore; that drops
    the node's own [_text] and [_childOrder], and with them every child
    whose tag starts with an underscore, where the docstring of
    [DictNode] says that all tags are preserved.  After [<d><_x/>] the
    dict node holds the child field [_x], and its finalization returns
    the empty mapping; the parse of [<r><d><_x>1</_x></d></r>] binds
    [r.d] to [[{}]], where the same document with the tag [x] binds it
    to a mapping that holds the child under [x]. *)
Theorem C9_underscore_child_dropped :
  let types := [("d", DictNode_class)] in
  let h0 := BindingHandler.__init__ (Some types) in
  let h1 := fst (BindingHandler.startElement h0 "d" []) in
  let h2 := fst (BindingHandler.startElement h1 "_x" []) in
  let h3 := fst (BindingHandler.endElement h2 "_x") in
  (exists d x, BindingHandler.stack h3 = [d] /\
               dict_get "_x" (n_dict d) = Some (VList [x]) /\
               finalize d = Ok (VDict [])) /\
  (exists c fs,
      snd (DataBinder.parseString (DataBinder.__init__ (Some types))
             [TOpen "r" []; TOpen "d" []; TOpen "_x" []; TText "1";
              TClose "_x"; TClose "d"; TClose "r"])
      = Ok (VObj c fs) /\ dict_get "d" fs = Some (VList [VDict []])) /\
  (exists c fs x,
      snd (DataBinder.parseString (DataBinder.__init__ (Some types))
             [TOpen "r" []; TOpen "d" []; TOpen "x" []; TText "1";
              TClose "x"; TClose "d"; TClose "r"])
      = Ok (VObj c fs) /\
      dict_get "d" fs = Some (VList [VDict [("x", VList [x])]])).
Proof.
  cbv zeta. split; [| split].
  - do 2 eexists. repeat split; reflexivity.
  - do 2 eexists. split; reflexivity.
  - do 3 eexists. split; reflexivity.
Qed.

(** ** Sequences *)

Lemma to_etree_sequence (obj : value) (xs : list value) (name : option string) :
  members obj = Some xs ->
  Serializer._to_etree_r obj name
  = (_ <- Etree.Element_ (Serializer.element_name obj name) ;;
     l <- Serializer.all_ok (map (fun c => Serializer._to_etree_r c name) xs) ;;
     Ok (Many l)).
Proof.
  intros Hm.
  assert (Heach :
    forall l,
      (fix each (l : list value) : result (list etree) :=
         match l with
         | [] => Ok []
         | child :: r =>
             t <- Serializer._to_etree_r child name ;;
             ts <- each r ;;
             Ok (t :: ts)
         end) l
      = Serializer.all_ok (map (fun c => Serializer._to_etree_r c name) l)).
  { induction l as [| c l IH]; [reflexivity |].
    cbn [map Serializer.all_ok]. now rewrite <- IH. }
  destruct obj; try discriminate Hm; inversion Hm; subst xs;
    cbn [Serializer._to_etree_r]; now rewrite Heach.
Qed.

Lemma join_singles (es : list element) :
  Serializer.join (map Single es) = Ok (flat_map Etree.compact es).
Proof.
  induction es as [| e es IH]; [reflexivity |].
  cbn [map Serializer.join Etree.tostring bind flat_map app].
  now rewrite IH.
Qed.

(** *** Tags of the elements that are built *)

Lemma set_text_tag (elem e : element) (s : string) :
  Etree.set_text elem s = Ok e -> Etree.tag e = Etree.tag elem.
Proof.
  unfold Etree.set_text. destruct (Etree.valid_text s); [| discriminate].
  destruct elem; intros H; inversion H; reflexivity.
Qed.

Lemma append_tag (elem child : element) :
  Etree.tag (Etree.append elem child) = Etree.tag elem.
Proof. now destruct elem. Qed.

Lemma extend_tag (l : list etree) :
  forall elem e, Etree.extend elem l = Ok e -> Etree.tag e = Etree.tag elem.
Proof.
  induction l as [| t l IH]; intros elem e; cbn [Etree.extend].
  - intros H; now inversion H.
  - destruct t; [| discriminate]. intros H. apply IH in H.
    now rewrite append_tag in H.
Qed.

Lemma etree_add_tag (elem e : element) (t : etree) :
  Serializer._etree_add elem t = Ok e -> Etree.tag e = Etree.tag elem.
Proof.
  destruct t; cbn [Serializer._etree_add].
  - intros H; inversion H. apply append_tag.
  - apply extend_tag.
Qed.

Lemma add_all_tag (trees : list (result etree)) :
  forall elem e, Serializer.add_all elem trees = Ok e ->
                 Etree.tag e = Etree.tag elem.
Proof.
  induction trees as [| t trees IH]; intros elem e; cbn [Serializer.add_all].
  - intros H; now inversion H.
  - destruct t as [t |]; cbn [bind]; [| discriminate].
    destruct (Serializer._etree_add elem t) as [e1 |] eqn:Hadd; cbn [bind];
      [| discriminate].
    intros H. apply IH in H. rewrite H. now apply etree_add_tag with t.
Qed.

Lemma attrib_update_tag (attrs : list (string * string)) :
  forall elem e, Etree.attrib_update elem attrs = Ok e ->
                 Etree.tag e = Etree.tag elem.
Proof.
  induction attrs as [| [k v] attrs IH]; intros elem e; cbn [Etree.attrib_update].
  - intros H; now inversion H.
  - destruct (Etree.valid_name k && Etree.valid_text v); [| discriminate].
    destruct elem. intros H. now apply IH in H.
Qed.

Lemma Element_tag (name : string) (elem : element) :
  Etree.Element_ name = Ok elem -> elem = Element name [] None [].
Proof.
  unfold Etree.Element_. destruct (Etree.valid_name name); [| discriminate].
  intros H; now inversion H.
Qed.

Lemma element_name_given (obj : value) (name : string) :
  name <> "" -> Serializer.element_name obj (Some name) = name.
Proof.
  intros H. unfold Serializer.element_name.
  now destruct (String.eqb_spec name "").
Qed.

Ltac bind_ok H :=
  match type of H with
  | bind ?r _ = Ok _ =>
      let x := fresh "x" in
      let E := fresh "E" in
      destruct r as [x |] eqn:E; cbn [bind] in H; [| discriminate H]
  end.

(** An object that is not a sequence becomes one element, and the
    element carries the tag it was serialized under. *)
Lemma to_etree_single (obj : value) (name : string) (t : etree) :
  members obj = None -> name <> "" ->
  Serializer._to_etree_r obj (Some name) = Ok t ->
  exists e, t = Single e /\ Etree.tag e = name.
Proof.
  intros Hm Hname H.
  destruct obj; try discriminate Hm; cbn [Serializer._to_etree_r] in H;
    rewrite (element_name_given _ _ Hname) in H; bind_ok H;
    apply Element_tag in E; subst x.
  - discriminate H.
  - bind_ok H. inversion H. eexists; split; [reflexivity |].
    now apply set_text_tag in E.
  - bind_ok H. inversion H. eexists; split; [reflexivity |].
    now apply set_text_tag in E.
  - bind_ok H. inversion H. eexists; split; [reflexivity |].
    now apply set_text_tag in E.
  - bind_ok H. inversion H. eexists; split; [reflexivity |].
    now apply set_text_tag in E.
  - bind_ok H. inversion H. eexists; split; [reflexivity |].
    now apply add_all_tag in E.
  - bind_ok H. apply attrib_update_tag in E. cbn [Etree.tag] in E.
    bind_ok H. bind_ok H. apply add_all_tag in E1. rewrite E in E1.
    destruct (getattr_of c d "_text") as [[] |]; try discriminate H.
    + destruct (Py.strip s).
      * inversion H. eexists; split; [reflexivity | exact E1].
      * bind_ok H. inversion H. eexists; split; [reflexivity |].
        apply set_text_tag in E2. congruence.
    + inversion H. eexists; split; [reflexivity | exact E1].
Qed.

(** Whatever the name, an object that is not a sequence becomes one
    element. *)
Lemma to_etree_element (obj : value) (name : option string) (t : etree) :
  members obj = None ->
  Serializer._to_etree_r obj name = Ok t ->
  exists e, t = Single e.
Proof.
  intros Hm H.
  destruct obj; try discriminate Hm; cbn [Serializer._to_etree_r] in H;
    bind_ok H.
  - discriminate H.
  - bind_ok H. inversion H. now eexists.
  - bind_ok H. inversion H. now eexists.
  - bind_ok H. inversion H. now eexists.
  - bind_ok H. inversion H. now eexists.
  - bind_ok H. inversion H. now eexists.
  - bind_ok H. bind_ok H. bind_ok H.
    destruct (getattr_of c d "_text") as [[] |]; try discriminate H.
    + destruct (Py.strip s).
      * inversion H. now eexists.
      * bind_ok H. inversion H. now eexists.
    + inversion H. now eexists.
Qed.

Lemma all_ok_each_member {A B : Type} (f : A -> result B) (xs : list A) :
  forall l, Serializer.all_ok (map f xs) = Ok l ->
            Forall2 (fun x t => f x = Ok t) xs l.
Proof.
  induction xs as [| x xs IH]; cbn [map Serializer.all_ok]; intros l H.
  - inversion H. constructor.
  - destruct (f x) as [t |] eqn:Hx; cbn [bind] in H; [| discriminate H].
    destruct (Serializer.all_ok (map f xs)) as [l' |]; cbn [bind] in H;
      [| discriminate H].
    inversion H; subst l. constructor; [exact Hx | now apply IH].
Qed.

(** A list that holds a list cannot be joined: [etree.tostring]
    refuses the inner list. *)
Lemma join_nested (l : list etree) (m : list etree) :
  In (Many m) l -> Serializer.join l = Raise TypeError.
Proof.
  induction l as [| t l IH]; intros Hin; [destruct Hin |].
  cbn [Serializer.join]. destruct t as [e | m'].
  - destruct Hin as [Heq | Hin]; [discriminate Heq |].
    cbn [Etree.tostring bind]. now rewrite (IH Hin).
  - reflexivity.
Qed.

Lemma singles_or_nested (l : list etree) :
  (exists es, l = map Single es) \/ (exists m, In (Many m) l).
Proof.
  induction l as [| t l [[es ->] | [m Hm]]].
  - left. now exists [].
  - destruct t as [e | m].
    + left. now exists (e :: es).
    + right. exists m. now left.
  - right. exists m. now right.
Qed.

(** C10: a list, a tuple or a set given to [toXml] as the object makes
    it raise.  When the element tree can be built at all it is a plain
    Python list with one entry per member, the entry being what
    [_to_etree_r] returns for the member, and [etree.tostring] refuses
    the list with [TypeError].  [_toXml] on the same arguments returns
    the serializations of the members' elements one after the other;
    it raises [TypeError] too when a member is itself a sequence, whose
    entry is again a list. *)
Theorem C10_toXml_sequence_raises
        (obj : value) (xs : list value) (name : option string) :
  members obj = Some xs ->
  (exists e, Serializer.toXml obj name = Raise e) /\
  (forall t, Serializer._to_etree_r obj name = Ok t ->
             exists l,
               t = Many l /\
               Forall2 (fun x tx => Serializer._to_etree_r x name = Ok tx) xs l /\
               Serializer.toXml obj name = Raise TypeError /\
               ((exists es,
                    l = map Single es /\
                    Serializer._toXml obj name
                    = Ok (flat_map Etree.compact es)) \/
                ((exists x, In x xs /\ members x <> None) /\
                 Serializer._toXml obj name = Raise TypeError))).
Proof.
  intros Hm.
  assert (Hshape : forall t, Serializer._to_etree_r obj name = Ok t ->
                             exists l, t = Many l /\
                                       Forall2 (fun x tx =>
                                                  Serializer._to_etree_r x name
                                                  = Ok tx) xs l).
  { intros t. rewrite (to_etree_sequence obj xs name Hm).
    destruct (Etree.Element_ _); cbn [bind]; [| discriminate].
    destruct (Serializer.all_ok _) as [l |] eqn:Hall; cbn [bind]; [| discriminate].
    intros Ht; inversion Ht; subst t. exists l. split; [reflexivity |].
    now apply all_ok_each_member. }
  split.
  - unfold Serializer.toXml.
    destruct (Serializer._to_etree_r obj name) as [t | e] eqn:Ht; cbn [bind].
    + destruct (Hshape t eq_refl) as [l [-> _]]. now exists TypeError.
    + now exists e.
  - intros t Ht. destruct (Hshape t Ht) as [l [-> Hall]].
    exists l. split; [reflexivity |]. split; [exact Hall |].
    split; [unfold Serializer.toXml; now rewrite Ht |].
    unfold Serializer._toXml. rewrite Ht. cbn [bind].
    destruct (singles_or_nested l) as [[es ->] | [m Hin]].
    + left. exists es. split; [reflexivity | apply join_singles].
    + right. split; [| now apply (join_nested l m)].
      clear Ht Hm Hshape.
      induction Hall as [| x tx xs' l' Hx _ IH]; [destruct Hin |].
      destruct Hin as [-> | Hin].
      * exists x. split; [now left |]. intros Hnone.
        assert (Hsingle : exists e, Many m = Single e)
          by exact (to_etree_element x name (Many m) Hnone Hx).
        destruct Hsingle as [e He]. discriminate He.
      * destruct (IH Hin) as [x' [Hx' Hm']]. exists x'. split; [now right | exact Hm'].
Qed.

Lemma C10_toXml_sequence_raises_witness :
  exists e, Serializer.toXml (VList [VInt 1; VInt 2]) (Some "n") = Raise e.
Proof.
  exact (proj1 (C10_toXml_sequence_raises
                  (VList [VInt 1; VInt 2]) [VInt 1; VInt 2] (Some "n") eq_refl)).
Defined.

Example toXml_list_example :
  Serializer.toXml (VList [VInt 1; VInt 2]) (Some "n") = Raise TypeError /\
  Serializer._toXml (VList [VInt 1; VInt 2]) (Some "n")
  = Ok [TOpen "n" []; TText "1"; TClose "n";
        TOpen "n" []; TText "2"; TClose "n"].
Proof. split; reflexivity. Qed.


(** C6, as the code has it: a list, tuple or set of n members, none of
    them a sequence itself, serialized under a tag name, gives n
    elements next to each other in a plain list, one per member in the
    order of the members, each with that tag; nothing wraps them, and
    [_toXml] writes them one after the other. *)
Theorem C6_sequence_fan_out (obj : value) (xs : list value) (name : string) :
  members obj = Some xs ->
  Etree.valid_name name = true ->
  Forall (fun c => members c = None) xs ->
  Forall (fun c => is_ok (Serializer._to_etree_r c (Some name)) = true) xs ->
  exists es,
    length es = length xs /\
    Forall (fun e => Etree.tag e = name) es /\
    Forall2 (fun c e => Serializer._to_etree_r c (Some name) = Ok (Single e))
            xs es /\
    Serializer._to_etree_r obj (Some name) = Ok (Many (map Single es)) /\
    Serializer._toXml obj (Some name) = Ok (flat_map Etree.compact es).
Proof.
  intros Hm Hvalid Hflat Hok.
  assert (Hname : name <> "") by (intros ->; discriminate Hvalid).
  assert (Hes : exists es,
             length es = length xs /\
             Forall (fun e => Etree.tag e = name) es /\
             Forall2 (fun c e => Serializer._to_etree_r c (Some name)
                                 = Ok (Single e)) xs es /\
             Serializer.all_ok
               (map (fun c => Serializer._to_etree_r c (Some name)) xs)
             = Ok (map Single es)).
  { clear Hm. induction xs as [| c xs IH].
    - exists []. repeat split; constructor.
    - inversion Hflat as [| ? ? Hc Hflat']; subst.
      inversion Hok as [| ? ? Hcok Hok']; subst.
      destruct (IH Hflat' Hok') as [es [Hlen [Htags [Hall Hseq]]]].
      destruct (Serializer._to_etree_r c (Some name)) as [t |] eqn:Ht;
        [| discriminate Hcok].
      destruct (to_etree_single c name t Hc Hname Ht) as [e [-> Htag]].
      exists (e :: es). cbn [length map Serializer.all_ok].
      rewrite Ht, Hseq. cbn [bind].
      repeat split; [now f_equal | now constructor | now constructor]. }
  destruct Hes as [es [Hlen [Htags [Hall Hseq]]]].
  exists es.
  assert (Htree : Serializer._to_etree_r obj (Some name)
                  = Ok (Many (map Single es))).
  { rewrite (to_etree_sequence obj xs (Some name) Hm).
    rewrite (element_name_given _ _ Hname).
    unfold Etree.Element_. rewrite Hvalid. cbn [bind]. now rewrite Hseq. }
  repeat split; try assumption.
  unfold Serializer._toXml. rewrite Htree. cbn [bind]. apply join_singles.
Qed.

Lemma C6_sequence_fan_out_witness :
  exists es,
    length es = 2%nat /\
    Forall (fun e => Etree.tag e = "n") es /\
    Forall2 (fun c e => Serializer._to_etree_r c (Some "n") = Ok (Single e))
            [VInt 1; VInt 2] es /\
    Serializer._to_etree_r (VList [VInt 1; VInt 2]) (Some "n")
    = Ok (Many (map Single es)) /\
    Serializer._toXml (VList [VInt 1; VInt 2]) (Some "n")
    = Ok (flat_map Etree.compact es).
Proof.
  apply (C6_sequence_fan_out (VList [VInt 1; VInt 2]) [VInt 1; VInt 2] "n").
  - reflexivity.
  - reflexivity.
  - repeat constructor.
  - repeat constructor.
Defined.

(** C6 as stated fails when a member is a sequence itself: the list
    [[[1, 2]]] has one member, and under the name "n" it gives a list
    that holds a list of two elements; [_toXml] then raises. *)
Lemma C6_nested_sequence :
  let obj := VList [VList [VInt 1; VInt 2]] in
  Serializer._to_etree_r obj (Some "n")
  = Ok (Many [Many [Single (Element "n" [] (Some "1") []);
                    Single (Element "n" [] (Some "2") [])]]) /\
  (forall e, Serializer._to_etree_r obj (Some "n") <> Ok (Many [Single e])) /\
  Serializer._toXml obj (Some "n") = Raise TypeError.
Proof. cbv zeta. repeat split. discriminate. Qed.

(** ** The handler and the parser *)

Lemma startElement_stack (h h' : BindingHandler.t) name attrs :
  BindingHandler.startElement h name attrs = (h', Ok tt) ->
  BindingHandler.hides_construction attrs = false /\
  exists top,
    h' = {| BindingHandler.typeDict := BindingHandler.typeDict h;
            BindingHandler.stack := top :: BindingHandler.stack h;
            BindingHandler.rootNode := BindingHandler.rootNode h |}.
Proof.
  unfold BindingHandler.startElement.
  destruct (BindingHandler.hides_construction attrs); [discriminate |].
  intros H; inversion H. split; [reflexivity |]. eexists. reflexivity.
Qed.

(** The names of the attributes that hide the construction start with
    an underscore. *)
Lemma public_attrs_construct (attrs : list (string * string)) :
  forallb (fun kv => negb (Py.startswith_ (fst kv))) attrs = true ->
  BindingHandler.hides_construction attrs = false.
Proof.
  unfold BindingHandler.hides_construction, BindingHandler.construction_name.
  induction attrs as [| [k v] attrs IH]; [reflexivity |].
  cbn [forallb existsb fst]. intros H. apply andb_prop in H.
  destruct H as [Hk H]. rewrite (IH H), orb_false_r.
  apply negb_true_iff in Hk.
  destruct (String.eqb_spec k "__new__") as [-> | _]; [discriminate Hk |].
  destruct (String.eqb_spec k "__init__") as [-> | _]; [discriminate Hk |].
  destruct (String.eqb_spec k "__setattr__") as [-> | _]; [discriminate Hk |].
  reflexivity.
Qed.

Lemma characters_stack (h h' : BindingHandler.t) ch :
  BindingHandler.characters h ch = (h', Ok tt) ->
  length (BindingHandler.stack h') = length (BindingHandler.stack h) /\
  BindingHandler.typeDict h' = BindingHandler.typeDict h.
Proof.
  unfold BindingHandler.characters.
  destruct (BindingHandler.stack h) as [| elem rest]; [discriminate |].
  destruct (has_method elem "_characters"); [| discriminate].
  destruct (BaseNode._characters elem ch) as [elem' r].
  intros H; inversion H; subst. split; reflexivity.
Qed.

Lemma endElement_stack (h h' : BindingHandler.t) name :
  BindingHandler.endElement h name = (h', Ok tt) ->
  length (BindingHandler.stack h) = S (length (BindingHandler.stack h')) /\
  BindingHandler.typeDict h' = BindingHandler.typeDict h.
Proof.
  unfold BindingHandler.endElement.
  destruct (BindingHandler.stack h) as [| elem [| top rest]]; [discriminate | |].
  - intros H; inversion H; subst. split; reflexivity.
  - destruct (has_method top "_addChild"); [| discriminate].
    destruct (BaseNodeChildren._addChild top name elem) as [top' r].
    intros H; inversion H; subst. split; reflexivity.
Qed.

(** A parse that ends well has closed every tag it found open and every
    tag it opened: the document is balanced from the depth it started
    at, and the handler's stack has lost one node per tag that was
    open. *)
Lemma feed_ok (doc : xml) :
  forall p h h',
    Sax.feed doc p h = (h', Ok tt) ->
    depth_after doc (length (Sax.open_tags p)) = Some 0%nat /\
    length (BindingHandler.stack h)
    = (length (BindingHandler.stack h') + length (Sax.open_tags p))%nat /\
    BindingHandler.typeDict h' = BindingHandler.typeDict h.
Proof.
  induction doc as [| tok doc IH]; intros p h h' H.
  - cbn [Sax.feed] in H.
    destruct (Sax.open_tags p); [| discriminate H].
    destruct (Sax.root_seen p); [| discriminate H].
    inversion H; subst. cbn. repeat split. lia.
  - destruct tok as [| name attrs | data | name]; cbn [Sax.feed] in H.
    + destruct (Sax.at_start p); [| discriminate H].
      apply IH in H. exact H.
    + assert (Hgo : (if Sax.has_dup (map fst attrs)
                     then (h, Raise SAXParseException)
                     else
                       match BindingHandler.startElement h name attrs with
                       | (h1, Ok _) =>
                           Sax.feed doc
                             {| Sax.open_tags := name :: Sax.open_tags p;
                                Sax.root_seen := true;
                                Sax.at_start := false |} h1
                       | (h1, Raise e) => (h1, Raise e)
                       end) = (h', Ok tt)).
      { destruct (Sax.open_tags p); [destruct (Sax.root_seen p) |];
          [discriminate H | exact H | exact H]. }
      clear H. destruct (Sax.has_dup (map fst attrs)); [discriminate Hgo |].
      destruct (BindingHandler.startElement h name attrs) as [h1 [[] | e]]
        eqn:Hstart; [| discriminate Hgo].
      apply startElement_stack in Hstart. destruct Hstart as [_ [top ->]].
      apply IH in Hgo.
      cbn [Sax.open_tags BindingHandler.stack BindingHandler.typeDict length]
        in Hgo.
      cbn [depth_after]. destruct Hgo as [Hd [Hlen Ht]].
      repeat split; [exact Hd | lia | exact Ht].
    + cbn [depth_after].
      destruct (Sax.open_tags p) as [| t ts] eqn:Hopen.
      * destruct (Sax.blank data); [| discriminate H].
        apply IH in H. cbn [Sax.open_tags] in H.
        try rewrite Hopen in H. exact H.
      * destruct data as [| c data].
        -- apply IH in H. cbn [Sax.open_tags] in H.
        try rewrite Hopen in H. exact H.
        -- destruct (BindingHandler.characters h (String c data))
             as [h1 [[] | e]] eqn:Hch; [| discriminate H].
           apply IH in H. cbn [Sax.open_tags] in H. try rewrite Hopen in H.
           apply characters_stack in Hch. destruct Hch as [Hl Ht].
           destruct H as [Hd [Hlen Ht']].
           repeat split; [exact Hd | lia | congruence].
    + destruct (Sax.open_tags p) as [| t ts] eqn:Hopen; [discriminate H |].
      destruct (String.eqb t name); [| discriminate H].
      destruct (BindingHandler.endElement h name) as [h1 [[] | e]] eqn:Hend;
        [| discriminate H].
      apply IH in H. cbn [Sax.open_tags] in H.
      apply endElement_stack in Hend. destruct Hend as [Hl Ht].
      cbn [depth_after length]. destruct H as [Hd [Hlen Ht']].
      repeat split; [exact Hd | lia | congruence].
Qed.

(** After a parse that ends well the stack is as deep as before it. *)
Lemma parse_ok_stack (h h' : BindingHandler.t) (doc : xml) :
  Sax.parse h doc = (h', Ok tt) ->
  length (BindingHandler.stack h') = length (BindingHandler.stack h).
Proof.
  intros H. apply feed_ok in H. cbn in H. lia.
Qed.

(** ** Reuse of the handler *)

(** C8 fails on the code: [parseString] clears [rootNode] and leaves
    [stack] alone.  The parse of [<a>] raises and leaves the node of
    [a] on the stack; on the same binder the parse of [<c/>] then
    attaches [c] to that node and returns [None], where a new binder
    returns the node of [c]. *)
Theorem C8_stack_not_reset :
  let b0 := DataBinder.__init__ None in
  let b1 := fst (DataBinder.parseString b0 [TOpen "a" []]) in
  snd (DataBinder.parseString b0 [TOpen "a" []]) = Raise SAXParseException /\
  length (BindingHandler.stack (DataBinder.contentHandler b1)) = 1%nat /\
  BindingHandler.rootNode (DataBinder.contentHandler b1) = VNone /\
  snd (DataBinder.parseString b1 [TOpen "c" []; TClose "c"]) = Ok VNone /\
  snd (DataBinder.parseString b0 [TOpen "c" []; TClose "c"])
  = Ok (VObj (BindingHandler.element_class "c" BindingHandler.BaseNode_class [])
             [("_text", VStr "")]).
Proof. cbv zeta. repeat split. Qed.

(** ** Children of a node *)

Lemma dict_get_set_same {A : Type} (k : string) (v : A) (d : list (string * A)) :
  dict_get k (dict_set k v d) = Some v.
Proof.
  induction d as [| [k' v'] d IH]; cbn [dict_set dict_get].
  - now rewrite String.eqb_refl.
  - destruct (String.eqb_spec k k') as [-> | Hne]; cbn [dict_get].
    + now rewrite String.eqb_refl.
    + destruct (String.eqb_spec k k'); [contradiction | exact IH].
Qed.

Lemma dict_get_set_other {A : Type} (k k' : string) (v : A) (d : list (string * A)) :
  k <> k' -> dict_get k (dict_set k' v d) = dict_get k d.
Proof.
  intros Hne. induction d as [| [k2 v2] d IH]; cbn [dict_set dict_get].
  - now destruct (String.eqb_spec k k').
  - destruct (String.eqb_spec k' k2) as [-> | Hne2]; cbn [dict_get].
    + destruct (String.eqb_spec k k2); [contradiction | reflexivity].
    + destruct (String.eqb_spec k k2); [reflexivity | exact IH].
Qed.

Lemma dict_has_get {A : Type} (k : string) (d : list (string * A)) :
  dict_has k d = match dict_get k d with Some _ => true | None => false end.
Proof. reflexivity. Qed.

Lemma in_declared (name : string) (single : list string) :
  existsb (eq_str name) (map VStr single) = true <-> In name single.
Proof.
  induction single as [| s single IH]; cbn [map existsb eq_str In].
  - split; [discriminate | contradiction].
  - rewrite orb_true_iff, IH. destruct (String.eqb_spec s name); intuition congruence.
Qed.

Lemma dict_set_set {A : Type} (k : string) (v1 v2 : A) (d : list (string * A)) :
  dict_set k v2 (dict_set k v1 d) = dict_set k v2 d.
Proof.
  induction d as [| [k' v'] d IH]; cbn [dict_set].
  - now rewrite String.eqb_refl.
  - destruct (String.eqb_spec k k') as [-> | Hne]; cbn [dict_set].
    + now rewrite String.eqb_refl.
    + destruct (String.eqb_spec k k'); [contradiction | now rewrite IH].
Qed.

Lemma getattr_of_set_other (c : pyclass) (d : fields) (k k' : string) (v : value) :
  k <> k' -> getattr_of c (dict_set k' v d) k = getattr_of c d k.
Proof. intros Hne. unfold getattr_of. now rewrite dict_get_set_other. Qed.

(** What [_addChild] comes to on such an instance. *)
Lemma addChild_noted (self childNode : node) (name : string) (nt : node_type) :
  sees_declaration self nt ->
  BaseNodeChildren._addChild self name childNode
  = let d2 := noted (n_dict self) name in
    if existsb (eq_str name) (map VStr (nt_single nt)) then
      match finalize childNode with
      | Ok v => (BaseNodeChildren.with_dict self (dict_set name v d2), Ok tt)
      | Raise e => (BaseNodeChildren.with_dict self d2, Raise e)
      end
    else
      match dict_get name d2 with
      | None =>
          match finalize childNode with
          | Ok v => (BaseNodeChildren.with_dict self (dict_set name (VList [v]) d2), Ok tt)
          | Raise e => (BaseNodeChildren.with_dict self (dict_set name (VList []) d2), Raise e)
          end
      | Some (VList l') =>
          match finalize childNode with
          | Ok v => (BaseNodeChildren.with_dict self (dict_set name (VList (l' ++ [v])) d2), Ok tt)
          | Raise e => (BaseNodeChildren.with_dict self d2, Raise e)
          end
      | Some v => (BaseNodeChildren.with_dict self d2, Raise (no_method v "append"))
      end.
Proof.
  intros [Hbase [Hsingle Horder]].
  assert (Hco : exists x, getattr self "_childOrder" = Some x).
  { unfold getattr, getattr_of, inherited. rewrite Hbase.
    destruct (dict_get "_childOrder" (n_dict self)); [eauto |].
    destruct (dict_get "_childOrder" (c_attrs (n_class self))); cbn; eauto. }
  destruct Hco as [x Hco].
  assert (Hsc : forall v d,
             getattr (BaseNodeChildren.with_dict self (dict_set "_childOrder" v d))
                     "_singleChildren"
             = getattr_of (n_class self) d "_singleChildren").
  { intros. unfold getattr. cbn [BaseNodeChildren.with_dict n_class n_dict].
    apply getattr_of_set_other. discriminate. }
  unfold BaseNodeChildren._addChild. rewrite Hco. unfold noted, dict_has.
  destruct Horder as [Hnone | [l Hl]].
  - rewrite Hnone. cbv beta iota. rewrite dict_get_set_same. rewrite Hsc.
    rewrite getattr_of_set_other by discriminate.
    fold (getattr self "_singleChildren"). rewrite Hsingle.
    cbn [py_in app]. rewrite !dict_set_set.
    destruct (existsb (eq_str name) (map VStr (nt_single nt))); [reflexivity |].
    destruct (dict_get name _) as [[] |]; try reflexivity.
    destruct (finalize childNode); [| reflexivity].
    now rewrite dict_set_set.
  - rewrite Hl. cbv beta iota. rewrite Hl. rewrite Hsc.
    fold (getattr self "_singleChildren"). rewrite Hsingle.
    cbn [py_in].
    destruct (existsb (eq_str name) (map VStr (nt_single nt))); [reflexivity |].
    destruct (dict_get name _) as [[] |]; try reflexivity.
    destruct (finalize childNode); [| reflexivity].
    now rewrite dict_set_set.
Qed.

Lemma child_stored_intro (self : node) (name : string) (now : value) :
  name <> "_childOrder" ->
  child_stored self
    (BaseNodeChildren.with_dict self (dict_set name now (noted (n_dict self) name)))
    name now.
Proof.
  intros Hn. unfold child_stored. cbn [BaseNodeChildren.with_dict n_class n_dict].
  split; [reflexivity |]. split; [apply dict_get_set_same |]. split.
  - intros k Hk Hco. rewrite dict_get_set_other by exact Hk.
    unfold noted. now rewrite dict_get_set_other.
  - rewrite dict_get_set_other by congruence.
    unfold noted. now rewrite dict_get_set_same.
Qed.

Lemma finalize_not_list (childNode : node) (v : value) :
  finalize childNode = Ok v -> forall l, v <> VList l.
Proof.
  unfold finalize. destruct (has_method childNode "_finalize"); cbn [bind];
    [| discriminate].
  destruct (c_base (n_class childNode)) as [nt |]; [| discriminate].
  destruct (nt_kind nt).
  - intros H; inversion H; discriminate.
  - unfold IntegerNode._finalize.
    destruct (getattr childNode "_text") as [t |]; [| discriminate].
    destruct (truthy t).
    + destruct (IntegerNode.int_of t); cbn [bind]; [| discriminate].
      intros H; inversion H; discriminate.
    + intros H; inversion H; discriminate.
  - unfold StringNode._finalize.
    destruct (getattr childNode "_text"); [| discriminate].
    intros H; inversion H; discriminate.
  - intros H; inversion H; discriminate.
  - unfold BooleanNode._finalize.
    destruct (getattr childNode "_text") as [[] |]; try discriminate.
    intros H; inversion H; discriminate.
  - intros H; inversion H; discriminate.
Qed.

(** What [_addChild] does where nothing collides.  On an instance that
    sees the declaration of its class, a child whose tag is declared
    single is stored as its finalized value, in place of whatever the
    tag was bound to, and the value is never a list; so the last
    occurrence is the one kept.  A child whose tag is not declared, and
    is unbound or bound to a list in the instance, has its finalized
    value appended to that list, so the list holds the occurrences in
    arrival order.  In both cases the tag is appended to [_childOrder].
    Parsing [<x><foo>1</foo><foo>2</foo></x>] with [foo] an integer
    gives [x.foo == 2] when the class of [x] declares [foo] single, and
    [x.foo == [1, 2]] when it does not. *)
Lemma addChild_stores :
  (forall (self childNode : node) (name : string) (nt : node_type) (v : value),
      sees_declaration self nt ->
      name <> "_childOrder" ->
      finalize childNode = Ok v ->
      In name (nt_single nt) ->
      exists self',
        BaseNodeChildren._addChild self name childNode = (self', Ok tt) /\
        child_stored self self' name v /\
        (forall l, v <> VList l)) /\
  (forall (self childNode : node) (name : string) (nt : node_type) (v : value)
          (l : list value),
      sees_declaration self nt ->
      name <> "_childOrder" ->
      finalize childNode = Ok v ->
      ~ In name (nt_single nt) ->
      (dict_get name (n_dict self) = None /\ l = []) \/
      dict_get name (n_dict self) = Some (VList l) ->
      exists self',
        BaseNodeChildren._addChild self name childNode = (self', Ok tt) /\
        child_stored self self' name (VList (l ++ [v]))) /\
  (exists c fs,
      snd (DataBinder.parseString
             (DataBinder.__init__ (Some [("x", x_type); ("foo", IntegerNode_class)]))
             foo_twice) = Ok (VObj c fs) /\
      dict_get "foo" fs = Some (VInt 2)) /\
  (exists c fs,
      snd (DataBinder.parseString
             (DataBinder.__init__ (Some [("foo", IntegerNode_class)]))
             foo_twice) = Ok (VObj c fs) /\
      dict_get "foo" fs = Some (VList [VInt 1; VInt 2])).
Proof.
  split; [| split; [| split]].
  - intros self childNode name nt v Hsees Hn Hfin Hin.
    eexists. split; [| split].
    + rewrite (addChild_noted self childNode name nt Hsees). cbv zeta.
      apply in_declared in Hin. rewrite Hin, Hfin. reflexivity.
    + now apply child_stored_intro.
    + now apply finalize_not_list with childNode.
  - intros self childNode name nt v l Hsees Hn Hfin Hnin Hold.
    assert (Hex : existsb (eq_str name) (map VStr (nt_single nt)) = false).
    { destruct (existsb _ _) eqn:E; [| reflexivity].
      apply in_declared in E. contradiction. }
    assert (Hget : dict_get name (noted (n_dict self) name)
                   = dict_get name (n_dict self)).
    { unfold noted. now rewrite dict_get_set_other. }
    exists (BaseNodeChildren.with_dict self
              (dict_set name (VList (l ++ [v])) (noted (n_dict self) name))).
    split.
    + rewrite (addChild_noted self childNode name nt Hsees). cbv zeta.
      rewrite Hex, Hget.
      destruct Hold as [[Hnone ->] | Hsome].
      * rewrite Hnone, Hfin. reflexivity.
      * rewrite Hsome, Hfin. reflexivity.
    + now apply child_stored_intro.
  - do 2 eexists. split; reflexivity.
  - do 2 eexists. split; reflexivity.
Qed.

(** C4 fails on the code.  [_addChild] keeps the children in the
    instance [__dict__], next to the node's own [_text] and
    [_childOrder], and looks [_singleChildren] up through the instance
    and its class, where [startElement] has put the XML attributes.  A
    tag that is not declared single and is named [_text] meets the text
    of the node where the docstring of [BaseNode] promises a list:
    parsing [<x><_text>1</_text></x>] raises [AttributeError] from
    [self.__dict__[name].append].  An attribute named [_singleChildren]
    hides the declaration of the class: with [foo] declared single,
    [<x _singleChildren="bar"><foo>1</foo><foo>2</foo></x>] gives
    [x.foo == [1, 2]], where the same document without the attribute
    gives [x.foo == 2]. *)
Theorem C4_internal_name_collides :
  snd (DataBinder.parseString (DataBinder.__init__ None)
         [TOpen "x" []; TOpen "_text" []; TText "1"; TClose "_text";
          TClose "x"])
  = Raise AttributeError /\
  snd (BaseNodeChildren._addChild
         (BaseNode.__init__
            (BindingHandler.element_class "x" BindingHandler.BaseNode_class []))
         "_text"
         (text_node
            (BindingHandler.element_class "_text" BindingHandler.BaseNode_class [])
            "1"))
  = Raise AttributeError /\
  (exists c fs,
      snd (DataBinder.parseString
             (DataBinder.__init__ (Some [("x", x_type); ("foo", IntegerNode_class)]))
             [TOpen "x" [("_singleChildren", "bar")];
              TOpen "foo" []; TText "1"; TClose "foo";
              TOpen "foo" []; TText "2"; TClose "foo"; TClose "x"])
      = Ok (VObj c fs) /\
      dict_get "foo" fs = Some (VList [VInt 1; VInt 2])) /\
  (exists c fs,
      snd (DataBinder.parseString
             (DataBinder.__init__ (Some [("x", x_type); ("foo", IntegerNode_class)]))
             foo_twice) = Ok (VObj c fs) /\
      dict_get "foo" fs = Some (VInt 2)).
Proof.
  split; [reflexivity |]. split; [reflexivity |]. split.
  - do 2 eexists. split; reflexivity.
  - do 2 eexists. split; reflexivity.
Qed.

(** ** Parsing with no registered class *)

Lemma public_not_internal (k : string) :
  Py.startswith_ k = false -> k <> "_text" /\ k <> "_childOrder".
Proof. intros H. split; intros ->; discriminate H. Qed.

Lemma tidy_has_method (cur : node) (m : string) :
  tidy cur -> Py.startswith_ m = true -> m <> "_text" -> m <> "_childOrder" ->
  has_method cur m = Ok tt.
Proof.
  intros [Hb [Ha [_ [_ Hkeys]]]] Hm H1 H2. unfold has_method, dict_has.
  rewrite Hb, (Ha m Hm).
  destruct (dict_get m (n_dict cur)) as [v |] eqn:Hv; [| reflexivity].
  destruct (Hkeys m v Hv) as [-> | [-> | [Hpub _]]]; congruence.
Qed.

Lemma tidy_sees (cur : node) :
  tidy cur -> sees_declaration cur BindingHandler.BaseNode_class.
Proof.
  intros [Hb [Ha [_ [Hco Hkeys]]]].
  split; [exact Hb |]. split; [| exact Hco].
  unfold getattr, getattr_of, inherited.
  rewrite (Ha "_singleChildren" eq_refl), Hb.
  destruct (dict_get "_singleChildren" (n_dict cur)) as [v |] eqn:Hv;
    [| reflexivity].
  destruct (Hkeys _ v Hv) as [H | [H | [H _]]]; discriminate H.
Qed.

Lemma tidy_characters (cur : node) (ch : string) :
  tidy cur ->
  exists cur', BaseNode._characters cur ch = (cur', Ok tt) /\ tidy cur'.
Proof.
  intros [Hb [Ha [[s Hs] [Hco Hkeys]]]].
  unfold BaseNode._characters, getattr, getattr_of. rewrite Hs.
  eexists. split; [reflexivity |].
  unfold tidy. cbn [n_class n_dict].
  split; [exact Hb |]. split; [exact Ha |]. split; [| split].
  - eexists. apply dict_get_set_same.
  - now rewrite dict_get_set_other by discriminate.
  - intros k v. destruct (String.eqb_spec k "_text") as [-> | Hne]; [now left |].
    rewrite dict_get_set_other by exact Hne. apply Hkeys.
Qed.

Lemma tidy_finalize (n : node) : tidy n -> finalize n = Ok (obj n).
Proof.
  intros Hn. unfold finalize.
  rewrite (tidy_has_method n "_finalize" Hn) by (reflexivity || discriminate).
  destruct Hn as [-> _]. reflexivity.
Qed.

Lemma tidy_addChild (cur n : node) (k : string) :
  tidy cur -> tidy n -> Py.startswith_ k = false ->
  exists cur', BaseNodeChildren._addChild cur k n = (cur', Ok tt) /\ tidy cur'.
Proof.
  intros Hc Hn Hk.
  rewrite (addChild_noted cur n k _ (tidy_sees cur Hc)). cbv zeta.
  cbn [BindingHandler.BaseNode_class nt_single map existsb].
  destruct (public_not_internal k Hk) as [Hkt Hkc].
  assert (Hget : forall k', k' <> "_childOrder" ->
                            dict_get k' (noted (n_dict cur) k) = dict_get k' (n_dict cur)).
  { intros k' Hne. unfold noted. now rewrite dict_get_set_other. }
  rewrite (Hget k Hkc), (tidy_finalize n Hn).
  destruct Hc as [Hb [Ha [[s Hs] [Hco Hkeys]]]].
  assert (Htidy : forall l,
             tidy (BaseNodeChildren.with_dict cur
                     (dict_set k (VList l) (noted (n_dict cur) k)))).
  { intros l. unfold tidy. cbn [BaseNodeChildren.with_dict n_class n_dict].
    split; [exact Hb |]. split; [exact Ha |]. split; [| split].
    - exists s. rewrite dict_get_set_other by congruence.
      now rewrite Hget by discriminate.
    - right. rewrite dict_get_set_other by congruence.
      unfold noted. rewrite dict_get_set_same. eauto.
    - intros k' v'. destruct (String.eqb_spec k' k) as [-> | Hne].
      + rewrite dict_get_set_same. intros H; inversion H. right. right. eauto.
      + rewrite dict_get_set_other by exact Hne.
        destruct (String.eqb_spec k' "_childOrder") as [-> | Hne2]; [auto |].
        rewrite Hget by exact Hne2. apply Hkeys. }
  destruct (dict_get k (n_dict cur)) as [v |] eqn:Hv.
  - destruct (Hkeys k v Hv) as [-> | [-> | [_ [l ->]]]]; try discriminate Hk.
    eexists. split; [reflexivity | apply Htidy].
  - eexists. split; [reflexivity | apply Htidy].
Qed.

Lemma tidy_start (name : string) (attrs : list (string * string)) :
  forallb (fun kv => negb (Py.startswith_ (fst kv))) attrs = true ->
  tidy (BaseNode.__init__
          (BindingHandler.element_class name BindingHandler.BaseNode_class attrs)).
Proof.
  intros Hattrs. unfold tidy.
  cbn [BaseNode.__init__ n_class n_dict BindingHandler.element_class c_base c_attrs].
  split; [reflexivity |]. split; [| split; [| split]].
  - intros k Hk.
    assert (Hgen : forall acc : list (string * atom),
               dict_get k acc = None ->
               dict_get k (fold_left (fun d kv => dict_set (fst kv) (AStr (snd kv)) d)
                                     attrs acc) = None).
    { induction attrs as [| [k' v'] attrs IH]; intros acc Hacc; [exact Hacc |].
      cbn [forallb fst] in Hattrs. apply andb_true_iff in Hattrs.
      destruct Hattrs as [Hk' Hattrs]. cbn [fold_left fst snd].
      apply IH; [exact Hattrs |].
      rewrite dict_get_set_other; [exact Hacc |].
      intros ->. rewrite Hk in Hk'. discriminate Hk'. }
    now apply Hgen.
  - now exists "".
  - now left.
  - intros k v. cbn [dict_get].
    destruct (String.eqb_spec k "_text"); [auto | discriminate].
Qed.





(** ** Facts on sorting *)

Section SortingFacts.

Context {A : Type} (le : A -> A -> bool).
Hypothesis le_total : forall x y, le x y = true \/ le y x = true.
Hypothesis le_trans :
  forall x y z, le x y = true -> le y z = true -> le x z = true.

Lemma insert_perm (x : A) (l : list A) : Permutation (insert le x l) (x :: l).
Proof.
  induction l as [| y l IH]; cbn [insert]; [reflexivity |].
  destruct (le x y); [reflexivity |].
  rewrite IH. apply perm_swap.
Qed.

Lemma sorted_perm (l : list A) : Permutation (sorted le l) l.
Proof.
  induction l as [| x l IH]; cbn [sorted fold_right]; [reflexivity |].
  fold (sorted le l). rewrite insert_perm. now constructor.
Qed.

Lemma insert_sorted (x : A) (l : list A) :
  StronglySorted (holds le) l -> StronglySorted (holds le) (insert le x l).
Proof.
  induction 1 as [| y l Hl IH Hy]; cbn [insert].
  - repeat constructor.
  - destruct (le x y) eqn:Hxy.
    + constructor; [now constructor |].
      constructor; [exact Hxy |].
      eapply Forall_impl; [| exact Hy].
      intros z Hz. unfold holds in *. now apply le_trans with y.
    + constructor; [exact IH |].
      assert (Hyx : le y x = true).
      { destruct (le_total x y) as [H | H]; [congruence | exact H]. }
      apply (Permutation_Forall (Permutation_sym (insert_perm x l))).
      now constructor.
Qed.

Lemma sorted_sorted (l : list A) : StronglySorted (holds le) (sorted le l).
Proof.
  induction l as [| x l IH]; cbn [sorted fold_right]; [constructor |].
  now apply insert_sorted.
Qed.

(** Two sorted arrangements of the same members are the same list,
    when no two distinct members are each below the other. *)
Lemma sorted_unique (l1 : list A) :
  forall l2,
    StronglySorted (holds le) l1 -> StronglySorted (holds le) l2 ->
    Permutation l1 l2 ->
    (forall x y, In x l1 -> In y l1 -> le x y = true -> le y x = true -> x = y) ->
    l1 = l2.
Proof.
  induction l1 as [| a l1 IH]; intros l2 H1 H2 Hp Hanti.
  - apply Permutation_nil in Hp. now subst.
  - destruct l2 as [| b l2].
    { apply Permutation_sym, Permutation_nil in Hp. discriminate. }
    inversion H1 as [| ? ? H1' Ha]; subst.
    inversion H2 as [| ? ? H2' Hb]; subst.
    assert (Hab : a = b).
    { assert (Hina : In a (b :: l2)).
      { apply Permutation_in with (a :: l1); [exact Hp | now left]. }
      assert (Hinb : In b (a :: l1)).
      { apply Permutation_in with (b :: l2);
          [now apply Permutation_sym | now left]. }
      destruct Hina as [-> | Hina]; [reflexivity |].
      destruct Hinb as [-> | Hinb]; [reflexivity |].
      rewrite Forall_forall in Ha, Hb.
      apply Hanti; [now left | now right | now apply Ha | now apply Hb]. }
    subst b. f_equal. apply IH; try assumption.
    + now apply Permutation_cons_inv with a.
    + intros x y Hx Hy. apply Hanti; now right.
Qed.

Lemma sorted_permuted (l l' : list A) :
  Permutation l l' ->
  (forall x y, In x l -> In y l -> le x y = true -> le y x = true -> x = y) ->
  sorted le l = sorted le l'.
Proof.
  intros Hp Hanti. apply sorted_unique.
  - apply sorted_sorted.
  - apply sorted_sorted.
  - rewrite !sorted_perm. exact Hp.
  - intros x y Hx Hy. apply Hanti.
    + now apply Permutation_in with (sorted le l); [apply sorted_perm |].
    + now apply Permutation_in with (sorted le l); [apply sorted_perm |].
Qed.

End SortingFacts.

Lemma leb_trans (x y z : string) :
  String.leb x y = true -> String.leb y z = true -> String.leb x z = true.
Proof.
  unfold String.leb.
  destruct (String.compare x y) eqn:Hxy; try discriminate;
    destruct (String.compare y z) eqn:Hyz; try discriminate; intros _ _.
  - apply String.compare_eq_iff in Hxy, Hyz. subst.
    pose proof (proj2 (String_as_OT.cmp_eq z z) eq_refl) as H.
    unfold String_as_OT.cmp in H. now rewrite H.
  - apply String.compare_eq_iff in Hxy. subst. now rewrite Hyz.
  - apply String.compare_eq_iff in Hyz. subst. now rewrite Hxy.
  - apply String_as_OT.cmp_lt in Hxy, Hyz.
    pose proof (String_as_OT.lt_trans _ _ _ Hxy Hyz) as H.
    apply String_as_OT.cmp_lt in H. unfold String_as_OT.cmp in H. now rewrite H.
Qed.

(** ** Mappings *)

Lemma entry_le_total {B : Type} (p q : string * B) :
  Serializer.entry_le p q = true \/ Serializer.entry_le q p = true.
Proof. apply String.leb_total. Qed.

Lemma entry_le_trans {B : Type} (p q r : string * B) :
  Serializer.entry_le p q = true -> Serializer.entry_le q r = true ->
  Serializer.entry_le p r = true.
Proof. apply leb_trans. Qed.

Lemma NoDup_keys_inj {B : Type} (l : list (string * B)) (p q : string * B) :
  NoDup (keys l) -> In p l -> In q l -> fst p = fst q -> p = q.
Proof.
  induction l as [| x l IH]; intros Hnd Hp Hq Heq; [destruct Hp |].
  cbn [keys map] in Hnd. inversion Hnd as [| ? ? Hx Hnd']; subst.
  destruct Hp as [-> | Hp], Hq as [-> | Hq].
  - reflexivity.
  - exfalso. apply Hx. rewrite Heq. now apply in_map.
  - exfalso. apply Hx. rewrite <- Heq. now apply in_map.
  - now apply IH.
Qed.

Lemma entry_le_antisym {B : Type} (l : list (string * B)) :
  NoDup (keys l) ->
  forall p q, In p l -> In q l ->
              Serializer.entry_le p q = true -> Serializer.entry_le q p = true ->
              p = q.
Proof.
  intros Hnd p q Hp Hq Hpq Hqp.
  apply (NoDup_keys_inj l); try assumption.
  now apply String.leb_antisym.
Qed.

(** Sorting entries by key commutes with a map that keeps the keys. *)
Lemma sorted_entries_map {B C : Type} (f : string * B -> string * C)
      (l : list (string * B)) :
  (forall p, fst (f p) = fst p) ->
  sorted Serializer.entry_le (map f l) = map f (sorted Serializer.entry_le l).
Proof.
  intros Hf.
  assert (Hins : forall x l0,
             insert Serializer.entry_le (f x) (map f l0)
             = map f (insert Serializer.entry_le x l0)).
  { intros x l0. induction l0 as [| y l0 IH]; [reflexivity |].
    cbn [map insert]. unfold Serializer.entry_le at 1 3. rewrite !Hf.
    destruct (String.leb (fst x) (fst y)); [reflexivity |].
    cbn [map]. now rewrite <- IH. }
  induction l as [| x l IH]; [reflexivity |].
  cbn [map sorted fold_right]. fold (sorted Serializer.entry_le (map f l)).
  fold (sorted Serializer.entry_le l). now rewrite IH, Hins.
Qed.

(** The dict branch of [_to_etree_r] in the form of the source:
    [for childName, child in sorted(obj.iteritems()):
         self._etree_add(elem, self._to_etree_r(child, childName))] *)
Lemma to_etree_dict (d : list (string * value)) (name : option string) :
  Serializer._to_etree_r (VDict d) name
  = (elem <- Etree.Element_ (Serializer.element_name (VDict d) name) ;;
     e <- Serializer.add_all elem
            (map (fun kv => Serializer._to_etree_r (snd kv) (Some (fst kv)))
                 (sorted Serializer.entry_le d)) ;;
     Ok (Single e)).
Proof.
  cbn [Serializer._to_etree_r].
  assert (Heach :
    forall l,
      (fix each (l : list (string * value)) : list (string * result etree) :=
         match l with
         | [] => []
         | (childName, child) :: r =>
             (childName, Serializer._to_etree_r child (Some childName)) :: each r
         end) l
      = map (fun kv => (fst kv, Serializer._to_etree_r (snd kv) (Some (fst kv)))) l).
  { induction l as [| [k v] l IH]; [reflexivity |]. cbn [map fst snd].
    now rewrite <- IH. }
  rewrite Heach. rewrite sorted_entries_map by reflexivity.
  now rewrite map_map.
Qed.

(** What [elem.extend(l)] and the loop of [_etree_add] leave in the
    element. *)
Lemma extend_built (l : list etree) :
  forall t a x c e,
    Etree.extend (Element t a x c) l = Ok e ->
    exists cs, l = map Single cs /\ e = Element t a x (c ++ cs).
Proof.
  induction l as [| tr l IH]; intros t a x c e H; cbn [Etree.extend] in H.
  - inversion H. exists []. now rewrite app_nil_r.
  - destruct tr as [e1 | m]; [| discriminate H].
    cbn [Etree.append] in H. destruct (IH _ _ _ _ _ H) as [cs [-> ->]].
    exists (e1 :: cs). split; [reflexivity |]. now rewrite <- app_assoc.
Qed.

Lemma add_all_built (trees : list (result etree)) :
  forall t a x c e,
    Serializer.add_all (Element t a x c) trees = Ok e ->
    exists css,
      Forall2 (fun r cs => exists tr, r = Ok tr /\ flat_tree tr cs) trees css /\
      e = Element t a x (c ++ concat css).
Proof.
  induction trees as [| r trees IH]; intros t a x c e H;
    cbn [Serializer.add_all] in H.
  - inversion H. exists []. split; [constructor |]. cbn [concat].
    now rewrite app_nil_r.
  - destruct r as [tr | ex]; cbn [bind] in H; [| discriminate H].
    destruct tr as [e1 | m]; cbn [Serializer._etree_add] in H.
    + cbn [bind Etree.append] in H.
      destruct (IH _ _ _ _ _ H) as [css [Hall ->]].
      exists ([e1] :: css). split.
      * constructor; [| exact Hall]. exists (Single e1).
        split; [reflexivity |]. left. now exists e1.
      * cbn [concat app]. now rewrite <- app_assoc.
    + destruct (Etree.extend (Element t a x c) m) as [e2 |] eqn:He;
        cbn [bind] in H; [| discriminate H].
      destruct (extend_built _ _ _ _ _ _ He) as [cs [-> ->]].
      destruct (IH _ _ _ _ _ H) as [css [Hall ->]].
      exists (cs :: css). split.
      * constructor; [| exact Hall]. exists (Many (map Single cs)).
        split; [reflexivity |]. now right.
      * cbn [concat]. now rewrite <- app_assoc.
Qed.

(** The elements made for a value under a key carry the key as their
    tag: the one element of a value that is not a sequence, and the
    element of each member of a sequence. *)
Lemma entry_elements (k : string) (v : value) (tr : etree) (cs : list element) :
  k <> "" ->
  Serializer._to_etree_r v (Some k) = Ok tr -> flat_tree tr cs ->
  Forall (fun c => Etree.tag c = k) cs.
Proof.
  intros Hk H Hflat. destruct (members v) as [xs |] eqn:Hm.
  - rewrite (to_etree_sequence v xs (Some k) Hm) in H.
    bind_ok H. bind_ok H. inversion H; subst tr. clear H.
    destruct Hflat as [[c [Hc _]] | Hmany]; [discriminate Hc |].
    inversion Hmany; subst x0. clear Hmany.
    apply all_ok_each_member in E0. clear E Hm.
    revert xs E0. induction cs as [| c cs IH]; intros xs Hall; [constructor |].
    inversion Hall as [| x1 t1 xs1 l1 Hx1 Hrest]; subst.
    constructor; [| now apply (IH xs1)].
    destruct (members x1) as [ys |] eqn:Hm1.
    + rewrite (to_etree_sequence x1 ys (Some k) Hm1) in Hx1.
      bind_ok Hx1. bind_ok Hx1. discriminate Hx1.
    + destruct (to_etree_single x1 k _ Hm1 Hk Hx1) as [e [He Ht]].
      inversion He. now subst.
  - destruct (to_etree_single v k tr Hm Hk H) as [e [-> Ht]].
    destruct Hflat as [[c [Hc ->]] | Hmany]; [| discriminate Hmany].
    inversion Hc; subst. now constructor.
Qed.

(** C7: the dict branch visits the entries in sorted key order and
    serializes each value under its key, [_to_etree_r(child, childName)];
    the entries in that order are a permutation of the stored ones with
    ascending keys, so two dicts with the same entries (keys are unique
    in a dict) give the same tree whatever the order they are stored
    in.  A value that is not a sequence becomes one element whose tag is
    the key.  The children of the element that is built are, entry
    after entry in ascending key order, the elements made for the
    value of the entry under its key: the one element of a value that
    is not a sequence, the elements of the members of a sequence; each
    carries the key as its tag.  [{"z": 1, "a": 2}] is written with [a]
    before [z], and [{"z": 3, "a": [1, 2]}] with the two elements of
    [a] before [z]. *)
Theorem C7_dict_sorted_keys :
  (forall (d : list (string * value)) (name : option string),
      Serializer._to_etree_r (VDict d) name
      = (elem <- Etree.Element_ (Serializer.element_name (VDict d) name) ;;
         e <- Serializer.add_all elem
                (map (fun kv => Serializer._to_etree_r (snd kv) (Some (fst kv)))
                     (sorted Serializer.entry_le d)) ;;
         Ok (Single e)) /\
      Permutation (sorted Serializer.entry_le d) d /\
      StronglySorted (fun p q => String.leb (fst p) (fst q) = true)
                     (sorted Serializer.entry_le d)) /\
  (forall (d d' : list (string * value)) (name : option string),
      NoDup (keys d) -> Permutation d d' ->
      Serializer._to_etree_r (VDict d') name
      = Serializer._to_etree_r (VDict d) name) /\
  (forall (k : string) (v : value) (t : etree),
      k <> "" -> members v = None ->
      Serializer._to_etree_r v (Some k) = Ok t ->
      exists e, t = Single e /\ Etree.tag e = k) /\
  (let written :=
     Ok [TOpen "root" []; TOpen "a" []; TText "2"; TClose "a";
         TOpen "z" []; TText "1"; TClose "z"; TClose "root"] in
   Serializer._toXml (VDict [("z", VInt 1); ("a", VInt 2)]) (Some "root")
   = written /\
   Serializer._toXml (VDict [("a", VInt 2); ("z", VInt 1)]) (Some "root")
   = written /\
   Serializer._toXml (VDict [("z", VInt 3); ("a", VList [VInt 1; VInt 2])])
                     (Some "root")
   = Ok [TOpen "root" []; TOpen "a" []; TText "1"; TClose "a";
         TOpen "a" []; TText "2"; TClose "a";
         TOpen "z" []; TText "3"; TClose "z"; TClose "root"]) /\
  (forall (d : list (string * value)) (name : option string) (t : etree),
      Serializer._to_etree_r (VDict d) name = Ok t ->
      exists css,
        Forall2 (fun kv cs =>
                   exists tr,
                     Serializer._to_etree_r (snd kv) (Some (fst kv)) = Ok tr /\
                     flat_tree tr cs /\
                     (fst kv <> "" ->
                      Forall (fun c => Etree.tag c = fst kv) cs))
                (sorted Serializer.entry_le d) css /\
        t = Single (Element (Serializer.element_name (VDict d) name) [] None
                            (concat css))).
Proof.
  split; [| split; [| split; [| split]]].
  - intros d name. split; [apply to_etree_dict |]. split.
    + apply sorted_perm.
    + apply (sorted_sorted Serializer.entry_le);
        [apply entry_le_total | apply entry_le_trans].
  - intros d d' name Hnd Hp. rewrite !to_etree_dict.
    replace (sorted Serializer.entry_le d') with (sorted Serializer.entry_le d);
      [reflexivity |].
    apply sorted_permuted;
      [apply entry_le_total | apply entry_le_trans | exact Hp |].
    now apply entry_le_antisym.
  - intros k v t Hk Hm Ht. now apply to_etree_single with v.
  - cbv zeta. repeat split.
  - intros d name t H. rewrite to_etree_dict in H.
    bind_ok H. apply Element_tag in E. subst x.
    bind_ok H. inversion H; subst t. clear H.
    destruct (add_all_built _ _ _ _ _ _ E) as [css [Hall ->]].
    exists css. split; [| reflexivity].
    clear E. revert css Hall.
    induction (sorted Serializer.entry_le d) as [| kv l IH]; intros css Hall;
      inversion Hall as [| r cs ? css' [tr [Hr Hflat]] Hrest]; subst;
      constructor.
    + exists tr. split; [exact Hr |]. split; [exact Hflat |].
      intros Hk. now apply (entry_elements (fst kv) (snd kv) tr).
    + now apply IH.
Qed.

Lemma C7_dict_sorted_keys_witness :
  Serializer._to_etree_r (VDict [("a", VInt 2); ("z", VInt 1)]) (Some "root")
  = Serializer._to_etree_r (VDict [("z", VInt 1); ("a", VInt 2)]) (Some "root").
Proof.
  apply (proj1 (proj2 C7_dict_sorted_keys)).
  - repeat constructor; cbn; intuition discriminate.
  - apply perm_swap.
Defined.

(** ** Child order of an instance *)

Lemma key_le_total (k1 k2 : bool * nat * string) :
  Serializer.key_le k1 k2 = true \/ Serializer.key_le k2 k1 = true.
Proof.
  destruct k1 as [[b1 i1] s1], k2 as [[b2 i2] s2]. unfold Serializer.key_le.
  destruct b1, b2; cbn [Bool.eqb negb]; auto;
    rewrite (Nat.eqb_sym i2 i1);
    destruct (Nat.eqb_spec i1 i2); try apply String.leb_total;
    destruct (Nat.ltb_spec i1 i2); auto; right; apply Nat.ltb_lt; lia.
Qed.

Lemma key_le_trans (k1 k2 k3 : bool * nat * string) :
  Serializer.key_le k1 k2 = true -> Serializer.key_le k2 k3 = true ->
  Serializer.key_le k1 k3 = true.
Proof.
  destruct k1 as [[b1 i1] s1], k2 as [[b2 i2] s2], k3 as [[b3 i3] s3].
  unfold Serializer.key_le.
  destruct b1, b2, b3; cbn [Bool.eqb negb]; try discriminate; auto;
    destruct (Nat.eqb_spec i1 i2), (Nat.eqb_spec i2 i3), (Nat.eqb_spec i1 i3);
    subst; try lia; rewrite ?Nat.ltb_lt; try lia; try apply leb_trans; auto.
Qed.

Lemma key_le_antisym (k1 k2 : bool * nat * string) :
  Serializer.key_le k1 k2 = true -> Serializer.key_le k2 k1 = true -> k1 = k2.
Proof.
  destruct k1 as [[b1 i1] s1], k2 as [[b2 i2] s2]. unfold Serializer.key_le.
  destruct b1, b2; cbn [Bool.eqb negb]; try discriminate;
    rewrite (Nat.eqb_sym i2 i1); destruct (Nat.eqb_spec i1 i2);
    rewrite ?Nat.ltb_lt; try lia; subst;
    intros H1 H2; now rewrite (String.leb_antisym _ _ H1 H2).
Qed.

Lemma by_key_spec (order : list string) (x y : string) :
  by_key order x y = true <-> three_key_before order x y.
Proof.
  unfold by_key, three_key, three_key_before, Serializer.key_le.
  destruct (in_descriptor order x), (in_descriptor order y);
    cbn [negb Bool.eqb Nat.eqb].
  - destruct (Nat.eqb_spec (position x order) (position y order)) as [He | Hne].
    + split.
      * intros H. right. right. auto.
      * intros [[_ H] | [[_ [_ H]] | [_ [_ H]]]]; [discriminate | lia | exact H].
    + rewrite Nat.ltb_lt. split.
      * intros H. right. left. auto.
      * intros [[_ H] | [[_ [_ H]] | [_ [H _]]]];
          [discriminate | exact H | now elim Hne; apply H].
  - split; [intros _; left; auto | reflexivity].
  - split; [discriminate |].
    intros [[H _] | [[H _] | [H _]]]; discriminate.
  - split.
    + intros H. right. right. repeat split; [discriminate | exact H].
    + intros [[H _] | [[H _] | [_ [_ H]]]]; [discriminate | discriminate | exact H].
Qed.

Lemma sorted_by_key {A K : Type} (le : K -> K -> bool) (f : A -> K) (l : list A) :
  sorted le (map f l) = map f (sorted (fun x y => le (f x) (f y)) l).
Proof.
  assert (Hins : forall x l0,
             insert le (f x) (map f l0)
             = map f (insert (fun x y => le (f x) (f y)) x l0)).
  { intros x l0. induction l0 as [| y l0 IH]; [reflexivity |].
    cbn [map insert]. destruct (le (f x) (f y)); [reflexivity |].
    cbn [map]. now rewrite <- IH. }
  induction l as [| x l IH]; [reflexivity |].
  cbn [map sorted fold_right]. fold (sorted le (map f l)).
  fold (sorted (fun x y => le (f x) (f y)) l). now rewrite IH, Hins.
Qed.

Lemma in_descriptor_list (order : list string) (x : string) :
  existsb (eq_str x) (map VStr order) = in_descriptor order x.
Proof.
  unfold in_descriptor. induction order as [| y order IH]; [reflexivity |].
  cbn [map existsb eq_str]. now rewrite IH.
Qed.

Lemma position_list (order : list string) (x : string) :
  Serializer.list_index x (map VStr order) = position x order.
Proof.
  induction order as [| y order IH]; [reflexivity |].
  cbn [map Serializer.list_index position eq_str]. now rewrite IH.
Qed.

(** With a list of tag names as the descriptor, [_getChildOrder] sorts
    the items by the three-part key. *)
Lemma getChildOrder_list (items order : list string) :
  Serializer._getChildOrder items (VList (map VStr order))
  = Ok (sorted (by_key order) items).
Proof.
  unfold Serializer._getChildOrder.
  assert (Hk : Serializer.keyed (VList (map VStr order)) items
               = Ok (map (three_key order) items)).
  { induction items as [| x items IH]; [reflexivity |].
    cbn [Serializer.keyed map]. rewrite IH.
    unfold Serializer.sort_key, three_key. cbn [py_in bind Serializer.py_index].
    rewrite in_descriptor_list, position_list.
    now destruct (in_descriptor order x). }
  rewrite Hk. cbn [bind]. rewrite sorted_by_key, map_map.
  unfold by_key. f_equal. cbn [three_key snd]. apply map_id.
Qed.

Lemma dict_get_map_snd {B C : Type} (g : string -> B -> C) (k : string)
      (l : list (string * B)) :
  dict_get k (map (fun kv => (fst kv, g (fst kv) (snd kv))) l)
  = option_map (g k) (dict_get k l).
Proof.
  induction l as [| [k' v] l IH]; [reflexivity |].
  cbn [map dict_get fst snd].
  destruct (String.eqb_spec k k') as [-> | Hne]; [reflexivity | exact IH].
Qed.

Lemma to_etree_object (c : pyclass) (d : fields) (name : option string) :
  Serializer._to_etree_r (VObj c d) name = object_tree c d name.
Proof.
  cbn [Serializer._to_etree_r]. unfold object_tree.
  assert (Heach :
    forall l,
      (fix each (l : list (string * value)) : list (string * result etree) :=
         match l with
         | [] => []
         | (key, val) :: r =>
             if Py.startswith_ key then each r
             else (key, Serializer._to_etree_r val (Some key)) :: each r
         end) l
      = map (fun kv => (fst kv, Serializer._to_etree_r (snd kv) (Some (fst kv))))
            (public l)).
  { induction l as [| [k v] l IH]; [reflexivity |].
    unfold public. cbn [filter fst]. fold (public l).
    destruct (Py.startswith_ k); cbn [negb]; [exact IH |].
    cbn [map fst snd]. now rewrite <- IH. }
  rewrite Heach.
  assert (Hkeys : keys (map (fun kv : string * value =>
                               (fst kv, Serializer._to_etree_r (snd kv) (Some (fst kv))))
                            (public d)) = keys (public d)).
  { unfold keys. rewrite map_map. reflexivity. }
  rewrite Hkeys.
  assert (Htree : forall key,
             Serializer.lookup_tree
               (map (fun kv : string * value =>
                       (fst kv, Serializer._to_etree_r (snd kv) (Some (fst kv))))
                    (public d)) key
             = child_tree d key).
  { intros key. unfold Serializer.lookup_tree, child_tree.
    rewrite (dict_get_map_snd (fun k v => Serializer._to_etree_r v (Some k))).
    now destruct (dict_get key (public d)). }
  destruct (Etree.Element_ _); cbn [bind]; [| reflexivity].
  destruct (Etree.attrib_update _ _); cbn [bind]; [| reflexivity].
  fold (ordering c d).
  destruct (Serializer._getChildOrder _ _) as [co |]; cbn [bind]; [| reflexivity].
  rewrite (map_ext _ _ Htree).
  destruct (Serializer.add_all _ _); cbn [bind]; reflexivity.
Qed.

(** *** Independence of the storage order *)

Lemma dict_get_in {B : Type} (k : string) (v : B) (l : list (string * B)) :
  dict_get k l = Some v -> In (k, v) l.
Proof.
  induction l as [| [k' v'] l IH]; cbn [dict_get]; [discriminate |].
  destruct (String.eqb_spec k k') as [-> | Hne].
  - intros H; inversion H. now left.
  - intros H. right. now apply IH.
Qed.

Lemma in_dict_get {B : Type} (k : string) (v : B) (l : list (string * B)) :
  NoDup (keys l) -> In (k, v) l -> dict_get k l = Some v.
Proof.
  induction l as [| [k' v'] l IH]; intros Hnd Hin; [destruct Hin |].
  cbn [keys map fst] in Hnd. inversion Hnd as [| ? ? Hk Hnd']; subst.
  cbn [dict_get]. destruct Hin as [Heq | Hin].
  - inversion Heq; subst. now rewrite String.eqb_refl.
  - destruct (String.eqb_spec k k') as [-> | Hne]; [| now apply IH].
    exfalso. apply Hk. change k' with (fst (k', v)). now apply in_map.
Qed.

Lemma dict_get_perm {B : Type} (k : string) (l l' : list (string * B)) :
  NoDup (keys l) -> Permutation l l' -> dict_get k l = dict_get k l'.
Proof.
  intros Hnd Hp.
  assert (Hnd' : NoDup (keys l')).
  { apply Permutation_NoDup with (keys l); [| exact Hnd].
    now apply Permutation_map. }
  destruct (dict_get k l) as [v |] eqn:Hl.
  - symmetry. apply in_dict_get; [exact Hnd' |].
    apply Permutation_in with l; [exact Hp | now apply dict_get_in].
  - destruct (dict_get k l') as [v' |] eqn:Hl'; [| reflexivity].
    apply dict_get_in in Hl'.
    apply Permutation_in with (l' := l) in Hl'; [| now apply Permutation_sym].
    apply in_dict_get in Hl'; [| exact Hnd]. congruence.
Qed.

Lemma public_perm {B : Type} (l l' : list (string * B)) :
  Permutation l l' -> Permutation (public l) (public l').
Proof.
  unfold public. induction 1 as [| x l l' Hp IH | x y l | l l' l'' H1 IH1 H2 IH2];
    cbn [filter].
  - constructor.
  - destruct (negb _); [now constructor | exact IH].
  - destruct (negb (Py.startswith_ (fst x))), (negb (Py.startswith_ (fst y)));
      try reflexivity. apply perm_swap.
  - now transitivity (filter (fun kv => negb (Py.startswith_ (fst kv))) l').
Qed.

Lemma public_NoDup {B : Type} (l : list (string * B)) :
  NoDup (keys l) -> NoDup (keys (public l)).
Proof.
  unfold public, keys. induction l as [| [k v] l IH]; cbn [map filter fst];
    intros Hnd; [constructor |].
  inversion Hnd as [| ? ? Hk Hnd']; subst.
  destruct (negb (Py.startswith_ k)); [| now apply IH].
  cbn [map fst]. constructor; [| now apply IH].
  intros Hin. apply Hk. apply in_map_iff in Hin. destruct Hin as [p [Hp Hin]].
  apply filter_In in Hin. apply in_map_iff. exists p. now split.
Qed.

(** Whether computing the sort key of an item raises, and what, is
    decided by the descriptor alone. *)
Lemma sort_key_exn (order : value) :
  exists e0, forall x e, Serializer.sort_key order x = Raise e -> e = e0.
Proof.
  unfold Serializer.sort_key.
  destruct order; cbn [py_in bind Serializer.py_index];
    try (exists TypeError; intros x e H; now inversion H);
    try (exists TypeError; intros x e;
         match goal with |- context [if ?b then _ else _] => destruct b end;
         discriminate).
  - exists (no_method (VSet xs) "index"). intros x e.
    destruct (existsb (eq_str x) xs); cbn [bind]; intros H; now inversion H.
  - exists (no_method (VDict d) "index"). intros x e.
    destruct (dict_has x d); cbn [bind]; intros H; now inversion H.
Qed.

Lemma keyed_perm (order : value) (items items' : list string) :
  Permutation items items' ->
  (exists ks ks', Serializer.keyed order items = Ok ks /\
                  Serializer.keyed order items' = Ok ks' /\
                  Permutation ks ks') \/
  (exists e, Serializer.keyed order items = Raise e /\
             Serializer.keyed order items' = Raise e).
Proof.
  destruct (sort_key_exn order) as [e0 He0].
  assert (Hraise : forall l e, Serializer.keyed order l = Raise e -> e = e0).
  { induction l as [| x l IH]; intros e; cbn [Serializer.keyed]; [discriminate |].
    destruct (Serializer.sort_key order x) eqn:Hx; cbn [bind].
    - destruct (Serializer.keyed order l); cbn [bind]; [discriminate |].
      intros H; inversion H; subst. now apply IH.
    - intros H; inversion H; subst. now apply He0 with x. }
  induction 1 as [| x l l' Hp IH | x y l | l l' l'' H1 IH1 H2 IH2].
  - left. exists [], []. repeat split. constructor.
  - cbn [Serializer.keyed].
    destruct (Serializer.sort_key order x) as [k |] eqn:Hx; cbn [bind].
    + destruct IH as [[ks [ks' [-> [-> Hperm]]]] | [e [-> ->]]]; cbn [bind].
      * left. exists (k :: ks), (k :: ks'). repeat split. now constructor.
      * right. now exists e.
    + right. now exists e.
  - cbn [Serializer.keyed].
    destruct (Serializer.sort_key order x) as [kx |] eqn:Hx,
             (Serializer.sort_key order y) as [ky |] eqn:Hy; cbn [bind].
    + destruct (Serializer.keyed order l) as [ks |] eqn:Hl; cbn [bind].
      * left. exists (ky :: kx :: ks), (kx :: ky :: ks). repeat split.
        apply perm_swap.
      * right. now exists e.
    + right. exists e.
      destruct (Serializer.keyed order l) as [ks |] eqn:Hl; cbn [bind];
        [now split |].
      apply Hraise in Hl. apply He0 in Hy. subst. now split.
    + right. exists e.
      destruct (Serializer.keyed order l) as [ks |] eqn:Hl; cbn [bind];
        [now split |].
      apply Hraise in Hl. apply He0 in Hx. subst. now split.
    + right. exists e0. apply He0 in Hx, Hy. subst. now split.
  - destruct IH1 as [[ks [ks' [E1 [E2 Hperm]]]] | [e [E1 E2]]],
             IH2 as [[ks2 [ks2' [E3 [E4 Hperm2]]]] | [e2 [E3 E4]]];
      try congruence.
    + left. exists ks, ks2'. repeat split; try assumption.
      rewrite E2 in E3. inversion E3; subst. now transitivity ks2.
    + right. exists e. split; [exact E1 | congruence].
Qed.

Lemma getChildOrder_perm (order : value) (items items' : list string) :
  Permutation items items' ->
  Serializer._getChildOrder items order = Serializer._getChildOrder items' order.
Proof.
  intros Hp. unfold Serializer._getChildOrder.
  destruct (keyed_perm order items items' Hp)
    as [[ks [ks' [-> [-> Hperm]]]] | [e [-> ->]]]; cbn [bind]; [| reflexivity].
  do 2 f_equal.
  apply sorted_permuted;
    [apply key_le_total | apply key_le_trans | exact Hperm |].
  intros x y _ _. apply key_le_antisym.
Qed.

Lemma object_tree_perm (c : pyclass) (d d' : fields) (name : option string) :
  NoDup (keys d) -> Permutation d d' ->
  object_tree c d name = object_tree c d' name.
Proof.
  intros Hnd Hp.
  assert (Hattr : forall k, getattr_of c d k = getattr_of c d' k).
  { intros k. unfold getattr_of. now rewrite (dict_get_perm k d d' Hnd Hp). }
  assert (Hchild : forall key, child_tree d key = child_tree d' key).
  { intros key. unfold child_tree.
    rewrite (dict_get_perm key (public d) (public d'));
      [reflexivity | now apply public_NoDup | now apply public_perm]. }
  unfold object_tree, ordering, with_text. rewrite !Hattr.
  rewrite (getChildOrder_perm _ (keys (public d)) (keys (public d')))
    by (apply Permutation_map; now apply public_perm).
  replace (Serializer.element_name (VObj c d) name)
    with (Serializer.element_name (VObj c d') name) by reflexivity.
  destruct (Etree.Element_ _); cbn [bind]; [| reflexivity].
  destruct (Etree.attrib_update _ _); cbn [bind]; [| reflexivity].
  destruct (Serializer._getChildOrder _ _); cbn [bind]; [| reflexivity].
  now rewrite (map_ext _ _ Hchild).
Qed.

(** *** The children that are emitted *)

Lemma set_text_children (elem e : element) (s : string) :
  Etree.set_text elem s = Ok e -> Etree.children e = Etree.children elem.
Proof.
  unfold Etree.set_text. destruct (Etree.valid_text s); [| discriminate].
  destruct elem; intros H; inversion H; reflexivity.
Qed.

Lemma attrib_update_children (attrs : list (string * string)) :
  forall elem e, Etree.attrib_update elem attrs = Ok e ->
                 Etree.children e = Etree.children elem.
Proof.
  induction attrs as [| [k v] attrs IH]; intros elem e; cbn [Etree.attrib_update].
  - intros H; now inversion H.
  - destruct (Etree.valid_name k && Etree.valid_text v); [| discriminate].
    destruct elem. intros H. now apply IH in H.
Qed.

Lemma add_all_children (f : string -> result etree) (ks : list string) :
  forall elem e,
    (forall k t, In k ks -> f k = Ok t -> exists c, t = Single c /\ Etree.tag c = k) ->
    Serializer.add_all elem (map f ks) = Ok e ->
    map Etree.tag (Etree.children e) = map Etree.tag (Etree.children elem) ++ ks.
Proof.
  induction ks as [| k ks IH]; intros elem e Hf; cbn [map Serializer.add_all].
  - intros H; inversion H. now rewrite app_nil_r.
  - destruct (f k) as [t |] eqn:Hk; cbn [bind]; [| discriminate].
    destruct (Hf k t (or_introl eq_refl) Hk) as [c [-> Htag]].
    cbn [Serializer._etree_add bind]. intros H.
    apply IH in H; [| intros k' t' Hin; apply Hf; now right].
    rewrite H. destruct elem. cbn [Etree.append Etree.children].
    rewrite map_app. cbn [map]. rewrite Htag. now rewrite <- app_assoc.
Qed.

Lemma in_keys_get {B : Type} (k : string) (l : list (string * B)) :
  In k (keys l) -> exists v, dict_get k l = Some v.
Proof.
  induction l as [| [k' v'] l IH]; cbn [keys map fst dict_get]; [contradiction |].
  intros [-> | Hin].
  - rewrite String.eqb_refl. eauto.
  - destruct (String.eqb k k'); eauto.
Qed.

(** The tags of the children of the element made for an instance are
    the instance's public field names in the order of
    [_getChildOrder], when no field name is empty and no field holds a
    sequence. *)
Lemma object_children_tags (c : pyclass) (d : fields) (name : option string)
      (order : list string) (e : element) :
  ordering c d = VList (map VStr order) ->
  (forall k v, In (k, v) (public d) -> k <> "" /\ members v = None) ->
  Serializer._to_etree_r (VObj c d) name = Ok (Single e) ->
  map Etree.tag (Etree.children e) = sorted (by_key order) (keys (public d)).
Proof.
  intros Hord Hfields H. rewrite to_etree_object in H. unfold object_tree in H.
  bind_ok H. apply Element_tag in E. subst x.
  bind_ok H. apply attrib_update_children in E. cbn [Etree.children] in E.
  rewrite Hord, getChildOrder_list in H. cbn [bind] in H.
  bind_ok H.
  apply add_all_children in E0.
  - rewrite E in E0. cbn [map app] in E0.
    unfold with_text in H.
    destruct (getattr_of c d "_text") as [[] |]; try discriminate H.
    + destruct (Py.strip s).
      * inversion H; subst. exact E0.
      * bind_ok H. inversion H; subst.
        apply set_text_children in E1. now rewrite E1.
    + inversion H; subst. exact E0.
  - intros k t Hin Ht.
    apply (Permutation_in k (sorted_perm (by_key order) (keys (public d)))) in Hin.
    destruct (in_keys_get k (public d) Hin) as [v Hv].
    unfold child_tree in Ht. rewrite Hv in Ht.
    apply dict_get_in in Hv. destruct (Hfields k v Hv) as [Hk Hm].
    now apply to_etree_single with v.
Qed.

Lemma extend_children (l : list etree) :
  forall elem e, Etree.extend elem l = Ok e ->
                 Etree.children e = Etree.children elem ++ singles l.
Proof.
  induction l as [| t l IH]; intros elem e; cbn [Etree.extend singles].
  - intros H; inversion H. now rewrite app_nil_r.
  - destruct t; [| discriminate]. intros H. apply IH in H. rewrite H.
    destruct elem. cbn [Etree.append Etree.children].
    now rewrite <- app_assoc.
Qed.

Lemma add_all_emitted (trees : list (result etree)) :
  forall elem e, Serializer.add_all elem trees = Ok e ->
                 Etree.children e = Etree.children elem ++ flat_map emitted trees.
Proof.
  induction trees as [| t trees IH]; intros elem e; cbn [Serializer.add_all flat_map].
  - intros H; inversion H. now rewrite app_nil_r.
  - destruct t as [t |]; cbn [bind]; [| discriminate].
    destruct (Serializer._etree_add elem t) as [e1 |] eqn:Hadd; cbn [bind];
      [| discriminate].
    intros H. apply IH in H. rewrite H, app_assoc. f_equal.
    destruct t; cbn [Serializer._etree_add emitted] in *.
    + inversion Hadd. now destruct elem.
    + now apply extend_children.
Qed.

Lemma object_children (c : pyclass) (d : fields) (name : option string)
      (e : element) :
  Serializer._to_etree_r (VObj c d) name = Ok (Single e) ->
  exists childOrder,
    Serializer._getChildOrder (keys (public d)) (ordering c d) = Ok childOrder /\
    Etree.children e = flat_map (fun key => emitted (child_tree d key)) childOrder.
Proof.
  intros H. rewrite to_etree_object in H. unfold object_tree in H.
  bind_ok H. apply Element_tag in E. subst x.
  bind_ok H. apply attrib_update_children in E. cbn [Etree.children] in E.
  bind_ok H.
  match goal with
  | Hco : Serializer._getChildOrder _ _ = Ok ?co |- _ =>
      exists co; split; [reflexivity |]; clear Hco
  end.
  bind_ok H.
  match goal with
  | Hadd : Serializer.add_all _ _ = Ok _ |- _ =>
      apply add_all_emitted in Hadd; rewrite E in Hadd; cbn [app] in Hadd;
      rewrite flat_map_concat_map, map_map, <- flat_map_concat_map in Hadd;
      rename Hadd into E1
  end.
  unfold with_text in H.
  destruct (getattr_of c d "_text") as [[] |]; try discriminate H.
  - destruct (Py.strip s).
    + inversion H; subst. exact E1.
    + bind_ok H. inversion H; subst.
      match goal with
      | Ht : Etree.set_text _ _ = Ok _ |- _ =>
          apply set_text_children in Ht; now rewrite Ht
      end.
  - inversion H; subst. exact E1.
Qed.

Lemma by_key_total (order : list string) (x y : string) :
  by_key order x y = true \/ by_key order y x = true.
Proof. apply key_le_total. Qed.

Lemma by_key_trans (order : list string) (x y z : string) :
  by_key order x y = true -> by_key order y z = true -> by_key order x z = true.
Proof. apply key_le_trans. Qed.

(** C5: with a list of tag names as descriptor, [_getChildOrder]
    returns the items sorted by the three-part key: the result is a
    permutation of the items in which every tag stands before the tags
    the three rules put after it (present before absent, present tags by
    position, ties by name).  The result does not depend on the order
    the items come in.  For an instance, the children of the element
    that is built are the elements made for its public fields, field
    by field in that order (so their tags are the field names in that
    order when no field holds a sequence), and two instances that store
    the same fields in different orders give the same tree.  With descriptor [['b', 'a']] and fields
    [a = 1], [b = 2], [<b>2</b>] is written before [<a>1</a>] in both
    storage orders. *)
Theorem C5_child_order :
  (forall (order items : list string),
      Serializer._getChildOrder items (VList (map VStr order))
      = Ok (sorted (by_key order) items) /\
      Permutation (sorted (by_key order) items) items /\
      StronglySorted (three_key_before order) (sorted (by_key order) items)) /\
  (forall (order : value) (items items' : list string),
      Permutation items items' ->
      Serializer._getChildOrder items order
      = Serializer._getChildOrder items' order) /\
  (forall (c : pyclass) (d : fields) (name : option string)
          (order : list string) (e : element),
      ordering c d = VList (map VStr order) ->
      (forall k v, In (k, v) (public d) -> k <> "" /\ members v = None) ->
      Serializer._to_etree_r (VObj c d) name = Ok (Single e) ->
      map Etree.tag (Etree.children e)
      = sorted (by_key order) (keys (public d))) /\
  (forall (c : pyclass) (d : fields) (name : option string) (e : element),
      Serializer._to_etree_r (VObj c d) name = Ok (Single e) ->
      exists childOrder,
        Serializer._getChildOrder (keys (public d)) (ordering c d)
        = Ok childOrder /\
        Etree.children e
        = flat_map (fun key => emitted (child_tree d key)) childOrder) /\
  (forall (c : pyclass) (d d' : fields) (name : option string),
      NoDup (keys d) -> Permutation d d' ->
      Serializer._to_etree_r (VObj c d) name
      = Serializer._to_etree_r (VObj c d') name) /\
  (let written :=
     Ok [TOpen "x" []; TOpen "b" []; TText "2"; TClose "b";
         TOpen "a" []; TText "1"; TClose "a"; TClose "x"] in
   Serializer._toXml (VObj plain_class ab_fields) None = written /\
   Serializer._toXml (VObj plain_class ba_fields) None = written).
Proof.
  split; [| split; [| split; [| split; [| split]]]].
  - intros order items. split; [apply getChildOrder_list |]. split.
    + apply sorted_perm.
    + assert (Hs : StronglySorted (holds (by_key order))
                                  (sorted (by_key order) items)).
      { apply sorted_sorted; [apply by_key_total | apply by_key_trans]. }
      induction Hs as [| x l Hl IH Hx]; constructor; [exact IH |].
      eapply Forall_impl; [| exact Hx].
      intros y Hy. now apply by_key_spec.
  - intros order items items'. apply getChildOrder_perm.
  - apply object_children_tags.
  - apply object_children.
  - intros c d d' name Hnd Hp. rewrite !to_etree_object.
    now apply object_tree_perm.
  - split; reflexivity.
Qed.

Lemma C5_child_order_witness :
  Serializer._to_etree_r (VObj plain_class ab_fields) None
  = Serializer._to_etree_r (VObj plain_class ba_fields) None.
Proof.
  apply (proj1 (proj2 (proj2 (proj2 (proj2 C5_child_order))))).
  - repeat constructor; cbn; intuition discriminate.
  - unfold ab_fields, ba_fields.
    apply Permutation_trans with
      [("a", VInt 1); ("b", VInt 2); ("_childOrder", VList [VStr "b"; VStr "a"])].
    + apply perm_skip. apply perm_swap.
    + apply perm_swap.
Defined.

(** ** Round trip *)

(** *** Nodes of the default class while they are being filled *)




Lemma blank_app (a b : string) :
  Sax.blank (a ++ b) = Sax.blank a && Sax.blank b.
Proof.
  induction a as [| c a IH]; [reflexivity |].
  cbn [String.append Sax.blank]. now rewrite IH, andb_assoc.
Qed.







Lemma attach_get_other (cur : node) (k k' : string) (v : value) :
  k' <> k -> k' <> "_childOrder" ->
  dict_get k' (n_dict (attach cur k v)) = dict_get k' (n_dict cur).
Proof.
  intros H1 H2. unfold attach, noted. cbn [BaseNodeChildren.with_dict n_dict].
  now rewrite !dict_get_set_other.
Qed.



(** *** Steps of the parser inside a document *)




Lemma feed_close_root (k : string) (n : node) (r : value) :
  Sax.feed [TClose k] (inside [k]) (untyped [n] r) = (untyped [] (obj n), Ok tt).
Proof. cbn [Sax.feed inside Sax.open_tags]. now rewrite String.eqb_refl. Qed.

(** *** The items of a formatted element *)





(** *** What the serializer builds *)

Lemma extend_shape (l : list etree) :
  forall t a x c e,
    Etree.extend (Element t a x c) l = Ok e ->
    e = Element t a x (c ++ singles l).
Proof.
  induction l as [| tr l IH]; intros t a x c e; cbn [Etree.extend singles].
  - intros H; inversion H. now rewrite app_nil_r.
  - destruct tr; [| discriminate]. cbn [Etree.append]. intros H.
    apply IH in H. now rewrite <- app_assoc in H.
Qed.

Lemma add_all_shape (trees : list (result etree)) :
  forall t a x c e,
    Serializer.add_all (Element t a x c) trees = Ok e ->
    e = Element t a x (c ++ flat_map emitted trees).
Proof.
  induction trees as [| tr trees IH]; intros t a x c e;
    cbn [Serializer.add_all flat_map].
  - intros H; inversion H. now rewrite app_nil_r.
  - destruct tr as [tr |]; cbn [bind]; [| discriminate].
    destruct tr as [c1 | l]; cbn [Serializer._etree_add emitted].
    + cbn [bind Etree.append]. intros H. apply IH in H.
      now rewrite <- app_assoc in H.
    + destruct (Etree.extend (Element t a x c) l) as [e1 |] eqn:He; cbn [bind];
        [| discriminate].
      apply extend_shape in He. subst e1. intros H. apply IH in H.
      now rewrite <- app_assoc in H.
Qed.

Lemma uint_text_valid (d : Decimal.uint) :
  Etree.valid_text (NilEmpty.string_of_uint d) = true.
Proof. induction d; cbn; auto. Qed.

Lemma str_int_valid (z : Z) : Etree.valid_text (Py.str_int z) = true.
Proof.
  unfold Py.str_int, NilZero.string_of_int, NilZero.string_of_uint.
  destruct (Z.to_int z) as [d | d]; destruct d; cbn; auto;
    apply uint_text_valid.
Qed.

(** *** Reading back what was written *)









Lemma extend_singles (cs : list element) :
  forall t a x c,
    Etree.extend (Element t a x c) (map Single cs) = Ok (Element t a x (c ++ cs)).
Proof.
  induction cs as [| c1 cs IH]; intros t a x c; cbn [map Etree.extend].
  - now rewrite app_nil_r.
  - cbn [Etree.append]. rewrite IH. now rewrite <- app_assoc.
Qed.





Lemma has_dup_NoDup (l : list string) : Sax.has_dup l = false -> NoDup l.
Proof.
  induction l as [| x l IH]; cbn [Sax.has_dup]; intros H; constructor.
  - apply orb_false_iff in H. destruct H as [H _].
    intros Hin. assert (Ht : existsb (String.eqb x) l = true).
    { apply existsb_exists. exists x. split; [exact Hin | apply String.eqb_refl]. }
    congruence.
  - apply IH. apply orb_false_iff in H. tauto.
Qed.








(** * Further properties of the code *)

Lemma string_app_assoc (a b c : string) : ((a ++ b) ++ c = a ++ (b ++ c))%string.
Proof. induction a as [| x a IH]; [reflexivity |]. cbn. now rewrite IH. Qed.

Lemma string_app_nil_r (a : string) : (a ++ "" = a)%string.
Proof. induction a as [| x a IH]; [reflexivity |]. cbn. now rewrite IH. Qed.

Lemma list_ascii_app (a b : string) :
  list_ascii_of_string (a ++ b)
  = list_ascii_of_string a ++ list_ascii_of_string b.
Proof. induction a as [| x a IH]; [reflexivity |]. cbn. now rewrite IH. Qed.

(** Two calls of [_characters] come to one call with the two pieces
    joined. *)
Lemma characters_twice (self : node) (a b : string) :
  snd (BaseNode._characters self a) = Ok tt ->
  BaseNode._characters (fst (BaseNode._characters self a)) b
  = BaseNode._characters self (a ++ b).
Proof.
  unfold BaseNode._characters, getattr, getattr_of.
  destruct (dict_get "_text" (n_dict self)) as [v |] eqn:Hd.
  - destruct v; cbn [fst snd n_class n_dict]; try discriminate; intros _;
      rewrite dict_get_set_same, dict_set_set.
    + now rewrite string_app_assoc.
    + now rewrite list_ascii_app, map_app, app_assoc.
  - destruct (dict_get "_text" (c_attrs (n_class self))) as [a0 |] eqn:Hc.
    + destruct a0; cbn [atom_value fst snd n_class n_dict]; try discriminate;
        intros _. rewrite dict_get_set_same, dict_set_set.
      now rewrite string_app_assoc.
    + destruct (inherited (n_class self) "_text") as [v |] eqn:Hi.
      * unfold inherited in Hi. destruct (c_base (n_class self)); discriminate Hi.
      * discriminate.
Qed.

Lemma characters_fail (self : node) (a b : string) (e : exn) :
  snd (BaseNode._characters self a) = Raise e ->
  BaseNode._characters self a = (self, Raise e) /\
  BaseNode._characters self b = (self, Raise e).
Proof.
  unfold BaseNode._characters.
  destruct (getattr self "_text") as [[] |]; cbn [snd]; try discriminate;
    intros H; inversion H; split; reflexivity.
Qed.

Lemma has_method_chars (self : node) (a m : string) :
  m <> "_text" ->
  has_method (fst (BaseNode._characters self a)) m = has_method self m.
Proof.
  intros Hm. unfold BaseNode._characters.
  destruct (getattr self "_text") as [[] |]; cbn [fst]; try reflexivity;
    unfold has_method, dict_has; cbn [n_class n_dict];
    now rewrite dict_get_set_other.
Qed.

Theorem X1_character_data_in_pieces (a b : string) (doc : xml)
        (p : Sax.state) (h : BindingHandler.t) :
  Sax.feed (TText a :: TText b :: doc) p h
  = Sax.feed (TText (a ++ b) :: doc) p h.
Proof.
  cbn [Sax.feed Sax.open_tags Sax.root_seen Sax.at_start].
  destruct (Sax.open_tags p) as [| t ts].
  - rewrite blank_app. destruct (Sax.blank a); cbn [andb]; reflexivity.
  - destruct a as [| ca a]; [reflexivity |].
    destruct b as [| cb b].
    { rewrite string_app_nil_r.
      destruct (BindingHandler.characters h (String ca a)) as [h1 [[] | e]];
        reflexivity. }
    change (String ca a ++ String cb b)%string
      with (String ca (a ++ String cb b)).
    unfold BindingHandler.characters.
    destruct (BindingHandler.stack h) as [| elem rest] eqn:Hs; [reflexivity |].
    destruct (has_method elem "_characters") as [[] | e] eqn:Hm; [| reflexivity].
    destruct (BaseNode._characters elem (String ca a)) as [elem1 r1] eqn:H1.
    destruct r1 as [[] | e1].
    + cbn [BindingHandler.stack BindingHandler.typeDict BindingHandler.rootNode].
      assert (Hf : elem1 = fst (BaseNode._characters elem (String ca a)))
        by now rewrite H1.
      rewrite Hf, has_method_chars, Hm by discriminate.
      rewrite characters_twice by now rewrite H1.
      change (String ca a ++ String cb b)%string
        with (String ca (a ++ String cb b)).
      destruct (BaseNode._characters elem (String ca (a ++ String cb b)))
        as [elem2 [[] | e2]]; reflexivity.
    + destruct (characters_fail elem (String ca a)
                  (String ca (a ++ String cb b)) e1) as [Ha Hab];
        [now rewrite H1 |].
      rewrite Hab. rewrite Ha in H1. inversion H1; subst. reflexivity.
Qed.

(** ** Registered classes *)

(** The callbacks with one more class registered, for a tag that is
    not the one at hand. *)
Lemma characters_registered (h : BindingHandler.t) (key ch : string)
      (c : node_type) :
  BindingHandler.characters (BindingHandler.registerType h key c) ch
  = (BindingHandler.registerType (fst (BindingHandler.characters h ch)) key c,
     snd (BindingHandler.characters h ch)).
Proof.
  unfold BindingHandler.characters, BindingHandler.registerType.
  cbn [BindingHandler.stack BindingHandler.typeDict BindingHandler.rootNode].
  destruct (BindingHandler.stack h) as [| elem rest] eqn:Hs;
    cbn [fst snd BindingHandler.stack BindingHandler.typeDict
         BindingHandler.rootNode]; [now rewrite Hs |].
  destruct (has_method elem "_characters");
    cbn [fst snd BindingHandler.stack BindingHandler.typeDict
         BindingHandler.rootNode]; [| now rewrite Hs].
  now destruct (BaseNode._characters elem ch).
Qed.

Lemma endElement_registered (h : BindingHandler.t) (key name : string)
      (c : node_type) :
  BindingHandler.endElement (BindingHandler.registerType h key c) name
  = (BindingHandler.registerType (fst (BindingHandler.endElement h name)) key c,
     snd (BindingHandler.endElement h name)).
Proof.
  unfold BindingHandler.endElement, BindingHandler.registerType.
  cbn [BindingHandler.stack BindingHandler.typeDict BindingHandler.rootNode].
  destruct (BindingHandler.stack h) as [| elem [| top rest]] eqn:Hs;
    cbn [fst snd BindingHandler.stack BindingHandler.typeDict
         BindingHandler.rootNode]; [now rewrite Hs | reflexivity |].
  destruct (has_method top "_addChild");
    cbn [fst snd BindingHandler.stack BindingHandler.typeDict
         BindingHandler.rootNode]; [| reflexivity].
  now destruct (BaseNodeChildren._addChild top name elem).
Qed.

Lemma startElement_registered (h : BindingHandler.t) (key name : string)
      (attrs : list (string * string)) (c : node_type) :
  name <> key ->
  BindingHandler.startElement (BindingHandler.registerType h key c) name attrs
  = (BindingHandler.registerType
       (fst (BindingHandler.startElement h name attrs)) key c,
     snd (BindingHandler.startElement h name attrs)).
Proof.
  intros Hne. unfold BindingHandler.startElement, BindingHandler.registerType.
  cbn [BindingHandler.stack BindingHandler.typeDict BindingHandler.rootNode].
  rewrite (dict_get_set_other name key c _ Hne).
  now destruct (BindingHandler.hides_construction attrs).
Qed.

(** A class registered for a tag that does not occur leaves the parse
    as it is. *)
Lemma feed_registered (key : string) (c : node_type) (doc : xml) :
  tag_free key doc = true ->
  forall p h,
    Sax.feed doc p (BindingHandler.registerType h key c)
    = (BindingHandler.registerType (fst (Sax.feed doc p h)) key c,
       snd (Sax.feed doc p h)).
Proof.
  induction doc as [| tok doc IH]; intros Hfree p h.
  - cbn [Sax.feed]. now destruct (Sax.open_tags p), (Sax.root_seen p).
  - destruct tok as [| name attrs | data | name];
      cbn [Sax.feed tag_free] in *.
    + destruct (Sax.at_start p); [now apply IH | reflexivity].
    + apply andb_prop in Hfree. destruct Hfree as [Hname Hfree].
      apply negb_true_iff, String.eqb_neq in Hname.
      rewrite (startElement_registered h key name attrs c Hname).
      assert (Hgo :
        (if Sax.has_dup (map fst attrs)
         then (BindingHandler.registerType h key c, Raise SAXParseException)
         else
           match
             (BindingHandler.registerType
                (fst (BindingHandler.startElement h name attrs)) key c,
              snd (BindingHandler.startElement h name attrs))
           with
           | (h', Ok _) =>
               Sax.feed doc {| Sax.open_tags := name :: Sax.open_tags p;
                               Sax.root_seen := true; Sax.at_start := false |} h'
           | (h', Raise e) => (h', Raise e)
           end)
        = (BindingHandler.registerType
             (fst (if Sax.has_dup (map fst attrs)
                   then (h, Raise SAXParseException)
                   else
                     match BindingHandler.startElement h name attrs with
                     | (h', Ok _) =>
                         Sax.feed doc
                           {| Sax.open_tags := name :: Sax.open_tags p;
                              Sax.root_seen := true; Sax.at_start := false |} h'
                     | (h', Raise e) => (h', Raise e)
                     end)) key c,
           snd (if Sax.has_dup (map fst attrs)
                then (h, Raise SAXParseException)
                else
                  match BindingHandler.startElement h name attrs with
                  | (h', Ok _) =>
                      Sax.feed doc
                        {| Sax.open_tags := name :: Sax.open_tags p;
                           Sax.root_seen := true; Sax.at_start := false |} h'
                  | (h', Raise e) => (h', Raise e)
                  end))).
      { destruct (Sax.has_dup (map fst attrs)); [reflexivity |].
        destruct (BindingHandler.startElement h name attrs) as [h' [[] | e]];
          cbn [fst snd]; [now apply IH | reflexivity]. }
      destruct (Sax.open_tags p); [destruct (Sax.root_seen p) |];
        [reflexivity | exact Hgo | exact Hgo].
    + destruct (Sax.open_tags p) as [| t ts].
      * destruct (Sax.blank data); [now apply IH | reflexivity].
      * destruct data as [| ch data]; [now apply IH |].
        rewrite characters_registered.
        destruct (BindingHandler.characters h (String ch data))
          as [h' [[] | e]]; cbn [fst snd]; [now apply IH | reflexivity].
    + destruct (Sax.open_tags p) as [| t ts]; [reflexivity |].
      destruct (String.eqb t name); [| reflexivity].
      rewrite endElement_registered.
      destruct (BindingHandler.endElement h name) as [h' [[] | e]];
        cbn [fst snd]; [now apply IH | reflexivity].
Qed.

(** X2  A class registered for a tag bears on the elements with that
    tag and on nothing else: a document in which the tag does not occur
    is parsed to the same outcome with or without the registration.
    For an element with the tag, [startElement] pushes an instance of
    the class made from the registered class when no attribute name
    starts with an underscore; when an attribute is named [__new__],
    [__init__] or [__setattr__], and every other attribute name either
    is one of these or does not start with an underscore, it raises
    [TypeError] and leaves the handler as it was.  A later registration
    for a tag replaces an earlier one, and registering on a binder made
    from a dict comes to the binder made from the dict with the entry
    set. *)
Theorem X2_registerType (b : DataBinder.t) (key : string) (c c' : node_type) :
  (forall doc,
      tag_free key doc = true ->
      snd (DataBinder.parseString (DataBinder.registerType b key c) doc)
      = snd (DataBinder.parseString b doc)) /\
  (forall attrs,
      forallb (fun kv => negb (Py.startswith_ (fst kv))) attrs = true ->
      BindingHandler.startElement
        (DataBinder.contentHandler (DataBinder.registerType b key c)) key attrs
      = ({| BindingHandler.typeDict :=
              dict_set key c
                (BindingHandler.typeDict (DataBinder.contentHandler b));
            BindingHandler.stack :=
              BaseNode.__init__ (BindingHandler.element_class key c attrs)
                :: BindingHandler.stack (DataBinder.contentHandler b);
            BindingHandler.rootNode :=
              BindingHandler.rootNode (DataBinder.contentHandler b) |},
         Ok tt)) /\
  (forall attrs,
      existsb (fun kv => BindingHandler.construction_name (fst kv)) attrs
      = true ->
      forallb (fun kv => BindingHandler.construction_name (fst kv)
                         || negb (Py.startswith_ (fst kv))) attrs = true ->
      BindingHandler.startElement
        (DataBinder.contentHandler (DataBinder.registerType b key c)) key attrs
      = (DataBinder.contentHandler (DataBinder.registerType b key c),
         Raise TypeError)) /\
  DataBinder.registerType (DataBinder.registerType b key c') key c
  = DataBinder.registerType b key c /\
  (forall d,
      DataBinder.registerType (DataBinder.__init__ (Some d)) key c
      = DataBinder.__init__ (Some (dict_set key c d))).
Proof.
  split; [| split; [| split; [| split]]].
  - intros doc Hfree. unfold DataBinder.parseString, Sax.parse.
    cbn [DataBinder.registerType DataBinder.contentHandler].
    change (DataBinder.set_rootNode
              (BindingHandler.registerType (DataBinder.contentHandler b) key c)
              VNone)
      with (BindingHandler.registerType
              (DataBinder.set_rootNode (DataBinder.contentHandler b) VNone)
              key c).
    rewrite (feed_registered key c doc Hfree).
    destruct (Sax.feed doc Sax.initial
                (DataBinder.set_rootNode (DataBinder.contentHandler b) VNone))
      as [h1 [[] | e]]; reflexivity.
  - intros attrs Hpub. unfold BindingHandler.startElement.
    rewrite (public_attrs_construct attrs Hpub).
    cbn [DataBinder.registerType DataBinder.contentHandler
         BindingHandler.registerType BindingHandler.typeDict
         BindingHandler.stack BindingHandler.rootNode].
    now rewrite dict_get_set_same.
  - intros attrs Hhides _. unfold BindingHandler.startElement.
    unfold BindingHandler.hides_construction. now rewrite Hhides.
  - unfold DataBinder.registerType, BindingHandler.registerType.
    cbn [DataBinder.contentHandler BindingHandler.typeDict
         BindingHandler.stack BindingHandler.rootNode].
    now rewrite dict_set_set.
  - reflexivity.
Qed.

(** ** A binder after a parse that ended well *)

(** X3  A parse that ends well on a binder whose stack is empty
    leaves the content handler as it was, with no root node: every
    later parse on the binder gives what it gives on the binder
    before. *)
Theorem X3_binder_after_parse (b b' : DataBinder.t) (doc : xml) (v : value) :
  BindingHandler.stack (DataBinder.contentHandler b) = [] ->
  DataBinder.parseString b doc = (b', Ok v) ->
  DataBinder.contentHandler b'
  = DataBinder.set_rootNode (DataBinder.contentHandler b) VNone /\
  forall doc', DataBinder.parseString b' doc' = DataBinder.parseString b doc'.
Proof.
  intros Hs H.
  assert (Hc : DataBinder.contentHandler b'
               = DataBinder.set_rootNode (DataBinder.contentHandler b) VNone).
  { unfold DataBinder.parseString in H.
    destruct (Sax.parse (DataBinder.set_rootNode (DataBinder.contentHandler b)
                           VNone) doc) as [h1 [[] | e]] eqn:Hp;
      [| discriminate H].
    inversion H; subst. cbn [DataBinder.contentHandler].
    unfold Sax.parse in Hp. apply feed_ok in Hp.
    destruct Hp as [_ [Hlen Ht]].
    cbn [DataBinder.set_rootNode BindingHandler.stack BindingHandler.typeDict
         Sax.initial Sax.open_tags length] in Hlen, Ht.
    rewrite Hs in Hlen. cbn [length] in Hlen.
    destruct (BindingHandler.stack h1) as [| n st] eqn:Hs1;
      [| cbn [length] in Hlen; lia].
    unfold DataBinder.set_rootNode. now rewrite Hs1, Ht, Hs. }
  split; [exact Hc |].
  intros doc'. unfold DataBinder.parseString. rewrite Hc. reflexivity.
Qed.

Lemma X3_binder_after_parse_witness :
  DataBinder.contentHandler
    (fst (DataBinder.parseString (DataBinder.__init__ None)
            [TOpen "a" []; TText "1"; TClose "a"]))
  = DataBinder.set_rootNode
      (DataBinder.contentHandler (DataBinder.__init__ None)) VNone /\
  forall doc',
    DataBinder.parseString
      (fst (DataBinder.parseString (DataBinder.__init__ None)
              [TOpen "a" []; TText "1"; TClose "a"])) doc'
    = DataBinder.parseString (DataBinder.__init__ None) doc'.
Proof.
  apply (X3_binder_after_parse (DataBinder.__init__ None)
           (fst (DataBinder.parseString (DataBinder.__init__ None)
                   [TOpen "a" []; TText "1"; TClose "a"]))
           [TOpen "a" []; TText "1"; TClose "a"]
           (VObj (BindingHandler.element_class "a"
                    BindingHandler.BaseNode_class [])
                 [("_text", VStr "1")])).
  - reflexivity.
  - reflexivity.
Defined.

(** ** The root node *)

Lemma characters_class (self : node) (ch : string) :
  n_class (fst (BaseNode._characters self ch)) = n_class self.
Proof.
  unfold BaseNode._characters.
  destruct (getattr self "_text") as [[] |]; reflexivity.
Qed.

Lemma addChild_class (self : node) (name : string) (child : node) :
  n_class (fst (BaseNodeChildren._addChild self name child)) = n_class self.
Proof.
  unfold BaseNodeChildren._addChild.
  destruct (getattr self "_childOrder"); [| reflexivity].
  match goal with
  | |- context [dict_get "_childOrder" ?d1] =>
      destruct (dict_get "_childOrder" d1) as [[] |]; try reflexivity
  end.
  match goal with
  | |- context [getattr ?n "_singleChildren"] =>
      destruct (getattr n "_singleChildren") as [sc |]; [| reflexivity]
  end.
  destruct (py_in name sc) as [[] | e]; [| | reflexivity].
  - destruct (finalize child); reflexivity.
  - match goal with
    | |- context [dict_get name ?d2] =>
        destruct (dict_get name d2) as [[] |]; try reflexivity
    end; destruct (finalize child); reflexivity.
Qed.

Lemma bottom_top (n n' : node) (st : list node) :
  n_class n' = n_class n -> bottom (n' :: st) = bottom (n :: st).
Proof. intros H. cbn. now rewrite H. Qed.

Lemma bottom_some (n : node) (st : list node) :
  exists c, bottom (n :: st) = Some c.
Proof.
  revert n. induction st as [| m st IH]; intros n; [now eexists |].
  destruct (IH m) as [c Hc]. exists c. exact Hc.
Qed.

(** The node that becomes the root is the one at the bottom of the
    stack, or the one made for the first start tag; it is stored as it
    is. *)
Lemma feed_root (doc : xml) :
  forall p h h',
    Sax.feed doc p h = (h', Ok tt) ->
    length (BindingHandler.stack h) = length (Sax.open_tags p) ->
    (Sax.open_tags p <> [] -> Sax.root_seen p = true) ->
    match bottom (BindingHandler.stack h) with
    | Some c => exists d, BindingHandler.rootNode h' = VObj c d
    | None =>
        if Sax.root_seen p
        then BindingHandler.rootNode h' = BindingHandler.rootNode h
        else exists name attrs d,
            document_element doc = Some (name, attrs) /\
            BindingHandler.rootNode h'
            = VObj (BindingHandler.element_class name
                      (class_for (BindingHandler.typeDict h) name) attrs) d
    end.
Proof.
  induction doc as [| tok doc IH]; intros p h h' H Hlen Hseen.
  - cbn [Sax.feed] in H.
    destruct (Sax.open_tags p) as [| t ts] eqn:Ho; [| discriminate H].
    destruct (Sax.root_seen p); [| discriminate H].
    inversion H; subst.
    destruct (BindingHandler.stack h'); [reflexivity | discriminate Hlen].
  - destruct tok as [| name attrs | data | name]; cbn [Sax.feed] in H.
    + destruct (Sax.at_start p); [| discriminate H].
      apply IH in H; [| exact Hlen | exact Hseen].
      cbn [Sax.open_tags Sax.root_seen] in H.
      destruct (bottom (BindingHandler.stack h)); [exact H |].
      destruct (Sax.root_seen p); exact H.
    + assert (Hroot : Sax.open_tags p = [] -> Sax.root_seen p = false).
      { intros Ho. rewrite Ho in H.
        destruct (Sax.root_seen p); [discriminate H | reflexivity]. }
      assert (Hgo :
        (if Sax.has_dup (map fst attrs) then (h, Raise SAXParseException)
         else
           match BindingHandler.startElement h name attrs with
           | (h1, Ok _) =>
               Sax.feed doc {| Sax.open_tags := name :: Sax.open_tags p;
                               Sax.root_seen := true; Sax.at_start := false |} h1
           | (h1, Raise e) => (h1, Raise e)
           end) = (h', Ok tt)).
      { destruct (Sax.open_tags p); [destruct (Sax.root_seen p) |];
          [discriminate H | exact H | exact H]. }
      clear H. destruct (Sax.has_dup (map fst attrs)); [discriminate Hgo |].
      unfold BindingHandler.startElement in Hgo.
      destruct (BindingHandler.hides_construction attrs); [discriminate Hgo |].
      rename Hgo into H.
      apply IH in H;
        cbn [Sax.open_tags Sax.root_seen BindingHandler.stack length];
        [| now rewrite Hlen | reflexivity].
      cbn [BindingHandler.stack BindingHandler.rootNode
           BindingHandler.typeDict] in H.
      destruct (BindingHandler.stack h) as [| top st] eqn:Hs.
      * cbn [bottom] in H |- *.
        destruct (Sax.open_tags p); [| discriminate Hlen].
        rewrite Hroot by reflexivity.
        destruct H as [d Hd]. exists name, attrs, d. split; [reflexivity |].
        exact Hd.
      * change (bottom (BaseNode.__init__
                          (BindingHandler.element_class name
                             match dict_get name (BindingHandler.typeDict h) with
                             | Some c => c
                             | None => BindingHandler.BaseNode_class
                             end attrs) :: top :: st))
          with (bottom (top :: st)) in H.
        destruct (bottom_some top st) as [c Hc]. rewrite Hc in H |- *.
        exact H.
    + destruct (Sax.open_tags p) as [| t ts] eqn:Ho.
      * destruct (Sax.blank data); [| discriminate H].
        apply IH in H;
          [| cbn [Sax.open_tags]; exact Hlen
           | cbn [Sax.open_tags]; intros Hn; now elim Hn].
        cbn [Sax.open_tags Sax.root_seen] in H.
        destruct (bottom (BindingHandler.stack h)); [exact H |].
        destruct (Sax.root_seen p); [exact H |].
        cbn [document_element]. exact H.
      * destruct data as [| c data].
        -- apply IH in H; cbn [Sax.open_tags Sax.root_seen];
             [| now rewrite Hlen | intros _; apply Hseen; discriminate].
           cbn [Sax.root_seen] in H. rewrite Hseen in H |- * by discriminate.
           exact H.
        -- unfold BindingHandler.characters in H.
           destruct (BindingHandler.stack h) as [| elem rest] eqn:Hs;
             [discriminate H |].
           destruct (has_method elem "_characters"); [| discriminate H].
           pose proof (characters_class elem (String c data)) as Hc.
           destruct (BaseNode._characters elem (String c data))
             as [elem' [[] | e]]; [| discriminate H].
           cbn [fst] in Hc.
           apply IH in H;
             cbn [Sax.open_tags Sax.root_seen BindingHandler.stack];
             [| exact Hlen | intros _; apply Hseen; discriminate].
           cbn [Sax.root_seen BindingHandler.stack BindingHandler.rootNode
                BindingHandler.typeDict] in H.
           rewrite (bottom_top elem elem' rest Hc) in H.
           rewrite Hseen in H |- * by discriminate. exact H.
    + destruct (Sax.open_tags p) as [| t ts] eqn:Ho; [discriminate H |].
      destruct (String.eqb t name); [| discriminate H].
      unfold BindingHandler.endElement in H.
      destruct (BindingHandler.stack h) as [| elem [| top rest]] eqn:Hs;
        [discriminate H | |].
      * apply IH in H;
          cbn [Sax.open_tags Sax.root_seen BindingHandler.stack];
          [| cbn [length] in Hlen |- *; lia
           | intros _; apply Hseen; discriminate].
        cbn [Sax.root_seen BindingHandler.stack BindingHandler.rootNode bottom]
          in H.
        rewrite Hseen in H by discriminate.
        cbn [bottom]. exists (n_dict elem). exact H.
      * destruct (has_method top "_addChild"); [| discriminate H].
        pose proof (addChild_class top name elem) as Hc.
        destruct (BaseNodeChildren._addChild top name elem)
          as [top' [[] | e]]; [| discriminate H].
        cbn [fst] in Hc.
        apply IH in H;
          cbn [Sax.open_tags Sax.root_seen BindingHandler.stack];
          [| cbn [length] in Hlen |- *; lia
           | intros _; apply Hseen; discriminate].
        cbn [Sax.root_seen BindingHandler.stack BindingHandler.rootNode
             BindingHandler.typeDict] in H.
        rewrite (bottom_top top top' rest Hc) in H.
        change (bottom (elem :: top :: rest)) with (bottom (top :: rest)).
        exact H.
Qed.

(** X4  The root is never finalized.  From an empty stack, what
    [parseString] returns is an instance of the class made for the
    document element (named after its tag, derived from the class
    registered for the tag, with the XML attributes as class
    attributes), whatever class is registered: an [IntegerNode] root
    comes back as a node, not as an integer. *)
Theorem X4_root_not_finalized (b b' : DataBinder.t) (doc : xml) (v : value) :
  BindingHandler.stack (DataBinder.contentHandler b) = [] ->
  DataBinder.parseString b doc = (b', Ok v) ->
  exists name attrs d,
    document_element doc = Some (name, attrs) /\
    v = VObj (BindingHandler.element_class name
                (class_for (BindingHandler.typeDict
                              (DataBinder.contentHandler b)) name) attrs) d.
Proof.
  intros Hs H. unfold DataBinder.parseString in H.
  destruct (Sax.parse (DataBinder.set_rootNode (DataBinder.contentHandler b)
                         VNone) doc) as [h1 [[] | e]] eqn:Hp;
    [| discriminate H].
  inversion H; subst. unfold Sax.parse in Hp.
  apply feed_root in Hp.
  - cbn [DataBinder.set_rootNode BindingHandler.stack Sax.initial
         Sax.root_seen BindingHandler.typeDict] in Hp.
    rewrite Hs in Hp. exact Hp.
  - cbn. now rewrite Hs.
  - cbn. intros Hn. now elim Hn.
Qed.

Lemma X4_root_not_finalized_witness :
  exists name attrs d,
    document_element [TOpen "n" []; TText "7"; TClose "n"]
    = Some (name, attrs) /\
    VObj (BindingHandler.element_class "n" IntegerNode_class [])
         [("_text", VStr "7")]
    = VObj (BindingHandler.element_class name
              (class_for
                 (BindingHandler.typeDict
                    (DataBinder.contentHandler
                       (DataBinder.registerType (DataBinder.__init__ None)
                          "n" IntegerNode_class))) name) attrs) d.
Proof.
  apply (X4_root_not_finalized
           (DataBinder.registerType (DataBinder.__init__ None) "n"
              IntegerNode_class)
           (fst (DataBinder.parseString
                   (DataBinder.registerType (DataBinder.__init__ None) "n"
                      IntegerNode_class)
                   [TOpen "n" []; TText "7"; TClose "n"]))).
  - reflexivity.
  - reflexivity.
Defined.

(** ** What the serializer reads of an instance *)

Lemma public_set_private {B : Type} (k : string) (v : B)
      (d : list (string * B)) :
  Py.startswith_ k = true -> public (dict_set k v d) = public d.
Proof.
  intros Hk. unfold public. induction d as [| [k' v'] d IH].
  - cbn [dict_set filter fst]. now rewrite Hk.
  - cbn [dict_set]. destruct (String.eqb_spec k k') as [<- | Hne].
    + cbn [filter fst]. now rewrite Hk.
    + cbn [filter fst]. now rewrite IH.
Qed.

(** The instance branch reads the public fields, [_childOrder] and
    [_text], and nothing else of the [__dict__]. *)
Lemma object_tree_reads (c : pyclass) (d d' : fields) (name : option string) :
  public d = public d' ->
  getattr_of c d "_childOrder" = getattr_of c d' "_childOrder" ->
  getattr_of c d "_text" = getattr_of c d' "_text" ->
  object_tree c d name = object_tree c d' name.
Proof.
  intros Hp Ho Ht. unfold object_tree, ordering, with_text, child_tree.
  cbn [Serializer.element_name Serializer.class_name].
  rewrite Hp, Ho, Ht. reflexivity.
Qed.

(** X5  Fields whose names start with an underscore are never
    written: setting one (other than [_childOrder] and [_text], which
    steer the output) to any value leaves the tree built for the
    instance as it was. *)
Theorem X5_private_fields_not_written (c : pyclass) (d : fields)
        (k : string) (v : value) (name : option string) :
  Py.startswith_ k = true -> k <> "_childOrder" -> k <> "_text" ->
  Serializer._to_etree_r (VObj c (dict_set k v d)) name
  = Serializer._to_etree_r (VObj c d) name.
Proof.
  intros Hk Ho Ht. rewrite !to_etree_object.
  apply object_tree_reads.
  - now apply public_set_private.
  - apply getattr_of_set_other. congruence.
  - apply getattr_of_set_other. congruence.
Qed.

Lemma X5_private_fields_not_written_witness :
  Serializer._to_etree_r
    (VObj plain_class (dict_set "_cache" (VInt 3) ab_fields)) None
  = Serializer._to_etree_r (VObj plain_class ab_fields) None.
Proof.
  apply (X5_private_fields_not_written plain_class ab_fields "_cache"
           (VInt 3) None).
  - reflexivity.
  - discriminate.
  - discriminate.
Defined.

(** ** [None] cannot be written *)

Lemma all_ok_raise {A B : Type} (f : A -> result B) (xs : list A) (x : A)
      (e : exn) :
  In x xs -> f x = Raise e -> exists e', Serializer.all_ok (map f xs) = Raise e'.
Proof.
  intros Hin Hx. induction xs as [| y xs IH]; [contradiction |].
  cbn [map Serializer.all_ok].
  destruct Hin as [-> | Hin].
  - rewrite Hx. now eexists.
  - destruct (f y) as [b | e0]; [| now eexists].
    destruct (IH Hin) as [e' He']. rewrite He'. now eexists.
Qed.

Lemma add_all_raise (trees : list (result etree)) (e : exn) :
  In (Raise e) trees ->
  forall elem, exists e', Serializer.add_all elem trees = Raise e'.
Proof.
  induction trees as [| t trees IH]; intros Hin elem; [contradiction |].
  cbn [Serializer.add_all].
  destruct Hin as [-> | Hin]; [now eexists |].
  destruct t as [t' | e0]; [| now eexists].
  cbn [bind]. destruct (Serializer._etree_add elem t') as [e1 | e1];
    [| now eexists].
  apply (IH Hin).
Qed.

Lemma keyed_items (order : value) (items : list string) :
  forall ks, Serializer.keyed order items = Ok ks -> map snd ks = items.
Proof.
  induction items as [| x items IH]; intros ks H; cbn [Serializer.keyed] in H.
  - inversion H. reflexivity.
  - unfold Serializer.sort_key in H.
    destruct (py_in x order) as [[] | e]; cbn [bind] in H; [| | discriminate H].
    + destruct (Serializer.py_index x order) as [i | e]; cbn [bind] in H;
        [| discriminate H].
      destruct (Serializer.keyed order items) as [ks' | e]; cbn [bind] in H;
        [| discriminate H].
      inversion H; subst. cbn. now rewrite (IH ks').
    + destruct (Serializer.keyed order items) as [ks' | e]; cbn [bind] in H;
        [| discriminate H].
      inversion H; subst. cbn. now rewrite (IH ks').
Qed.

(** [_getChildOrder] returns the items it was given, in some order. *)
Lemma getChildOrder_items (items : list string) (order : value)
      (l : list string) :
  Serializer._getChildOrder items order = Ok l -> Permutation l items.
Proof.
  unfold Serializer._getChildOrder.
  destruct (Serializer.keyed order items) as [ks |] eqn:Hk; cbn [bind];
    [| discriminate].
  intros H. inversion H; subst.
  rewrite <- (keyed_items order items ks Hk).
  apply Permutation_map, sorted_perm.
Qed.

(** Whatever holds [None] where the serializer looks makes it raise. *)
Lemma holds_none_raises (x : value) :
  holds_none x ->
  forall name, exists e, Serializer._to_etree_r x name = Raise e.
Proof.
  induction 1 as [| obj xs x Hm Hin Hx IH | d k v Hin Hv IH
                  | c d k v Hget Hv IH]; intros name.
  - cbn [Serializer._to_etree_r].
    destruct (Etree.Element_ _); cbn [bind]; now eexists.
  - rewrite (to_etree_sequence obj xs name Hm).
    destruct (Etree.Element_ _); cbn [bind]; [| now eexists].
    destruct (IH name) as [e He].
    destruct (all_ok_raise (fun c => Serializer._to_etree_r c name) xs x e
                Hin He) as [e' He'].
    rewrite He'. now eexists.
  - rewrite to_etree_dict.
    destruct (Etree.Element_ _) as [elem |]; cbn [bind]; [| now eexists].
    destruct (IH (Some k)) as [e He].
    destruct (add_all_raise
                (map (fun kv => Serializer._to_etree_r (snd kv) (Some (fst kv)))
                     (sorted Serializer.entry_le d)) e) with (elem := elem)
      as [e' He'].
    { apply in_map_iff. exists (k, v). split; [exact He |].
      apply (Permutation_in _ (Permutation_sym (sorted_perm _ d))), Hin. }
    rewrite He'. now eexists.
  - rewrite to_etree_object. unfold object_tree.
    destruct (Etree.Element_ _) as [elem |]; cbn [bind]; [| now eexists].
    destruct (Etree.attrib_update elem _) as [elem1 |]; cbn [bind];
      [| now eexists].
    destruct (Serializer._getChildOrder (keys (public d)) (ordering c d))
      as [l |] eqn:Hl; cbn [bind]; [| now eexists].
    destruct (IH (Some k)) as [e He].
    destruct (add_all_raise (map (child_tree d) l) e) with (elem := elem1)
      as [e' He'].
    { apply in_map_iff. exists k. split.
      - unfold child_tree. rewrite Hget. exact He.
      - apply (Permutation_in _ (Permutation_sym (getChildOrder_items _ _ _ Hl))).
        apply dict_get_in in Hget. unfold keys.
        apply in_map_iff. exists (k, v). split; [reflexivity | exact Hget]. }
    rewrite He'. now eexists.
Qed.

(** X6  [None] cannot be written: whenever [None] is the object, a
    member of a sequence, a value of a dict or a public field of an
    instance, at any depth, [_to_etree_r] raises. *)
Theorem X6_none_not_written (x : value) :
  holds_none x ->
  forall name, exists e, Serializer._to_etree_r x name = Raise e.
Proof. apply holds_none_raises. Qed.

Lemma X6_none_not_written_witness :
  exists e,
    Serializer._to_etree_r
      (VDict [("a", VList [VInt 1; VNone])]) (Some "root") = Raise e.
Proof.
  apply (X6_none_not_written (VDict [("a", VList [VInt 1; VNone])])).
  apply (none_value _ "a" (VList [VInt 1; VNone])); [now left |].
  apply (none_member _ [VInt 1; VNone] VNone);
    [reflexivity | right; now left | apply none_here].
Defined.

(** ** Boolean nodes *)

Lemma lstrip_white (ws s : string) :
  white ws = true -> Py.lstrip (ws ++ s) = Py.lstrip s.
Proof.
  induction ws as [| c ws IH]; [reflexivity |].
  cbn [white]. intros H. apply andb_prop in H. destruct H as [Hc Hw].
  cbn [String.append Py.lstrip]. rewrite Hc. now apply IH.
Qed.

Lemma rstrip_white (ws : string) : white ws = true -> Py.rstrip ws = "".
Proof.
  induction ws as [| c ws IH]; [reflexivity |].
  cbn [white]. intros H. apply andb_prop in H. destruct H as [Hc Hw].
  cbn [Py.rstrip]. rewrite (IH Hw), Hc. reflexivity.
Qed.

Lemma rstrip_app_white (s ws : string) :
  white ws = true -> Py.rstrip (s ++ ws) = Py.rstrip s.
Proof.
  intros Hw. induction s as [| c s IH].
  - cbn. now apply rstrip_white.
  - cbn [String.append Py.rstrip]. now rewrite IH.
Qed.

Lemma strip_white (pre s post : string) :
  white pre = true -> white post = true ->
  Py.strip (pre ++ s ++ post) = Py.strip s.
Proof.
  intros Hpre Hpost. unfold Py.strip. rewrite (lstrip_white pre _ Hpre).
  induction s as [| c s IH].
  - cbn [String.append]. rewrite <- (lstrip_white post "" Hpost).
    assert (H : (post ++ "")%string = post).
    { clear. induction post as [| x post IH]; [reflexivity |].
      cbn. now rewrite IH. }
    rewrite H. clear H.
    assert (H : Py.lstrip post = "").
    { clear - Hpost. induction post as [| x post IH]; [reflexivity |].
      cbn [white] in Hpost. apply andb_prop in Hpost.
      destruct Hpost as [Hx Hp]. cbn [Py.lstrip]. rewrite Hx. now apply IH. }
    now rewrite H.
  - cbn [String.append Py.lstrip]. destruct (Py.isspace c); [exact IH |].
    change (String c (s ++ post)) with (String c s ++ post)%string.
    now apply rstrip_app_white.
Qed.

Lemma upper_app (a b : string) :
  Py.upper (a ++ b) = (Py.upper a ++ Py.upper b)%string.
Proof. induction a as [| c a IH]; [reflexivity |]. cbn. now rewrite IH. Qed.

Lemma upper_space (c : ascii) : Py.isspace c = true -> Py.upper_char c = c.
Proof.
  unfold Py.isspace, Py.upper_char. cbv zeta. intros H.
  destruct ((97 <=? nat_of_ascii c)%nat && (nat_of_ascii c <=? 122)%nat) eqn:E;
    [| reflexivity].
  apply andb_prop in E. destruct E as [E1 E2].
  apply Nat.leb_le in E1. apply Nat.leb_le in E2.
  apply orb_prop in H. destruct H as [H | H].
  - apply Nat.eqb_eq in H. lia.
  - apply andb_prop in H. destruct H as [_ H]. apply Nat.leb_le in H. lia.
Qed.

Lemma upper_white (ws : string) : white ws = true -> Py.upper ws = ws.
Proof.
  induction ws as [| c ws IH]; [reflexivity |].
  cbn [white]. intros H. apply andb_prop in H. destruct H as [Hc Hw].
  cbn [Py.upper]. now rewrite (upper_space c Hc), (IH Hw).
Qed.

(** X7  A boolean node always yields a boolean on the text it has
    received, and the boolean depends neither on white space around
    the text nor on the case of its letters. *)
Theorem X7_boolean_finalize (c : pyclass) (pre s s' post : string) :
  white pre = true -> white post = true -> Py.upper s = Py.upper s' ->
  BooleanNode._finalize (text_node c (pre ++ s ++ post))
  = BooleanNode._finalize (text_node c s') /\
  exists b, BooleanNode._finalize (text_node c s') = Ok (VBool b).
Proof.
  intros Hpre Hpost Hs. unfold BooleanNode._finalize.
  rewrite !text_node_text. split; [| now eexists].
  rewrite !upper_app, (upper_white pre Hpre), (upper_white post Hpost), Hs.
  now rewrite (strip_white pre (Py.upper s') post Hpre Hpost).
Qed.

Lemma X7_boolean_finalize_witness :
  BooleanNode._finalize (text_node plain_class (" " ++ "True" ++ " "))
  = BooleanNode._finalize (text_node plain_class "tRUE") /\
  exists b, BooleanNode._finalize (text_node plain_class "tRUE")
            = Ok (VBool b).
Proof.
  apply (X7_boolean_finalize plain_class " " "True" "tRUE" " ");
    reflexivity.
Defined.

(** ** Integers written and read *)

Lemma digits_acc (d : Decimal.uint) :
  forall p, Py.digits (NilEmpty.string_of_uint d) (Z.pos p)
            = Some (Z.pos (Pos.of_uint_acc d p)).
Proof.
  induction d; intros p; cbn [NilEmpty.string_of_uint Pos.of_uint_acc];
    [reflexivity | ..];
    (cbn [Py.digits]; match goal with
     | |- context [Py.digit ?c] =>
         change (Py.digit c) with (Some (Z.of_nat (nat_of_ascii c - 48)))
     end; cbv iota beta; rewrite <- IHd; f_equal;
     vm_compute (Z.of_nat _); lia).
Qed.

Lemma digits_uint (d : Decimal.uint) :
  Py.digits (NilEmpty.string_of_uint d) 0 = Some (Z.of_N (Pos.of_uint d)).
Proof.
  induction d; cbn [NilEmpty.string_of_uint Pos.of_uint];
    [reflexivity | exact IHd | ..];
    (cbn [Py.digits]; match goal with
     | |- context [Py.digit ?c] =>
         change (Py.digit c) with (Some (Z.of_nat (nat_of_ascii c - 48)))
     end; cbv iota beta; cbn [Z.of_N]; rewrite <- digits_acc; f_equal).
Qed.

Lemma unsigned_uint (p : positive) :
  Py.unsigned (NilEmpty.string_of_uint (Pos.to_uint p)) = Some (Z.pos p).
Proof.
  unfold Py.unsigned.
  pose proof (digits_uint (Pos.to_uint p)) as H.
  rewrite Unsigned.of_to in H. cbn [Z.of_N] in H.
  pose proof (Unsigned.to_uint_nonnil p) as Hn.
  destruct (Pos.to_uint p); [now elim Hn | ..]; exact H.
Qed.

Lemma rstrip_solid (s : string) :
  Etree.all_chars (fun c => negb (Py.isspace c)) s = true -> Py.rstrip s = s.
Proof.
  induction s as [| c s IH]; [reflexivity |].
  cbn [Etree.all_chars]. intros H. apply andb_prop in H. destruct H as [Hc Hs].
  cbn [Py.rstrip]. rewrite (IH Hs). destruct s; [| reflexivity].
  apply negb_true_iff in Hc. now rewrite Hc.
Qed.

Lemma strip_solid (s : string) :
  Etree.all_chars (fun c => negb (Py.isspace c)) s = true -> Py.strip s = s.
Proof.
  intros H. unfold Py.strip.
  assert (Hl : Py.lstrip s = s).
  { destruct s as [| c s]; [reflexivity |]. cbn [Etree.all_chars] in H.
    apply andb_prop in H. destruct H as [Hc _]. apply negb_true_iff in Hc.
    cbn [Py.lstrip]. now rewrite Hc. }
  rewrite Hl. now apply rstrip_solid.
Qed.

Lemma uint_solid (d : Decimal.uint) :
  Etree.all_chars (fun c => negb (Py.isspace c)) (NilEmpty.string_of_uint d)
  = true.
Proof. induction d; cbn; auto. Qed.

(** [int(str(z))] is [z]. *)
Lemma int_str_int (z : Z) : Py.int (Py.str_int z) = Some z.
Proof.
  unfold Py.str_int, Py.int. destruct z as [| p | p]; [reflexivity | |].
  - cbn [Z.to_int NilZero.string_of_int].
    assert (Hs : NilZero.string_of_uint (Pos.to_uint p)
                 = NilEmpty.string_of_uint (Pos.to_uint p)).
    { unfold NilZero.string_of_uint.
      pose proof (Unsigned.to_uint_nonnil p) as Hn.
      destruct (Pos.to_uint p); [now elim Hn | ..]; reflexivity. }
    rewrite Hs, (strip_solid _ (uint_solid _)).
    pose proof (unsigned_uint p) as H.
    pose proof (Unsigned.to_uint_nonnil p) as Hn.
    destruct (Pos.to_uint p); [now elim Hn | ..]; exact H.
  - cbn [Z.to_int NilZero.string_of_int].
    assert (Hs : NilZero.string_of_uint (Pos.to_uint p)
                 = NilEmpty.string_of_uint (Pos.to_uint p)).
    { unfold NilZero.string_of_uint.
      pose proof (Unsigned.to_uint_nonnil p) as Hn.
      destruct (Pos.to_uint p); [now elim Hn | ..]; reflexivity. }
    rewrite Hs.
    assert (Hsolid : Etree.all_chars (fun c => negb (Py.isspace c))
                       (String "-" (NilEmpty.string_of_uint (Pos.to_uint p)))
                     = true).
    { cbn [Etree.all_chars]. now rewrite uint_solid. }
    rewrite (strip_solid _ Hsolid), unsigned_uint. reflexivity.
Qed.

(** ** Scalars written and read with their node class *)

Lemma has_method_ok (n : node) (m : string) (nt : node_type) :
  c_base (n_class n) = Some nt ->
  dict_get m (n_dict n) = None ->
  dict_get m (c_attrs (n_class n)) = None ->
  has_method n m = Ok tt.
Proof.
  intros Hb Hd Hc. unfold has_method, dict_has. now rewrite Hb, Hd, Hc.
Qed.

Lemma private_differs (a b : string) :
  Py.startswith_ a = true -> Py.startswith_ b = false ->
  String.eqb a b = false /\ String.eqb b a = false.
Proof.
  intros Ha Hb. split; apply String.eqb_neq; intros E; subst; congruence.
Qed.

Lemma key_ok_public (k : string) :
  key_ok k = true -> Py.startswith_ k = false /\ Etree.valid_name k = true.
Proof.
  unfold key_ok. intros H. apply andb_prop in H. destruct H as [Hv Hp].
  apply negb_true_iff in Hp. now split.
Qed.

Lemma element_name_key (x : value) (k : string) :
  Etree.valid_name k = true -> Serializer.element_name x (Some k) = k.
Proof.
  intros H. destruct k as [| a k]; [discriminate H |]. reflexivity.
Qed.

(** The text a scalar is written as is read back as the scalar by the
    node class of its type. *)
Lemma reader_finalize (x : value) (T : node_type) (t k : string) :
  reader x = Some T -> scalar_text x = Some t ->
  finalize (text_node (BindingHandler.element_class k T []) t) = Ok x.
Proof.
  destruct x; try discriminate; intros HT Ht;
    inversion HT; subst T; inversion Ht; subst t.
  - destruct b; reflexivity.
  - unfold finalize.
    change (has_method _ "_finalize") with (Ok tt). cbn [bind].
    cbn [n_class text_node BaseNode._characters fst c_base
         BindingHandler.element_class IntegerNode_class nt_kind].
    unfold IntegerNode._finalize. rewrite text_node_text.
    pose proof (int_str_int z) as Hz.
    destruct (Py.str_int z) as [| c s] eqn:Hs; [discriminate Hz |].
    cbn [truthy String.eqb negb IntegerNode.int_of]. rewrite Hz. cbn [bind].
    destruct (Z.eqb_spec z 0) as [-> | _]; reflexivity.
  - reflexivity.
Qed.

Lemma typed_read (k r t : string) (T : node_type) (v : value) :
  key_ok k = true -> nt_single T = [] ->
  finalize (text_node (BindingHandler.element_class k T []) t) = Ok v ->
  exists c d,
    snd (DataBinder.parseString
           (DataBinder.registerType (DataBinder.__init__ None) k T)
           ([TDecl; TOpen r []; TText (Etree.newline ++ Etree.indent 1);
             TOpen k []] ++ Etree.text_tokens (Some t)
              ++ [TClose k; TText (Etree.newline ++ Etree.indent 0);
                  TClose r]))
    = Ok (VObj c d) /\
    dict_get k d = Some (VList [v]).
Proof.
  intros Hk HT Hv.
  destruct (key_ok_public k Hk) as [Hpub _].
  destruct (private_differs "_text" k eq_refl Hpub) as [_ Ht].
  destruct (private_differs "_childOrder" k eq_refl Hpub) as [_ Ho].
  destruct (private_differs "_characters" k eq_refl Hpub) as [Hc _].
  unfold DataBinder.parseString, Sax.parse.
  cbn [DataBinder.registerType DataBinder.__init__ DataBinder.contentHandler
       BindingHandler.registerType BindingHandler.__init__
       DataBinder.set_rootNode BindingHandler.typeDict BindingHandler.stack
       BindingHandler.rootNode dict_set app].
  cbn [Sax.feed Sax.initial Sax.at_start Sax.open_tags Sax.root_seen
       Sax.has_dup map BindingHandler.startElement
       BindingHandler.hides_construction existsb
       BindingHandler.typeDict BindingHandler.stack BindingHandler.rootNode].
  set (nt := match dict_get r [(k, T)] with
             | Some c => c
             | None => BindingHandler.BaseNode_class
             end).
  assert (Hnt : nt_single nt = []).
  { unfold nt. cbn [dict_get]. now destruct (String.eqb r k). }
  cbn [Etree.newline Etree.indent String.append].
  set (nl2 := String (ascii_of_nat 10) "  ").
  set (nl := String (ascii_of_nat 10) "").
  (* the end of line after the start tag of the root *)
  change (BindingHandler.characters _ nl2)
    with ({| BindingHandler.typeDict := [(k, T)];
             BindingHandler.stack :=
               [text_node (BindingHandler.element_class r nt []) nl2];
             BindingHandler.rootNode := VNone |}, Ok tt).
  cbv beta iota.
  cbn [Sax.feed Sax.open_tags Sax.root_seen Sax.has_dup map
       BindingHandler.startElement BindingHandler.hides_construction existsb
       BindingHandler.typeDict
       BindingHandler.stack BindingHandler.rootNode dict_get].
  rewrite String.eqb_refl.
  set (R := text_node (BindingHandler.element_class r nt []) nl2).
  (* the text of the child *)
  assert (Htext : forall rest,
             Sax.feed (Etree.text_tokens (Some t) ++ rest)
               {| Sax.open_tags := [k; r]; Sax.root_seen := true;
                  Sax.at_start := false |}
               {| BindingHandler.typeDict := [(k, T)];
                  BindingHandler.stack :=
                    [BaseNode.__init__ (BindingHandler.element_class k T []); R];
                  BindingHandler.rootNode := VNone |}
             = Sax.feed rest
                 {| Sax.open_tags := [k; r]; Sax.root_seen := true;
                    Sax.at_start := false |}
                 {| BindingHandler.typeDict := [(k, T)];
                    BindingHandler.stack :=
                      [text_node (BindingHandler.element_class k T []) t; R];
                    BindingHandler.rootNode := VNone |}).
  { intros rest. destruct t as [| a t]; reflexivity. }
  rewrite Htext. clear Htext.
  (* the end tag of the child *)
  cbn [Sax.feed Sax.open_tags Sax.root_seen]. rewrite String.eqb_refl.
  unfold BindingHandler.endElement.
  cbn [BindingHandler.stack BindingHandler.typeDict BindingHandler.rootNode].
  change (has_method R "_addChild") with (Ok tt). cbv beta iota.
  rewrite (addChild_noted R _ k nt)
    by (split; [reflexivity | split; [reflexivity | left; reflexivity]]).
  cbv zeta. rewrite Hnt. cbn [map existsb].
  change (noted (n_dict R) k)
    with [("_text", VStr nl2); ("_childOrder", VList [VStr k])].
  cbn [dict_get]. rewrite Ht, Ho, Hv.
  cbn [dict_set]. rewrite Ht, Ho.
  (* the end of line before the end tag of the root *)
  cbn [Sax.feed Sax.open_tags Sax.root_seen].
  unfold BindingHandler.characters.
  cbn [BindingHandler.stack BindingHandler.typeDict BindingHandler.rootNode].
  rewrite (has_method_ok _ "_characters" nt);
    [| reflexivity
     | cbn [BaseNodeChildren.with_dict n_dict dict_get]; now rewrite Hc
     | reflexivity].
  unfold BaseNode._characters, getattr, getattr_of.
  cbn [BaseNodeChildren.with_dict n_dict n_class dict_get String.eqb
       Ascii.eqb Bool.eqb].
  cbn [dict_set String.eqb Ascii.eqb Bool.eqb].
  (* the end tag of the root *)
  cbn [Sax.feed Sax.open_tags Sax.root_seen]. rewrite String.eqb_refl.
  unfold BindingHandler.endElement.
  cbn [BindingHandler.stack BindingHandler.typeDict BindingHandler.rootNode
       Sax.feed Sax.open_tags Sax.root_seen snd obj n_class n_dict].
  eexists _, _. split; [reflexivity |].
  cbn [dict_get n_dict]. now rewrite Ht, Ho, String.eqb_refl.
Qed.

(** X8  A boolean, an integer or a string written under a tag and
    read with [BooleanNode], [IntegerNode] or [StringNode] registered
    for the tag comes back as the same value: the root node that
    [parseString] returns holds, under the tag, the list of that one
    value. *)
Theorem X8_scalar_round_trip (x : value) (T : node_type) (k r : string) :
  reader x = Some T -> writable x = true ->
  key_ok k = true -> key_ok r = true ->
  exists data c d,
    Serializer.toXml (VDict [(k, x)]) (Some r) = Ok data /\
    snd (DataBinder.parseString
           (DataBinder.registerType (DataBinder.__init__ None) k T) data)
    = Ok (VObj c d) /\
    dict_get k d = Some (VList [x]).
Proof.
  intros HT Hw Hk Hr.
  destruct (key_ok_public k Hk) as [_ Hkv].
  destruct (key_ok_public r Hr) as [_ Hrv].
  assert (Ht : exists t, scalar_text x = Some t /\ Etree.valid_text t = true /\
                         Serializer._to_etree_r x (Some k)
                         = Ok (Single (Element k [] (Some t) []))).
  { destruct x; try discriminate HT; eexists; (split; [reflexivity |]).
    - assert (Hb : Etree.valid_text (if b then "true" else "false") = true)
        by now destruct b.
      split; [exact Hb |]. cbn [Serializer._to_etree_r].
      rewrite (element_name_key _ k Hkv). unfold Etree.Element_.
      rewrite Hkv. cbn [bind]. unfold Etree.set_text. now rewrite Hb.
    - split; [apply str_int_valid |]. cbn [Serializer._to_etree_r].
      rewrite (element_name_key _ k Hkv). unfold Etree.Element_.
      rewrite Hkv. cbn [bind]. unfold Etree.set_text.
      now rewrite str_int_valid.
    - cbn [writable] in Hw. split; [exact Hw |]. cbn [Serializer._to_etree_r].
      rewrite (element_name_key _ k Hkv). unfold Etree.Element_.
      rewrite Hkv. cbn [bind]. unfold Etree.set_text. now rewrite Hw. }
  destruct Ht as [t [Hst [Hvt Htree]]].
  assert (HTs : nt_single T = []).
  { destruct x; try discriminate HT; inversion HT; reflexivity. }
  destruct (typed_read k r t T x Hk HTs (reader_finalize x T t k HT Hst))
    as [c [d [Hparse Hget]]].
  exists ([TDecl; TOpen r []; TText (Etree.newline ++ Etree.indent 1);
           TOpen k []] ++ Etree.text_tokens (Some t)
            ++ [TClose k; TText (Etree.newline ++ Etree.indent 0); TClose r]),
    c, d.
  split; [| split; [exact Hparse | exact Hget]].
  unfold Serializer.toXml. rewrite to_etree_dict.
  rewrite (element_name_key _ r Hrv). unfold Etree.Element_. rewrite Hrv.
  cbn [bind sorted fold_right insert map fst snd Serializer.add_all].
  rewrite Htree.
  cbn [bind Serializer._etree_add Etree.append app Serializer.add_all
       Etree.tostring Etree.pretty Etree.compact].
  now rewrite app_nil_r, <- app_assoc.
Qed.

Lemma X8_scalar_round_trip_witness :
  exists data c d,
    Serializer.toXml (VDict [("n", VInt (-12))]) (Some "root") = Ok data /\
    snd (DataBinder.parseString
           (DataBinder.registerType (DataBinder.__init__ None) "n"
              IntegerNode_class) data)
    = Ok (VObj c d) /\
    dict_get "n" d = Some (VList [VInt (-12)]).
Proof.
  apply (X8_scalar_round_trip (VInt (-12)) IntegerNode_class "n" "root");
    reflexivity.
Defined.

(** ** A document parsed and written again *)

Lemma element_ind' (P : element -> Prop) :
  (forall t a x cs, Forall P cs -> P (Element t a x cs)) ->
  forall e, P e.
Proof.
  intros H. fix IH 1. intros [t a x cs]. apply H.
  induction cs as [| c cs IHcs]; constructor; [apply IH | exact IHcs].
Qed.

Lemma compact_items (t : string) (a : list (string * string))
      (x : option string) (cs : list element) :
  Etree.compact (Element t a x cs)
  = TOpen t a :: Etree.text_tokens x ++ flat_map Etree.compact cs ++ [TClose t].
Proof.
  reflexivity.
Qed.

(** *** The nodes the handler builds *)

Lemma tidy_chars_step (cur : node) (ws : string) :
  tidy cur -> BaseNode._characters cur ws = (chars cur ws, Ok tt).
Proof.
  intros [_ [_ [[s Hs] _]]].
  unfold BaseNode._characters, chars, text_of, getattr, getattr_of.
  now rewrite Hs.
Qed.

Lemma tidy_chars (cur : node) (ws : string) : tidy cur -> tidy (chars cur ws).
Proof.
  intros H. destruct (tidy_characters cur ws H) as [cur' [E T]].
  rewrite (tidy_chars_step cur ws H) in E. injection E as <-. exact T.
Qed.

Lemma tidy_attach_step (cur n : node) (k : string) :
  tidy cur -> tidy n -> Py.startswith_ k = false ->
  BaseNodeChildren._addChild cur k n = (attach cur k (obj n), Ok tt).
Proof.
  intros Hc Hn Hk.
  rewrite (addChild_noted cur n k _ (tidy_sees cur Hc)). cbv zeta.
  cbn [BindingHandler.BaseNode_class nt_single map existsb].
  destruct (public_not_internal k Hk) as [_ Hco].
  assert (Hget : dict_get k (noted (n_dict cur) k) = dict_get k (n_dict cur)).
  { unfold noted. now rewrite dict_get_set_other. }
  rewrite Hget, (tidy_finalize n Hn). unfold attach, field_nodes.
  destruct (dict_get k (n_dict cur)) as [v |] eqn:Hv; [| reflexivity].
  destruct Hc as [_ [_ [_ [_ Hkeys]]]].
  destruct (Hkeys k v Hv) as [-> | [-> | [_ [l ->]]]]; try discriminate Hk.
  reflexivity.
Qed.

Lemma tidy_attach (cur n : node) (k : string) :
  tidy cur -> tidy n -> Py.startswith_ k = false ->
  tidy (attach cur k (obj n)).
Proof.
  intros Hc Hn Hk. destruct (tidy_addChild cur n k Hc Hn Hk) as [cur' [E T]].
  rewrite (tidy_attach_step cur n k Hc Hn Hk) in E. injection E as <-.
  exact T.
Qed.

Lemma well_formed_parts (t : string) (a : list (string * string))
      (x : option string) (cs : list element) :
  well_formed (Element t a x cs) = true ->
  key_ok t = true /\
  Sax.has_dup (map fst a) = false /\
  forallb (fun kv => key_ok (fst kv) && Etree.valid_text (snd kv)) a = true /\
  match x with Some s => Etree.valid_text s | None => true end = true /\
  Forall (fun c => well_formed c = true) cs.
Proof.
  cbn [well_formed]. intros H.
  apply andb_prop in H. destruct H as [H Hcs].
  apply andb_prop in H. destruct H as [H Hx].
  apply andb_prop in H. destruct H as [H Ha].
  apply andb_prop in H. destruct H as [Ht Hd].
  apply negb_true_iff in Hd. repeat (split; [assumption |]).
  apply Forall_forall. now apply forallb_forall.
Qed.

Lemma well_formed_tag (e : element) :
  well_formed e = true -> key_ok (Etree.tag e) = true.
Proof.
  destruct e as [t a x cs]. intros H.
  now destruct (well_formed_parts t a x cs H) as [Ht _].
Qed.

Lemma attrs_public (a : list (string * string)) :
  forallb (fun kv => key_ok (fst kv) && Etree.valid_text (snd kv)) a = true ->
  forallb (fun kv => negb (Py.startswith_ (fst kv))) a = true.
Proof.
  intros H. apply forallb_forall. intros kv Hin.
  apply (proj1 (forallb_forall _ _) H) in Hin.
  apply andb_prop in Hin. destruct Hin as [Hk _].
  unfold key_ok in Hk. apply andb_prop in Hk. now destruct Hk.
Qed.

Lemma key_ok_public' (k : string) :
  key_ok k = true -> Py.startswith_ k = false.
Proof.
  unfold key_ok. intros H. apply andb_prop in H. destruct H as [_ H].
  now apply negb_true_iff in H.
Qed.

Lemma fold_attach_tidy (cs : list element) :
  Forall (fun c => well_formed c = true -> tidy (node_of c)) cs ->
  Forall (fun c => well_formed c = true) cs ->
  forall cur, tidy cur ->
    tidy (fold_left (fun cur c => attach cur (Etree.tag c) (obj (node_of c)))
                    cs cur).
Proof.
  induction 1 as [| c cs Hc _ IH]; intros Hwf cur Hcur; [exact Hcur |].
  inversion Hwf as [| ? ? Hwc Hwcs]; subst. cbn [fold_left].
  apply IH; [exact Hwcs |].
  apply tidy_attach; [exact Hcur | now apply Hc |].
  now apply key_ok_public', well_formed_tag.
Qed.

Lemma node_of_tidy (e : element) : well_formed e = true -> tidy (node_of e).
Proof.
  induction e as [t a x cs IH] using element_ind'. intros H.
  destruct (well_formed_parts t a x cs H) as [Ht [Hd [Ha [Hx Hcs]]]].
  cbn [node_of]. apply fold_attach_tidy; [exact IH | exact Hcs |].
  apply tidy_chars, tidy_start, attrs_public, Ha.
Qed.

(** *** Reading the items of an element *)

Lemma feed_start (t : string) (a : list (string * string)) (doc : xml)
      (p : Sax.state) (st : list node) (r : value) :
  may_open p -> Sax.has_dup (map fst a) = false ->
  BindingHandler.hides_construction a = false ->
  Sax.feed (TOpen t a :: doc) p (untyped st r)
  = Sax.feed doc (inside (t :: Sax.open_tags p))
      (untyped (BaseNode.__init__
                  (BindingHandler.element_class t
                     BindingHandler.BaseNode_class a) :: st) r).
Proof.
  intros Hp Hd Hh. cbn [Sax.feed]. rewrite Hd.
  unfold BindingHandler.startElement. rewrite Hh.
  destruct (Sax.open_tags p) as [| t' ts] eqn:Ho.
  - destruct Hp as [Hp | Hp]; [now elim Hp |]. rewrite Hp. reflexivity.
  - reflexivity.
Qed.

Lemma feed_chars (x : option string) (doc : xml) (t : string)
      (ts : list string) (cur : node) (st : list node) (r : value) :
  tidy cur -> text_of cur = "" ->
  Sax.feed (Etree.text_tokens x ++ doc) (inside (t :: ts))
           (untyped (cur :: st) r)
  = Sax.feed doc (inside (t :: ts))
      (untyped (chars cur (match x with Some s => s | None => "" end) :: st) r).
Proof.
  intros Hc Ht.
  assert (Hsame : chars cur "" = cur -> 
                  Sax.feed doc (inside (t :: ts)) (untyped (cur :: st) r)
                  = Sax.feed doc (inside (t :: ts))
                      (untyped (chars cur "" :: st) r)).
  { intros ->. reflexivity. }
  assert (Hnone : chars cur "" = cur).
  { unfold chars. rewrite Ht. cbn [String.append].
    destruct Hc as [_ [_ [[s Hs] _]]]. unfold text_of in Ht. rewrite Hs in Ht.
    subst s. destruct cur as [c d]. unfold BaseNodeChildren.with_dict.
    cbn [n_class n_dict] in *. f_equal.
    clear - Hs. induction d as [| [k v] d IH]; [discriminate Hs |].
    cbn [dict_get dict_set] in *.
    destruct (String.eqb_spec "_text" k) as [<- | Hne].
    - now inversion Hs.
    - now rewrite IH. }
  destruct x as [[| c s] |]; cbn [Etree.text_tokens app];
    [now apply Hsame | | now apply Hsame].
  cbn [Sax.feed inside Sax.open_tags].
  unfold BindingHandler.characters. cbn [untyped BindingHandler.stack].
  rewrite (tidy_has_method cur "_characters" Hc) by (reflexivity || discriminate).
  rewrite (tidy_chars_step cur _ Hc). reflexivity.
Qed.

Lemma feed_end_child (k : string) (doc : xml) (t : string) (ts : list string)
      (n cur : node) (st : list node) (r : value) :
  tidy cur -> tidy n -> Py.startswith_ k = false ->
  Sax.feed (TClose k :: doc) (inside (k :: t :: ts)) (untyped (n :: cur :: st) r)
  = Sax.feed doc (inside (t :: ts)) (untyped (attach cur k (obj n) :: st) r).
Proof.
  intros Hc Hn Hk. cbn [Sax.feed inside Sax.open_tags]. rewrite String.eqb_refl.
  unfold BindingHandler.endElement. cbn [untyped BindingHandler.stack].
  rewrite (tidy_has_method cur "_addChild" Hc) by (reflexivity || discriminate).
  rewrite (tidy_attach_step cur n k Hc Hn Hk). reflexivity.
Qed.

Lemma feed_children (cs : list element) :
  Forall (fun e =>
            well_formed e = true ->
            forall rest p st r,
              may_open p ->
              Sax.feed (Etree.compact e ++ rest) p (untyped st r)
              = Sax.feed (TClose (Etree.tag e) :: rest)
                  (inside (Etree.tag e :: Sax.open_tags p))
                  (untyped (node_of e :: st) r)) cs ->
  Forall (fun c => well_formed c = true) cs ->
  forall cur rest t ts st r,
    tidy cur ->
    Sax.feed (flat_map Etree.compact cs ++ rest) (inside (t :: ts))
             (untyped (cur :: st) r)
    = Sax.feed rest (inside (t :: ts))
        (untyped (fold_left
                    (fun cur c => attach cur (Etree.tag c) (obj (node_of c)))
                    cs cur :: st) r).
Proof.
  induction 1 as [| c cs IHc _ IHcs]; intros Hcs cur rest t ts st r Hcur;
    [reflexivity |].
  inversion Hcs as [| ? ? Hwc Hwcs]; subst.
  cbn [flat_map fold_left]. rewrite <- app_assoc.
  rewrite (IHc Hwc _ (inside (t :: ts)) (cur :: st) r) by (left; discriminate).
  cbn [inside Sax.open_tags].
  change {| Sax.open_tags := Etree.tag c :: t :: ts;
            Sax.root_seen := true; Sax.at_start := false |}
    with (inside (Etree.tag c :: t :: ts)).
  assert (Hk : Py.startswith_ (Etree.tag c) = false)
    by now apply key_ok_public', well_formed_tag.
  rewrite (feed_end_child (Etree.tag c) _ t ts (node_of c) cur
             st r Hcur (node_of_tidy c Hwc) Hk).
  apply (IHcs Hwcs).
  now apply tidy_attach; [| apply node_of_tidy |].
Qed.

(** Reading the items of [e] comes to reading its end tag with the
    node of [e] on the stack. *)
Lemma feed_element (e : element) :
  well_formed e = true ->
  forall rest p st r,
    may_open p ->
    Sax.feed (Etree.compact e ++ rest) p (untyped st r)
    = Sax.feed (TClose (Etree.tag e) :: rest)
        (inside (Etree.tag e :: Sax.open_tags p))
        (untyped (node_of e :: st) r).
Proof.
  induction e as [t a x cs IH] using element_ind'. intros H rest p st r Hp.
  destruct (well_formed_parts t a x cs H) as [Ht [Hd [Ha [Hx Hcs]]]].
  rewrite compact_items. cbn [app Etree.tag].
  rewrite (feed_start t a _ p st r Hp Hd
             (public_attrs_construct a (attrs_public a Ha))).
  rewrite <- !app_assoc. cbn [app].
  assert (Hinit : tidy (BaseNode.__init__
                          (BindingHandler.element_class t
                             BindingHandler.BaseNode_class a)))
    by apply tidy_start, attrs_public, Ha.
  rewrite (feed_chars x _ t (Sax.open_tags p) _ st r Hinit eq_refl).
  cbn [node_of].
  apply (feed_children cs IH Hcs). now apply tidy_chars.
Qed.

(** What [parseString] returns for the items of [e]. *)
Lemma parse_element (e : element) :
  well_formed e = true ->
  snd (DataBinder.parseString (DataBinder.__init__ None) (Etree.compact e))
  = Ok (obj (node_of e)).
Proof.
  intros H. unfold DataBinder.parseString, Sax.parse.
  change (DataBinder.set_rootNode
            (DataBinder.contentHandler (DataBinder.__init__ None)) VNone)
    with (untyped [] VNone).
  rewrite <- (app_nil_r (Etree.compact e)).
  rewrite (feed_element e H [] Sax.initial [] VNone) by (right; reflexivity).
  cbn [Sax.initial Sax.open_tags].
  change {| Sax.open_tags := [Etree.tag e]; Sax.root_seen := true;
            Sax.at_start := false |} with (inside [Etree.tag e]).
  rewrite feed_close_root. reflexivity.
Qed.

(** *** Dictionaries that grow *)

Lemma dict_set_fresh {B : Type} (k : string) (v : B) (d : list (string * B)) :
  dict_get k d = None -> dict_set k v d = d ++ [(k, v)].
Proof.
  induction d as [| [k' v'] d IH]; [reflexivity |].
  cbn [dict_get dict_set app]. destruct (String.eqb k k'); [discriminate |].
  intros H. now rewrite (IH H).
Qed.

Lemma keys_dict_set {B : Type} (k : string) (v : B) (d : list (string * B)) :
  keys (dict_set k v d)
  = match dict_get k d with Some _ => keys d | None => keys d ++ [k] end.
Proof.
  unfold keys. induction d as [| [k' v'] d IH]; [reflexivity |].
  cbn [dict_get dict_set]. destruct (String.eqb_spec k k') as [-> | Hne].
  - reflexivity.
  - cbn [map fst]. rewrite IH. now destruct (dict_get k d).
Qed.

Lemma dict_get_keys {B : Type} (k : string) (d : list (string * B)) :
  dict_get k d = None <-> ~ In k (keys d).
Proof.
  induction d as [| [k' v'] d IH]; [cbn; tauto |].
  cbn [dict_get keys map fst In]. destruct (String.eqb_spec k k') as [-> | Hne].
  - split; [discriminate | intros H; elim H; now left].
  - rewrite IH. unfold keys. split; [intros H [E | E]; congruence | tauto].
Qed.

Lemma dict_set_map {B C : Type} (f : B -> C) (k : string) (v : B)
      (d : list (string * B)) :
  map (fun kv => (fst kv, f (snd kv))) (dict_set k v d)
  = dict_set k (f v) (map (fun kv => (fst kv, f (snd kv))) d).
Proof.
  induction d as [| [k' v'] d IH]; [reflexivity |].
  cbn [dict_set map fst snd]. destruct (String.eqb k k'); [reflexivity |].
  cbn [map fst snd]. now rewrite IH.
Qed.

Lemma dict_get_map {B C : Type} (f : B -> C) (k : string)
      (d : list (string * B)) :
  dict_get k (map (fun kv => (fst kv, f (snd kv))) d)
  = option_map f (dict_get k d).
Proof. apply (dict_get_map_snd (fun _ => f)). Qed.

Lemma public_set_public {B : Type} (k : string) (v : B)
      (d : list (string * B)) :
  Py.startswith_ k = false -> public (dict_set k v d) = dict_set k v (public d).
Proof.
  intros Hk. unfold public. induction d as [| [k' v'] d IH].
  - cbn [dict_set filter fst]. now rewrite Hk.
  - cbn [dict_set]. destruct (String.eqb_spec k k') as [<- | Hne].
    + cbn [filter fst]. rewrite Hk. cbn [negb dict_set].
      now rewrite String.eqb_refl.
    + cbn [filter fst]. rewrite IH.
      destruct (negb (Py.startswith_ k')); [| reflexivity].
      cbn [dict_set]. now rewrite (proj2 (String.eqb_neq k k') Hne).
Qed.

Lemma public_all {B : Type} (d : list (string * B)) :
  Forall (fun kv => Py.startswith_ (fst kv) = false) d -> public d = d.
Proof.
  unfold public. induction 1 as [| kv d Hkv _ IH]; [reflexivity |].
  cbn [filter]. now rewrite Hkv, IH.
Qed.

(** *** Groups *)

Lemma keys_group_add {A : Type} (k : string) (x : A)
      (g : list (string * list A)) :
  keys (group_add k x g)
  = match dict_get k g with Some _ => keys g | None => keys g ++ [k] end.
Proof. unfold group_add. apply keys_dict_set. Qed.

Lemma group_add_get {A : Type} (k k' : string) (x : A)
      (g : list (string * list A)) :
  dict_get k' (group_add k x g)
  = if String.eqb k' k
    then Some (match dict_get k g with Some l => l ++ [x] | None => [x] end)
    else dict_get k' g.
Proof.
  unfold group_add. destruct (String.eqb_spec k' k) as [-> | Hne].
  - apply dict_get_set_same.
  - now apply dict_get_set_other.
Qed.

(** The group of a tag holds the elements with the tag, in order. *)
Lemma groups_get (cs : list element) (k : string) :
  forall g,
    dict_get k (fold_left (fun g c => group_add (Etree.tag c) c g) cs g)
    = match dict_get k g,
            filter (fun c => String.eqb k (Etree.tag c)) cs with
      | Some l, f => Some (l ++ f)
      | None, [] => None
      | None, f => Some f
      end.
Proof.
  induction cs as [| c cs IH]; intros g; cbn [fold_left filter].
  - destruct (dict_get k g); [now rewrite app_nil_r | reflexivity].
  - rewrite IH, group_add_get.
    destruct (String.eqb_spec k (Etree.tag c)) as [-> | Hne].
    + destruct (dict_get (Etree.tag c) g) as [l |].
      * now rewrite <- app_assoc.
      * reflexivity.
    + reflexivity.
Qed.

Lemma groups_NoDup (cs : list element) :
  forall g, NoDup (keys g) ->
            NoDup (keys (fold_left (fun g c => group_add (Etree.tag c) c g) cs g)).
Proof.
  induction cs as [| c cs IH]; intros g Hg; [exact Hg |].
  cbn [fold_left]. apply IH. rewrite keys_group_add.
  destruct (dict_get (Etree.tag c) g) eqn:E; [exact Hg |].
  apply dict_get_keys in E.
  apply NoDup_app; [exact Hg | repeat constructor; intros [] | ].
  intros k Hk [<- | []]. now apply E.
Qed.

Lemma groups_member (cs : list element) (k : string) (l : list element) :
  In (k, l) (groups cs) ->
  dict_get k (groups cs) = Some l /\
  l = filter (fun c => String.eqb k (Etree.tag c)) cs.
Proof.
  intros Hin.
  assert (Hget : dict_get k (groups cs) = Some l).
  { apply in_dict_get; [| exact Hin]. apply groups_NoDup. constructor. }
  split; [exact Hget |]. unfold groups in Hget. rewrite groups_get in Hget.
  cbn [dict_get] in Hget.
  destruct (filter _ cs); now inversion Hget.
Qed.

Lemma groups_map (f : element -> element) (cs : list element) :
  (forall c, Etree.tag (f c) = Etree.tag c) ->
  groups (map f cs)
  = map (fun kv => (fst kv, map f (snd kv))) (groups cs).
Proof.
  intros Hf. unfold groups.
  change (@nil (string * list element))
    with (map (fun kv : string * list element => (fst kv, map f (snd kv))) [])
    at 1.
  generalize (@nil (string * list element)).
  induction cs as [| c cs IH]; intros g; [reflexivity |].
  cbn [map fold_left]. rewrite <- IH. f_equal.
  unfold group_add. rewrite Hf, dict_set_map, dict_get_map.
  destruct (dict_get (Etree.tag c) g); cbn [option_map]; [| reflexivity].
  now rewrite map_app.
Qed.

(** *** The order of the groups *)

Lemma in_descriptor_app (l r : list string) (x : string) :
  in_descriptor (l ++ r) x = in_descriptor l x || in_descriptor r x.
Proof. unfold in_descriptor. apply existsb_app. Qed.

Lemma in_descriptor_snoc (l : list string) (x k : string) :
  in_descriptor (l ++ [x]) k = in_descriptor l k || String.eqb x k.
Proof.
  rewrite in_descriptor_app. unfold in_descriptor. cbn [existsb].
  now rewrite orb_false_r.
Qed.

Lemma position_app_in (l r : list string) (x : string) :
  in_descriptor l x = true ->
  position x (l ++ r) = position x l /\ (position x l < length l)%nat.
Proof.
  unfold in_descriptor. induction l as [| y l IH]; [discriminate |].
  cbn [existsb app position length].
  destruct (String.eqb y x); cbn [orb]; [intros _; split; [reflexivity | lia] |].
  intros H. destruct (IH H) as [E L]. split; [now rewrite E | lia].
Qed.

Lemma position_app_out (l : list string) (x : string) :
  in_descriptor l x = false -> position x (l ++ [x]) = length l.
Proof.
  unfold in_descriptor. induction l as [| y l IH]; cbn [existsb app position length].
  - now rewrite String.eqb_refl.
  - destruct (String.eqb y x); cbn [orb]; [discriminate |].
    intros H. now rewrite (IH H).
Qed.

Lemma StronglySorted_snoc {A : Type} (R : A -> A -> Prop) (l : list A) (x : A) :
  StronglySorted R l -> Forall (fun a => R a x) l -> StronglySorted R (l ++ [x]).
Proof.
  induction 1 as [| a l Hl IH Ha]; intros Hx; cbn [app].
  - repeat constructor.
  - inversion Hx as [| ? ? Hax Hlx]; subst. constructor; [now apply IH |].
    apply Forall_app. split; [exact Ha | now constructor].
Qed.

Lemma keys_in_order_step (ks done : list string) (x : string) :
  keys_in_order ks done ->
  keys_in_order (if in_descriptor done x then ks else ks ++ [x]) (done ++ [x]).
Proof.
  intros [Hin Hs]. 
  assert (Hpos : forall a, In a ks ->
                           position a (done ++ [x]) = position a done /\
                           (position a done < length done)%nat).
  { intros a Ha. apply position_app_in. now apply Hin. }
  assert (Hs' : StronglySorted
                  (fun a b => (position a (done ++ [x])
                               < position b (done ++ [x]))%nat) ks).
  { clear Hin. induction Hs as [| a l Hl IH Ha]; constructor.
    - apply IH. intros b Hb. apply Hpos. now right.
    - rewrite Forall_forall in *. intros b Hb.
      destruct (Hpos a (or_introl eq_refl)) as [-> _].
      destruct (Hpos b (or_intror Hb)) as [-> _]. now apply Ha. }
  destruct (in_descriptor done x) eqn:Hx.
  - split; [| exact Hs'].
    intros k. rewrite in_descriptor_snoc, Hin.
    destruct (String.eqb_spec x k) as [<- | Hne].
    + rewrite Hx. cbn [orb]. tauto.
    + now rewrite orb_false_r.
  - split.
    + intros k. rewrite in_descriptor_snoc, in_app_iff, Hin. cbn [In].
      destruct (String.eqb_spec x k) as [<- | Hne].
      * rewrite orb_true_r. tauto.
      * rewrite orb_false_r. tauto.
    + apply StronglySorted_snoc; [exact Hs' |].
      apply Forall_forall. intros a Ha.
      destruct (Hpos a Ha) as [-> Hlt].
      now rewrite (position_app_out done x Hx).
Qed.

Lemma groups_keys_in_order (cs : list element) :
  forall g done,
    keys_in_order (keys g) done ->
    keys_in_order
      (keys (fold_left (fun g c => group_add (Etree.tag c) c g) cs g))
      (done ++ map Etree.tag cs).
Proof.
  induction cs as [| c cs IH]; intros g done H; cbn [fold_left map].
  - now rewrite app_nil_r.
  - change (Etree.tag c :: map Etree.tag cs)
      with ([Etree.tag c] ++ map Etree.tag cs).
    rewrite app_assoc. apply IH. rewrite keys_group_add.
    pose proof (keys_in_order_step (keys g) done (Etree.tag c) H) as Hstep.
    destruct H as [Hin _].
    destruct (dict_get (Etree.tag c) g) eqn:E.
    + assert (Hx : in_descriptor done (Etree.tag c) = true).
      { apply Hin. destruct (in_dec string_dec (Etree.tag c) (keys g)) as [Hi | Hn];
          [exact Hi |]. apply dict_get_keys in Hn. congruence. }
      now rewrite Hx in Hstep.
    + assert (Hx : in_descriptor done (Etree.tag c) = false).
      { apply dict_get_keys in E.
        destruct (in_descriptor done (Etree.tag c)) eqn:Hd; [| reflexivity].
        elim E. now apply Hin. }
      now rewrite Hx in Hstep.
Qed.

Lemma sorted_already {A : Type} (le : A -> A -> bool) (l : list A) :
  StronglySorted (holds le) l -> sorted le l = l.
Proof.
  induction 1 as [| a l Hl IH Ha]; [reflexivity |].
  unfold sorted in *. cbn [fold_right]. rewrite IH.
  destruct l as [| b l]; [reflexivity |]. cbn [insert].
  inversion Ha as [| ? ? Hab _]; subst. unfold holds in Hab. now rewrite Hab.
Qed.

(** The serializer visits the groups in the order the handler stored
    them. *)
Lemma groups_child_order (cs : list element) :
  Serializer._getChildOrder (keys (groups cs))
    (VList (map VStr (map Etree.tag cs)))
  = Ok (keys (groups cs)).
Proof.
  rewrite getChildOrder_list. f_equal. apply sorted_already.
  destruct (groups_keys_in_order cs [] []) as [Hin Hs].
  { split; [| constructor]. intros k. cbn. split; [tauto | discriminate]. }
  cbn [app] in Hin, Hs. fold (groups cs) in Hin, Hs.
  assert (Hgen : forall ks,
             (forall k, In k ks -> in_descriptor (map Etree.tag cs) k = true) ->
             StronglySorted
               (fun a b => (position a (map Etree.tag cs)
                            < position b (map Etree.tag cs))%nat) ks ->
             StronglySorted (holds (by_key (map Etree.tag cs))) ks).
  { intros ks Hks Hsorted. induction Hsorted as [| a l Hl IH Ha]; constructor.
    - apply IH. intros k Hk. apply Hks. now right.
    - rewrite Forall_forall in *. intros b Hb. unfold holds.
      apply by_key_spec. right. left.
      split; [apply Hks; now left |]. split; [apply Hks; now right |].
      now apply Ha. }
  apply Hgen; [| exact Hs]. intros k Hk. now apply Hin.
Qed.

(** *** Attributes *)

Lemma class_attrs_stored (a : list (string * string)) :
  forall acc : list (string * atom),
    NoDup (keys acc ++ map fst a) ->
    fold_left (fun d kv => dict_set (fst kv) (AStr (snd kv)) d) a acc
    = acc ++ map (fun kv => (fst kv, AStr (snd kv))) a.
Proof.
  induction a as [| [k v] a IH]; intros acc Hnd; cbn [fold_left map fst snd].
  - now rewrite app_nil_r.
  - assert (Hk : dict_get k acc = None).
    { apply dict_get_keys. intros Hin.
      apply NoDup_app_remove_r in Hnd as Hacc.
      apply (NoDup_remove_2 _ _ _ Hnd). apply in_or_app. now left. }
    rewrite (dict_set_fresh k (AStr v) acc Hk). rewrite IH.
    + now rewrite <- app_assoc.
    + unfold keys in *. rewrite map_app. cbn [map fst].
      rewrite <- app_assoc. exact Hnd.
Qed.

Lemma attrib_update_fresh (a : list (string * string)) :
  forall t acc x c,
    NoDup (keys acc ++ map fst a) ->
    forallb (fun kv => key_ok (fst kv) && Etree.valid_text (snd kv)) a = true ->
    Etree.attrib_update (Element t acc x c) a = Ok (Element t (acc ++ a) x c).
Proof.
  induction a as [| [k v] a IH]; intros t acc x c Hnd Hok;
    cbn [Etree.attrib_update].
  - now rewrite app_nil_r.
  - cbn [forallb fst snd] in Hok. apply andb_prop in Hok.
    destruct Hok as [Hkv Hok]. apply andb_prop in Hkv. destruct Hkv as [Hk Hv].
    unfold key_ok in Hk. apply andb_prop in Hk. destruct Hk as [Hk _].
    rewrite Hk, Hv. cbn [andb].
    assert (Hfresh : dict_get k acc = None).
    { apply dict_get_keys. intros Hin.
      apply (NoDup_remove_2 _ _ _ Hnd). apply in_or_app. now left. }
    rewrite (dict_set_fresh k v acc Hfresh). rewrite IH.
    + now rewrite <- app_assoc.
    + unfold keys in *. rewrite map_app. cbn [map fst].
      rewrite <- app_assoc. exact Hnd.
    + exact Hok.
Qed.

(** The attributes the serializer reads from the class made for a
    start tag are those of the tag. *)
Lemma written_attrs (t : string) (a : list (string * string)) :
  Sax.has_dup (map fst a) = false ->
  forallb (fun kv => key_ok (fst kv) && Etree.valid_text (snd kv)) a = true ->
  map (fun kv => (fst kv, Serializer._toString (snd kv)))
      (public (c_attrs (BindingHandler.element_class t
                          BindingHandler.BaseNode_class a)))
  = a.
Proof.
  intros Hd Hok. cbn [BindingHandler.element_class c_attrs].
  rewrite (class_attrs_stored a []) by (cbn [keys map app]; now apply has_dup_NoDup).
  cbn [app]. rewrite public_all.
  - rewrite map_map. cbn [fst snd Serializer._toString].
    rewrite <- (map_id a) at 2. apply map_ext. now intros [k v].
  - apply Forall_forall. intros kv Hin. apply in_map_iff in Hin.
    destruct Hin as [[k v] [<- Hin]]. cbn [fst].
    apply (proj1 (forallb_forall _ _) Hok) in Hin. cbn [fst snd] in Hin.
    apply andb_prop in Hin. destruct Hin as [Hk _]. now apply key_ok_public'.
Qed.

(** *** The fields of the node of an element *)

Lemma order_of_noted (d : fields) (k : string) :
  order_of (noted d k) = order_of d ++ [VStr k] /\
  dict_get "_childOrder" (noted d k) = Some (VList (order_of d ++ [VStr k])).
Proof.
  unfold order_of, noted. rewrite dict_get_set_same. split; reflexivity.
Qed.

Lemma attach_groups (cur : node) (c : element) (g : list (string * list element))
      (tags : list string) :
  Py.startswith_ (Etree.tag c) = false ->
  holds_groups cur g tags ->
  holds_groups (attach cur (Etree.tag c) (obj (node_of c)))
               (group_add (Etree.tag c) c g) (tags ++ [Etree.tag c]).
Proof.
  intros Hk [Hpub [Hord Hco]].
  destruct (public_not_internal _ Hk) as [Hkt Hkc].
  unfold holds_groups, attach. cbn [BaseNodeChildren.with_dict n_dict].
  destruct (order_of_noted (n_dict cur) (Etree.tag c)) as [Ho Hc].
  split; [| split].
  - rewrite (public_set_public _ _ _ Hk).
    unfold noted. rewrite public_set_private by reflexivity.
    rewrite Hpub. unfold stored, group_add.
    rewrite (dict_set_map (fun l => VList (map (fun c => obj (node_of c)) l))).
    f_equal.
    unfold field_nodes.
    assert (Hget : dict_get (Etree.tag c) (n_dict cur)
                   = dict_get (Etree.tag c) (public (n_dict cur))).
    { now rewrite dict_get_public, Hk. }
    rewrite Hget, Hpub. unfold stored.
    rewrite (dict_get_map (fun l => VList (map (fun c => obj (node_of c)) l))).
    destruct (dict_get (Etree.tag c) g); cbn [option_map]; [| reflexivity].
    now rewrite map_app.
  - unfold order_of. rewrite dict_get_set_other by congruence.
    rewrite Hc, Hord, map_app. reflexivity.
  - intros _. rewrite dict_get_set_other by congruence.
    rewrite Hc, Hord, map_app. reflexivity.
Qed.

Lemma fold_attach_groups (cs : list element) :
  Forall (fun c => well_formed c = true) cs ->
  forall cur g tags,
    holds_groups cur g tags ->
    holds_groups
      (fold_left (fun cur c => attach cur (Etree.tag c) (obj (node_of c))) cs cur)
      (fold_left (fun g c => group_add (Etree.tag c) c g) cs g)
      (tags ++ map Etree.tag cs).
Proof.
  induction 1 as [| c cs Hc _ IH]; intros cur g tags H; cbn [fold_left map].
  - now rewrite app_nil_r.
  - change (Etree.tag c :: map Etree.tag cs)
      with ([Etree.tag c] ++ map Etree.tag cs).
    rewrite app_assoc. apply IH. apply attach_groups; [| exact H].
    now apply key_ok_public', well_formed_tag.
Qed.

Lemma fold_attach_keeps (cs : list element) (k : string) :
  Forall (fun c => well_formed c = true) cs ->
  Py.startswith_ k = true -> k <> "_childOrder" ->
  forall cur,
    dict_get k (n_dict (fold_left
                          (fun cur c => attach cur (Etree.tag c) (obj (node_of c)))
                          cs cur))
    = dict_get k (n_dict cur) /\
    n_class (fold_left
               (fun cur c => attach cur (Etree.tag c) (obj (node_of c)))
               cs cur)
    = n_class cur.
Proof.
  intros Hcs Hk Hne. induction Hcs as [| c cs Hc _ IH]; intros cur;
    [split; reflexivity |].
  cbn [fold_left]. destruct (IH (attach cur (Etree.tag c) (obj (node_of c))))
    as [-> ->].
  split; [| reflexivity].
  apply attach_get_other; [| exact Hne].
  intros ->. apply well_formed_tag, key_ok_public' in Hc. congruence.
Qed.

(** The node of an element: its class, its text, the order of its
    children and its groups. *)
Lemma node_of_fields (t : string) (a : list (string * string))
      (x : option string) (cs : list element) :
  Forall (fun c => well_formed c = true) cs ->
  let n := node_of (Element t a x cs) in
  n_class n
  = BindingHandler.element_class t BindingHandler.BaseNode_class a /\
  dict_get "_text" (n_dict n)
  = Some (VStr (match x with Some s => s | None => "" end)) /\
  holds_groups n (groups cs) (map Etree.tag cs) /\
  (cs = [] -> dict_get "_childOrder" (n_dict n) = None).
Proof.
  intros Hcs. cbv zeta. cbn [node_of].
  set (cur := chars _ _).
  destruct (fold_attach_keeps cs "_text" Hcs eq_refl ltac:(discriminate) cur)
    as [Htext Hclass].
  split; [exact Hclass |]. split; [rewrite Htext; reflexivity |]. split.
  - apply (fold_attach_groups cs Hcs cur [] []).
    split; [reflexivity |]. split; [reflexivity |]. intros H. now elim H.
  - intros ->. reflexivity.
Qed.

(** *** What the serializer builds for the node of an element *)

Lemma keys_stored (g : list (string * list element)) : keys (stored g) = keys g.
Proof. unfold keys, stored. rewrite map_map. reflexivity. Qed.

Lemma all_ok_each {A B : Type} (f : A -> result B) (h : A -> B) (l : list A) :
  (forall x, In x l -> f x = Ok (h x)) ->
  Serializer.all_ok (map f l) = Ok (map h l).
Proof.
  induction l as [| x l IH]; intros H; [reflexivity |].
  cbn [map Serializer.all_ok]. rewrite (H x (or_introl eq_refl)). cbn [bind].
  rewrite IH by (intros y Hy; apply H; now right). reflexivity.
Qed.

Lemma add_all_groups {B : Type} (h : B -> list element) (g : list B) :
  forall t a x c,
    Serializer.add_all (Element t a x c)
      (map (fun kv => Ok (Many (map Single (h kv)))) g)
    = Ok (Element t a x (c ++ flat_map h g)).
Proof.
  induction g as [| kv g IH]; intros t a x c;
    cbn [map Serializer.add_all flat_map].
  - now rewrite app_nil_r.
  - cbn [bind Serializer._etree_add]. rewrite extend_singles. cbn [bind].
    rewrite IH. now rewrite <- app_assoc.
Qed.

Lemma flat_map_groups (f : element -> element)
      (g : list (string * list element)) :
  flat_map snd (map (fun kv => (fst kv, map f (snd kv))) g)
  = flat_map (fun kv => map f (snd kv)) g.
Proof.
  induction g as [| kv g IH]; [reflexivity |].
  cbn [map flat_map snd]. now rewrite IH.
Qed.

Lemma tag_regroup (e : element) : Etree.tag (regroup e) = Etree.tag e.
Proof. now destruct e. Qed.

Lemma groups_nonempty (cs : list element) (k : string) (l : list element) :
  In (k, l) (groups cs) ->
  exists c l', l = c :: l' /\
               Forall (fun c => In c cs /\ Etree.tag c = k) l.
Proof.
  intros Hin. destruct (groups_member cs k l Hin) as [Hget Hl].
  assert (Hall : Forall (fun c => In c cs /\ Etree.tag c = k) l).
  { subst l. apply Forall_forall. intros c Hc. apply filter_In in Hc.
    destruct Hc as [Hc Ht]. apply String.eqb_eq in Ht. now split. }
  destruct l as [| c l'].
  - exfalso. unfold groups in Hget. rewrite groups_get in Hget.
    cbn [dict_get] in Hget. rewrite <- Hl in Hget. discriminate Hget.
  - now exists c, l'.
Qed.

(** The tree built for the node of [e] is [e] with its children
    grouped. *)
Lemma write_node (e : element) :
  well_formed e = true ->
  forall name,
    Serializer.element_name (obj (node_of e)) name = Etree.tag e ->
    Serializer._to_etree_r (obj (node_of e)) name = Ok (Single (regroup e)).
Proof.
  induction e as [t a x cs IH] using element_ind'. intros H name Hname.
  destruct (well_formed_parts t a x cs H) as [Ht [Hd [Ha [Hx Hcs]]]].
  pose proof (node_of_tidy _ H) as Htidy.
  destruct (node_of_fields t a x cs Hcs)
    as [Hclass [Htext [[Hpub [Hord Hco]] Hnone]]].
  unfold obj in *. rewrite to_etree_object. unfold object_tree.
  rewrite Hname. cbn [Etree.tag].
  set (n := node_of (Element t a x cs)) in *.
  unfold key_ok in Ht. apply andb_prop in Ht. destruct Ht as [Htv Htp].
  unfold Etree.Element_. rewrite Htv. cbn [bind].
  rewrite Hclass, (written_attrs t a Hd Ha).
  rewrite (attrib_update_fresh a t [] None [])
    by (try exact Ha; cbn [keys map app]; now apply has_dup_NoDup).
  cbn [app bind].
  assert (Hordering : ordering (BindingHandler.element_class t
                                  BindingHandler.BaseNode_class a) (n_dict n)
                      = VList (map VStr (map Etree.tag cs))).
  { unfold ordering, getattr_of. destruct cs as [| c cs'].
    - rewrite (Hnone eq_refl).
      destruct Htidy as [_ [Hpriv _]]. rewrite Hclass in Hpriv.
      now rewrite (Hpriv "_childOrder" eq_refl).
    - rewrite Hco by discriminate. reflexivity. }
  rewrite Hordering, Hpub, keys_stored, groups_child_order. cbn [bind].
  assert (Htrees : map (child_tree (n_dict n)) (keys (groups cs))
                   = map (fun kv => Ok (Many (map Single (map regroup (snd kv)))))
                         (groups cs)).
  { unfold keys. rewrite map_map. apply map_ext_in. intros [k l] Hin.
    cbn [fst snd]. unfold child_tree. rewrite Hpub. unfold stored.
    rewrite (dict_get_map (fun l => VList (map (fun c => obj (node_of c)) l))).
    destruct (groups_member cs k l Hin) as [Hget _]. rewrite Hget.
    cbn [option_map].
    destruct (groups_nonempty cs k l Hin) as [c0 [l' [El Hall]]].
    assert (Hkv : Etree.valid_name k = true).
    { rewrite El in Hall. inversion Hall as [| ? ? [Hc0 Hk0] _]; subst.
      rewrite Forall_forall in Hcs. apply Hcs, well_formed_tag in Hc0.
      unfold key_ok in Hc0. apply andb_prop in Hc0. now destruct Hc0. }
    rewrite (to_etree_sequence (VList (map (fun c => obj (node_of c)) l))
               (map (fun c => obj (node_of c)) l) (Some k) eq_refl).
    rewrite (element_name_key _ k Hkv). unfold Etree.Element_. rewrite Hkv.
    cbn [bind]. rewrite map_map.
    rewrite (all_ok_each _ (fun c => Single (regroup c)) l).
    - cbn [bind]. now rewrite map_map.
    - intros c Hc. rewrite Forall_forall in Hall, IH, Hcs.
      destruct (Hall c Hc) as [Hccs Hck].
      unfold obj in IH. apply (IH c Hccs (Hcs c Hccs)).
      rewrite element_name_key by exact Hkv. now symmetry. }
  rewrite Htrees, add_all_groups. cbn [app bind].
  cbn [regroup]. rewrite (groups_map regroup cs tag_regroup), flat_map_groups.
  unfold with_text, getattr_of. rewrite Htext.
  destruct x as [s |]; cbn [kept_text].
  - destruct (Py.strip s) eqn:Es; [reflexivity |].
    unfold Etree.set_text. rewrite Hx. reflexivity.
  - reflexivity.
Qed.

Lemma alike_refl (e : element) : alike e e.
Proof.
  induction e as [t a x cs IH] using element_ind'. constructor; [reflexivity |].
  induction IH as [| c cs Hc _ IHcs]; constructor; assumption.
Qed.

(** X9  A document parsed with no registered class and written again
    comes back with, at every level, the children grouped by tag (the
    groups in the order in which the tags first occur, the members of
    a group in document order) and text that is only white space
    dropped; tags, attributes (up to their order), other text and the
    nesting are kept.  The document is given by its tree [e]. *)
Theorem X9_parse_then_write (e : element) :
  well_formed e = true ->
  exists v e',
    snd (DataBinder.parseString (DataBinder.__init__ None) (Etree.compact e))
    = Ok v /\
    Serializer._to_etree_r v None = Ok (Single e') /\
    Serializer._toXml v None = Ok (Etree.compact e') /\
    alike (regroup e) e'.
Proof.
  intros H. exists (obj (node_of e)), (regroup e).
  assert (Hw : Serializer._to_etree_r (obj (node_of e)) None
               = Ok (Single (regroup e))).
  { apply (write_node e H). destruct e as [t a x cs].
    destruct (well_formed_parts t a x cs H) as [_ [_ [_ [_ Hcs]]]].
    destruct (node_of_fields t a x cs Hcs) as [Hclass _].
    unfold obj. cbn [Serializer.element_name Serializer.class_name].
    now rewrite Hclass. }
  split; [now apply parse_element |]. split; [exact Hw |].
  split; [| apply alike_refl].
  unfold Serializer._toXml. rewrite Hw. reflexivity.
Qed.

Lemma X9_parse_then_write_witness :
  exists v e',
    snd (DataBinder.parseString (DataBinder.__init__ None)
           (Etree.compact
              (Element "a" [("x", "1")] None
                 [Element "b" [] None [];
                  Element "c" [] (Some "t") [];
                  Element "b" [] (Some " ") []])))
    = Ok v /\
    Serializer._to_etree_r v None = Ok (Single e') /\
    Serializer._toXml v None = Ok (Etree.compact e') /\
    alike (regroup
             (Element "a" [("x", "1")] None
                [Element "b" [] None [];
                 Element "c" [] (Some "t") [];
                 Element "b" [] (Some " ") []])) e'.
Proof.
  apply (X9_parse_then_write
           (Element "a" [("x", "1")] None
              [Element "b" [] None [];
               Element "c" [] (Some "t") [];
               Element "b" [] (Some " ") []])).
  reflexivity.
Defined.

(** *** What was written is read and written unchanged *)

Lemma dict_get_app_fresh {B : Type} (k : string) (v : B)
      (acc : list (string * B)) :
  dict_get k acc = None -> dict_get k (acc ++ [(k, v)]) = Some v.
Proof.
  induction acc as [| [k' v'] acc IH]; cbn [app dict_get].
  - now rewrite String.eqb_refl.
  - destruct (String.eqb k k'); [discriminate | exact IH].
Qed.

Lemma dict_set_app_fresh {B : Type} (k : string) (v w : B)
      (acc : list (string * B)) :
  dict_get k acc = None ->
  dict_set k w (acc ++ [(k, v)]) = acc ++ [(k, w)].
Proof.
  induction acc as [| [k' v'] acc IH]; cbn [app dict_get dict_set].
  - now rewrite String.eqb_refl.
  - destruct (String.eqb k k'); [discriminate |]. intros H. now rewrite IH.
Qed.

Lemma fold_group_same (l : list element) (k : string) :
  Forall (fun c => Etree.tag c = k) l ->
  forall acc l0,
    dict_get k acc = None ->
    fold_left (fun g c => group_add (Etree.tag c) c g) l (acc ++ [(k, l0)])
    = acc ++ [(k, l0 ++ l)].
Proof.
  induction 1 as [| c l Hc _ IH]; intros acc l0 Hk; cbn [fold_left].
  - now rewrite app_nil_r.
  - rewrite Hc. unfold group_add at 2.
    rewrite (dict_get_app_fresh k l0 acc Hk),
            (dict_set_app_fresh k l0 (l0 ++ [c]) acc Hk).
    rewrite (IH acc (l0 ++ [c]) Hk). now rewrite <- app_assoc.
Qed.

(** Groups are what grouping their members gives. *)
Lemma groups_of_groups (g : list (string * list element)) :
  NoDup (keys g) ->
  Forall (fun kv => exists c l', snd kv = c :: l' /\
                                 Forall (fun c => Etree.tag c = fst kv) (snd kv))
         g ->
  forall acc,
    (forall k, In k (keys g) -> dict_get k acc = None) ->
    fold_left (fun g c => group_add (Etree.tag c) c g) (flat_map snd g) acc
    = acc ++ g.
Proof.
  induction g as [| [k l] g IH]; intros Hnd Hg acc Hacc; cbn [flat_map snd].
  - now rewrite app_nil_r.
  - inversion Hg as [| ? ? [c [l' [El Hall]]] Hg']; subst.
    cbn [fst snd] in El, Hall. subst l.
    cbn [keys map fst] in Hnd. inversion Hnd as [| ? ? Hk Hnd']; subst.
    rewrite fold_left_app. cbn [fold_left].
    inversion Hall as [| ? ? Hc Hl']; subst.
    assert (Hfresh : dict_get (Etree.tag c) acc = None)
      by (apply Hacc; now left).
    assert (Hadd : group_add (Etree.tag c) c acc = acc ++ [(Etree.tag c, [c])]).
    { unfold group_add. rewrite Hfresh. now apply dict_set_fresh. }
    rewrite Hadd.
    rewrite (fold_group_same l' (Etree.tag c) Hl' acc [c] Hfresh).
    cbn [app]. rewrite (IH Hnd' Hg').
    + now rewrite <- app_assoc.
    + intros k Hin. apply dict_get_keys. unfold keys. rewrite map_app.
      cbn [map fst]. intros Hin'. apply in_app_or in Hin'.
      destruct Hin' as [Hin' | [<- | []]].
      * apply (proj1 (dict_get_keys k acc)); [| exact Hin'].
        apply Hacc. now right.
      * now apply Hk.
Qed.

Lemma groups_flat (cs : list element) :
  groups (flat_map snd (groups cs)) = groups cs.
Proof.
  unfold groups at 1.
  rewrite (groups_of_groups (groups cs)); [reflexivity | | | reflexivity].
  - apply groups_NoDup. constructor.
  - apply Forall_forall. intros [k l] Hin. cbn [fst snd].
    destruct (groups_nonempty cs k l Hin) as [c [l' [El Hall]]].
    exists c, l'. split; [exact El |].
    apply Forall_forall. intros c' Hc'. rewrite Forall_forall in Hall.
    now destruct (Hall c' Hc').
Qed.

Lemma groups_members (cs : list element) (c : element) :
  In c (flat_map snd (groups cs)) -> In c cs.
Proof.
  intros Hin. apply in_flat_map in Hin. destruct Hin as [[k l] [Hkl Hc]].
  destruct (groups_nonempty cs k l Hkl) as [_ [_ [_ Hall]]].
  rewrite Forall_forall in Hall. now destruct (Hall c Hc).
Qed.

Lemma kept_text_again (x : option string) : kept_text (kept_text x) = kept_text x.
Proof.
  destruct x as [s |]; [| reflexivity]. cbn [kept_text].
  destruct (Py.strip s) eqn:E; [reflexivity |]. cbn [kept_text]. now rewrite E.
Qed.

(** What comes back is in the form in which things come back. *)
Lemma regroup_again (e : element) : regroup (regroup e) = regroup e.
Proof.
  induction e as [t a x cs IH] using element_ind'. cbn [regroup].
  rewrite kept_text_again. f_equal.
  assert (Hid : map regroup (flat_map snd (groups (map regroup cs)))
                = flat_map snd (groups (map regroup cs))).
  { rewrite <- (map_id (flat_map snd (groups (map regroup cs)))) at 2.
    apply map_ext_in. intros c Hc. apply groups_members in Hc.
    apply in_map_iff in Hc. destruct Hc as [c0 [<- Hc0]].
    rewrite Forall_forall in IH. now apply IH. }
  now rewrite Hid, groups_flat.
Qed.

Lemma regroup_well_formed (e : element) :
  well_formed e = true -> well_formed (regroup e) = true.
Proof.
  induction e as [t a x cs IH] using element_ind'. intros H.
  destruct (well_formed_parts t a x cs H) as [Ht [Hd [Ha [Hx Hcs]]]].
  cbn [regroup well_formed]. rewrite Ht, Hd, Ha. cbn [negb andb].
  apply andb_true_intro. split.
  - destruct x as [s |]; [| reflexivity]. cbn [kept_text].
    now destruct (Py.strip s).
  - apply forallb_forall. intros c Hc. apply groups_members in Hc.
    apply in_map_iff in Hc. destruct Hc as [c0 [<- Hc0]].
    rewrite Forall_forall in IH, Hcs. now apply IH, Hcs.
Qed.

(** X10  The form in which a document comes back is stable: the
    document that was written is well formed again, and parsing and
    writing it once more gives the same tree (up to the order of
    attributes). *)
Theorem X10_second_pass_unchanged (e : element) :
  well_formed e = true ->
  well_formed (regroup e) = true /\
  exists v e',
    snd (DataBinder.parseString (DataBinder.__init__ None)
           (Etree.compact (regroup e))) = Ok v /\
    Serializer._to_etree_r v None = Ok (Single e') /\
    alike (regroup e) e'.
Proof.
  intros H. pose proof (regroup_well_formed e H) as Hw.
  split; [exact Hw |].
  exists (obj (node_of (regroup e))), (regroup e).
  split; [now apply parse_element |]. split; [| apply alike_refl].
  rewrite <- (regroup_again e) at 2.
  apply (write_node (regroup e) Hw).
  destruct (regroup e) as [t a x cs] eqn:E.
  destruct (well_formed_parts t a x cs Hw) as [_ [_ [_ [_ Hcs]]]].
  destruct (node_of_fields t a x cs Hcs) as [Hclass _].
  unfold obj. cbn [Serializer.element_name Serializer.class_name].
  now rewrite Hclass.
Qed.

Lemma X10_second_pass_unchanged_witness :
  well_formed
    (regroup (Element "a" [("x", "1")] None
                [Element "b" [] None [];
                 Element "c" [] (Some "t") [];
                 Element "b" [] (Some " ") []])) = true /\
  exists v e',
    snd (DataBinder.parseString (DataBinder.__init__ None)
           (Etree.compact
              (regroup (Element "a" [("x", "1")] None
                          [Element "b" [] None [];
                           Element "c" [] (Some "t") [];
                           Element "b" [] (Some " ") []])))) = Ok v /\
    Serializer._to_etree_r v None = Ok (Single e') /\
    alike (regroup (Element "a" [("x", "1")] None
                      [Element "b" [] None [];
                       Element "c" [] (Some "t") [];
                       Element "b" [] (Some " ") []])) e'.
Proof.
  apply (X10_second_pass_unchanged
           (Element "a" [("x", "1")] None
              [Element "b" [] None [];
               Element "c" [] (Some "t") [];
               Element "b" [] (Some " ") []])).
  reflexivity.
Defined.

(** ** The object a parse returns *)

(** X11  The object returned for a document parsed with no registered
    class: its class is named after the root tag; [_text] is the text
    of the root; [_childOrder] lists the tags of the children in
    document order; under a tag that occurs among the children it has
    the list of what parsing each of these children alone returns, in
    document order; and under another name it has the value of the
    attribute of that name, if there is one.  A child tag hides an
    attribute of the same name. *)
Theorem X11_parsed_object (t : string) (a : list (string * string))
        (x : option string) (cs : list element) (k : string) :
  well_formed (Element t a x cs) = true ->
  Py.startswith_ k = false ->
  exists c d,
    parsed_alone (Element t a x cs) (VObj c d) /\
    c_name c = t /\
    getattr_of c d "_text"
    = Some (VStr (match x with Some s => s | None => "" end)) /\
    (cs <> [] ->
     getattr_of c d "_childOrder" = Some (VList (map VStr (map Etree.tag cs)))) /\
    match filter (fun c => String.eqb k (Etree.tag c)) cs with
    | [] => getattr_of c d k = option_map VStr (dict_get k a)
    | l => exists vs, getattr_of c d k = Some (VList vs) /\
                      Forall2 parsed_alone l vs
    end.
Proof.
  intros H Hk.
  destruct (well_formed_parts t a x cs H) as [Ht [Hd [Ha [Hx Hcs]]]].
  destruct (node_of_fields t a x cs Hcs)
    as [Hclass [Htext [[Hpub [Hord Hco]] Hnone]]].
  set (n := node_of (Element t a x cs)) in *.
  exists (n_class n), (n_dict n).
  split; [apply (parse_element _ H) |].
  split; [now rewrite Hclass |].
  split; [unfold getattr_of; now rewrite Htext |].
  split.
  { intros Hne. unfold getattr_of. rewrite Hco; [reflexivity |].
    destruct cs; [now elim Hne | discriminate]. }
  assert (Hget : dict_get k (n_dict n)
                 = option_map (fun l => VList (map (fun c => obj (node_of c)) l))
                     (dict_get k (groups cs))).
  { assert (Hp : dict_get k (n_dict n) = dict_get k (public (n_dict n)))
      by now rewrite dict_get_public, Hk.
    rewrite Hp, Hpub. unfold stored.
    apply (dict_get_map (fun l => VList (map (fun c => obj (node_of c)) l))). }
  unfold groups in Hget. rewrite groups_get in Hget. cbn [dict_get] in Hget.
  destruct (filter (fun c => String.eqb k (Etree.tag c)) cs) as [| c0 l] eqn:Ef.
  - cbn [option_map] in Hget. unfold getattr_of. rewrite Hget, Hclass.
    cbn [BindingHandler.element_class c_attrs].
    rewrite (class_attrs_stored a [])
      by (cbn [keys map app]; now apply has_dup_NoDup).
    cbn [app]. rewrite (dict_get_map AStr).
    destruct (dict_get k a) as [v |]; cbn [option_map atom_value];
      [reflexivity |].
    unfold inherited. cbn [c_base].
    destruct (private_differs "_singleChildren" k eq_refl Hk) as [_ ->].
    now destruct (private_differs "_childOrder" k eq_refl Hk) as [_ ->].
  - cbn [option_map] in Hget. eexists. split.
    + unfold getattr_of. rewrite Hget. reflexivity.
    + assert (Hsub : Forall (fun c => well_formed c = true) (c0 :: l)).
      { rewrite <- Ef. apply Forall_forall. intros c Hc.
        apply filter_In in Hc. rewrite Forall_forall in Hcs.
        now apply Hcs. }
      clear - Hsub. induction Hsub as [| c1 l1 Hc _ IH]; cbn [map];
        constructor; [now apply parse_element | exact IH].
Qed.

Lemma X11_parsed_object_witness :
  exists c d,
    parsed_alone
      (Element "a" [("x", "1"); ("b", "2")] (Some "t")
         [Element "b" [] None []; Element "c" [] None [];
          Element "b" [] (Some "u") []]) (VObj c d) /\
    c_name c = "a" /\
    getattr_of c d "_text" = Some (VStr "t") /\
    ([Element "b" [] None []; Element "c" [] None [];
      Element "b" [] (Some "u") []] <> [] ->
     getattr_of c d "_childOrder"
     = Some (VList (map VStr
                      (map Etree.tag
                         [Element "b" [] None []; Element "c" [] None [];
                          Element "b" [] (Some "u") []])))) /\
    match filter (fun c => String.eqb "b" (Etree.tag c))
                 [Element "b" [] None []; Element "c" [] None [];
                  Element "b" [] (Some "u") []] with
    | [] => getattr_of c d "b"
            = option_map VStr (dict_get "b" [("x", "1"); ("b", "2")])
    | l => exists vs, getattr_of c d "b" = Some (VList vs) /\
                      Forall2 parsed_alone l vs
    end.
Proof.
  apply (X11_parsed_object "a" [("x", "1"); ("b", "2")] (Some "t")
           [Element "b" [] None []; Element "c" [] None [];
            Element "b" [] (Some "u") []] "b");
    reflexivity.
Defined.

(** ** Null nodes *)

(** X12  Let the parent be an instance that sees the declaration of
    its class (it is an instance of a node class, nothing named
    [_singleChildren] hides the declaration, and its own [_childOrder],
    if any, is a list); let the child be an instance of a class derived
    from [NullNode] whose [_finalize] nothing hides; let no attribute
    of the start tag of either have a name that starts with an
    underscore; and let the tag not start with an underscore and, when
    it is not declared single, be unbound or bound to a list in the
    parent.  Then [_addChild]
    stores [None] for the child, whatever text, attributes or children
    the child has: the field of the tag becomes [None] when the tag is
    declared single, and the list it held (the empty one when unbound)
    with [None] at its end otherwise; the tag goes to the end of
    [_childOrder] and no other field changes.  The parent can then not
    be written: [_to_etree_r] raises on it. *)
Theorem X12_null_child (self n : node) (k : string) (nt cnt : node_type) :
  sees_declaration self nt ->
  c_base (n_class n) = Some cnt -> nt_kind cnt = KNull ->
  has_method n "_finalize" = Ok tt ->
  public (c_attrs (n_class self)) = c_attrs (n_class self) ->
  public (c_attrs (n_class n)) = c_attrs (n_class n) ->
  Py.startswith_ k = false ->
  (~ In k (nt_single nt) ->
   dict_get k (n_dict self) = None \/
   exists l, dict_get k (n_dict self) = Some (VList l)) ->
  exists self',
    BaseNodeChildren._addChild self k n = (self', Ok tt) /\
    (In k (nt_single nt) -> child_stored self self' k VNone) /\
    (~ In k (nt_single nt) ->
     child_stored self self' k
       (VList (field_nodes (n_dict self) k ++ [VNone]))) /\
    forall name, exists e, Serializer._to_etree_r (obj self') name = Raise e.
Proof.
  intros Hsees Hbase Hkind Hm _ _ Hk Hfield.
  assert (Hfin : finalize n = Ok VNone).
  { unfold finalize. rewrite Hm, Hbase, Hkind. reflexivity. }
  destruct (public_not_internal k Hk) as [Hkt Hkc].
  assert (Hnone : forall self' v,
             child_stored self self' k v -> holds_none v ->
             forall name, exists e,
                 Serializer._to_etree_r (obj self') name = Raise e).
  { intros self' v [_ [Hget _]] Hv. apply holds_none_raises.
    unfold obj. apply (none_field _ _ k v); [| exact Hv].
    now rewrite dict_get_public, Hk. }
  destruct (in_dec string_dec k (nt_single nt)) as [Hin | Hnin].
  - destruct (proj1 addChild_stores self n k nt VNone Hsees Hkc Hfin Hin)
      as [self' [Hadd [Hst _]]].
    exists self'. split; [exact Hadd |]. split; [intros _; exact Hst |].
    split; [intros Hn; now elim Hn |].
    apply (Hnone self' VNone Hst). constructor.
  - assert (Hold : (dict_get k (n_dict self) = None /\
                    field_nodes (n_dict self) k = []) \/
                   dict_get k (n_dict self)
                   = Some (VList (field_nodes (n_dict self) k))).
    { unfold field_nodes. destruct (Hfield Hnin) as [-> | [l ->]];
        [left; now split | now right]. }
    destruct (proj1 (proj2 addChild_stores) self n k nt VNone
                (field_nodes (n_dict self) k) Hsees Hkc Hfin Hnin Hold)
      as [self' [Hadd Hst]].
    exists self'. split; [exact Hadd |].
    split; [intros Hin; now elim Hnin |]. split; [intros _; exact Hst |].
    apply (Hnone self' _ Hst).
    apply (none_member _ (field_nodes (n_dict self) k ++ [VNone]) VNone);
      [reflexivity | apply in_or_app; right; now left | constructor].
Qed.

Lemma X12_null_child_witness :
  exists self',
    BaseNodeChildren._addChild (fresh "p") "bar"
      (text_node (BindingHandler.element_class "bar" NullNode_class []) "test")
    = (self', Ok tt) /\
    (In "bar" (nt_single BindingHandler.BaseNode_class) ->
     child_stored (fresh "p") self' "bar" VNone) /\
    (~ In "bar" (nt_single BindingHandler.BaseNode_class) ->
     child_stored (fresh "p") self' "bar"
       (VList (field_nodes (n_dict (fresh "p")) "bar" ++ [VNone]))) /\
    forall name, exists e, Serializer._to_etree_r (obj self') name = Raise e.
Proof.
  apply (X12_null_child (fresh "p")
           (text_node (BindingHandler.element_class "bar" NullNode_class [])
                      "test")
           "bar" BindingHandler.BaseNode_class NullNode_class).
  - split; [reflexivity | split; [reflexivity | left; reflexivity]].
  - reflexivity.
  - reflexivity.
  - reflexivity.
  - reflexivity.
  - reflexivity.
  - reflexivity.
  - intros _. left. reflexivity.
Defined.

(** ** Attributes and children of a scalar node *)

Lemma addChild_other (self : node) (name : string) (child : node) (m : string) :
  m <> "_childOrder" -> m <> name ->
  dict_get m (n_dict (fst (BaseNodeChildren._addChild self name child)))
  = dict_get m (n_dict self).
Proof.
  intros Hco Hname. unfold BaseNodeChildren._addChild.
  destruct (getattr self "_childOrder"); [| reflexivity].
  set (d1 := if dict_has "_childOrder" (n_dict self) then n_dict self
             else dict_set "_childOrder" (VList []) (n_dict self)).
  assert (H1 : dict_get m d1 = dict_get m (n_dict self)).
  { unfold d1. destruct (dict_has "_childOrder" (n_dict self)); [reflexivity |].
    now apply dict_get_set_other. }
  destruct (dict_get "_childOrder" d1) as [[] |]; cbn [fst n_dict
    BaseNodeChildren.with_dict]; try exact H1.
  assert (H2 : forall l', dict_get m (dict_set "_childOrder" l' d1)
                          = dict_get m (n_dict self)).
  { intros l'. now rewrite dict_get_set_other. }
  match goal with
  | |- context [getattr ?n "_singleChildren"] =>
      destruct (getattr n "_singleChildren") as [sc |]
  end; cbn [fst n_dict BaseNodeChildren.with_dict]; [| apply H2].
  destruct (py_in name sc) as [[] | e];
    cbn [fst n_dict BaseNodeChildren.with_dict]; [| | apply H2].
  - destruct (finalize child); cbn [fst n_dict BaseNodeChildren.with_dict];
      [| apply H2].
    rewrite dict_get_set_other by exact Hname. apply H2.
  - match goal with
    | |- context [dict_get name ?d2] =>
        destruct (dict_get name d2) as [[] |]
    end; cbn [fst n_dict BaseNodeChildren.with_dict]; try apply H2;
      destruct (finalize child); cbn [fst n_dict BaseNodeChildren.with_dict];
      try apply H2;
      rewrite ?dict_get_set_other by exact Hname; apply H2.
Qed.

(** What [_finalize] of a class that reads the text only depends
    on. *)
Lemma finalize_reads (n n' : node) (T : node_type) :
  reads_text_only T = true ->
  c_base (n_class n) = Some T -> c_base (n_class n') = Some T ->
  has_method n' "_finalize" = has_method n "_finalize" ->
  getattr n' "_text" = getattr n "_text" ->
  finalize n' = finalize n.
Proof.
  intros HT Hb Hb' Hm Ht. unfold finalize. rewrite Hm, Hb, Hb'.
  unfold reads_text_only in HT.
  destruct (nt_kind T); try discriminate HT;
    unfold IntegerNode._finalize, StringNode._finalize, NullNode._finalize,
      BooleanNode._finalize; now rewrite ?Ht.
Qed.

(** X13  A node of a class that converts its text ([IntegerNode],
    [StringNode], [BooleanNode], [NullNode]) loses its attributes and
    children: the value [_finalize] returns does not change when a
    child is added under a name that does not start with an underscore
    (whether or not adding it raises), nor with the attributes of the
    start tag, if none of their names starts with an underscore. *)
Theorem X13_attributes_and_children_lost (T : node_type) (n child : node)
        (k t : string) (a : list (string * string)) (d : fields) :
  reads_text_only T = true ->
  c_base (n_class n) = Some T -> Py.startswith_ k = false ->
  forallb (fun kv => negb (Py.startswith_ (fst kv))) a = true ->
  finalize (fst (BaseNodeChildren._addChild n k child)) = finalize n /\
  finalize {| n_class := BindingHandler.element_class t T a; n_dict := d |}
  = finalize {| n_class := BindingHandler.element_class t T []; n_dict := d |}.
Proof.
  intros HT Hb Hk Ha. split.
  - pose proof (addChild_class n k child) as Hc.
    assert (Hget : forall m, Py.startswith_ m = true -> m <> "_childOrder" ->
                   dict_get m (n_dict (fst (BaseNodeChildren._addChild n k child)))
                   = dict_get m (n_dict n)).
    { intros m Hm Hne. apply addChild_other; [exact Hne |].
      intros ->. congruence. }
    apply (finalize_reads _ _ T HT Hb); [now rewrite Hc | |].
    + unfold has_method, dict_has. rewrite Hc, Hget by (reflexivity || discriminate).
      reflexivity.
    + unfold getattr, getattr_of. rewrite Hc, Hget by (reflexivity || discriminate).
      reflexivity.
  - destruct (tidy_start t a Ha) as [_ [Hpriv _]].
    cbn [BaseNode.__init__ n_class BindingHandler.element_class c_attrs] in Hpriv.
    apply (finalize_reads _ _ T HT); try reflexivity.
    + unfold has_method, dict_has.
      cbn [n_class n_dict BindingHandler.element_class c_base c_attrs].
      rewrite (Hpriv "_finalize" eq_refl). reflexivity.
    + unfold getattr, getattr_of, inherited.
      cbn [n_class n_dict BindingHandler.element_class c_base c_attrs].
      rewrite (Hpriv "_text" eq_refl). reflexivity.
Qed.

Lemma X13_attributes_and_children_lost_witness :
  finalize
    (fst (BaseNodeChildren._addChild
            (text_node (BindingHandler.element_class "n" IntegerNode_class
                          [("unit", "m")]) "7")
            "sub" (fresh "sub")))
  = finalize (text_node (BindingHandler.element_class "n" IntegerNode_class
                           [("unit", "m")]) "7") /\
  finalize {| n_class := BindingHandler.element_class "n" IntegerNode_class
                           [("unit", "m")];
              n_dict := [("_text", VStr "7")] |}
  = finalize {| n_class := BindingHandler.element_class "n" IntegerNode_class [];
                n_dict := [("_text", VStr "7")] |}.
Proof.
  apply (X13_attributes_and_children_lost IntegerNode_class
           (text_node (BindingHandler.element_class "n" IntegerNode_class
                         [("unit", "m")]) "7")
           (fresh "sub") "sub" "n" [("unit", "m")] [("_text", VStr "7")]);
    reflexivity.
Defined.
